(** * c-http: acceptor / worker-pool TCP server (server.c)

    A shallow embedding of [server.c].  The program talks to the kernel
    through system calls; the embedding keeps a trace of the calls the
    program issues, and takes what the kernel answers (bytes queued on a
    socket, the result of [accept], of [epoll_wait], ...) as explicit
    inputs of the functions.  Accesses to the two stack buffers of
    [handle_connection] are bounds-checked: an access outside its array
    makes the computation undefined ([None]).  The program installs
    handlers for SIGINT and SIGTERM only: a SIGPIPE raised by a [write]
    takes its default action and terminates the process inside the
    call. *)

From Stdlib Require Import ZArith Lia List Ascii String Bool.
From stdpp Require Import base option list.
Import ListNotations.

Local Open Scope Z_scope.

(** ** Build-time configuration ([#define]s of server.c) *)

Definition PORT : Z := 8080.
Definition MAX_EVENTS : Z := 64.
Definition MAX_WORKERS : Z := 32.
Definition BUFFER_SIZE : Z := 4096.
Definition MAX_CONNECTIONS : Z := 1000.

(** ** Constants of the system headers (Linux values) *)

Definition EINTR : Z := 4.
Definition EAGAIN : Z := 11.
Definition EWOULDBLOCK : Z := 11.
Definition EPOLLIN : Z := 1.
Definition EPOLLERR : Z := 8.
Definition EPOLLHUP : Z := 16.
Definition EPOLLET : Z := Z.shiftl 1 31.
Definition EPOLL_CTL_ADD : Z := 1.
Definition EPOLL_CTL_DEL : Z := 2.
Definition F_GETFL : Z := 3.
Definition F_SETFL : Z := 4.
Definition O_NONBLOCK : Z := 2048.
Definition EXIT_FAILURE : Z := 1.
Definition SIGPIPE : Z := 13.

(** ** C integers *)

(** Conversion of a value to the 32-bit [int] (two's complement wrap). *)
Definition to_int (z : Z) : Z := (z + 2 ^ 31) mod 2 ^ 32 - 2 ^ 31.

Definition int_range (z : Z) : Prop := - 2 ^ 31 <= z < 2 ^ 31.

(** ** Characters, C strings and arrays of [char] *)

Definition NUL : ascii := "000"%char.
Definition CR : ascii := "013"%char.
Definition LF : ascii := "010"%char.

Definition chars (s : string) : list ascii := list_ascii_of_string s.

Definition len {A} (l : list A) : Z := Z.of_nat (length l).

(** [sizeof] of an array of [char]. *)
Definition sizeof (buf : list ascii) : Z := len buf.

Definition is_nul (c : ascii) : bool := Ascii.eqb c NUL.

(** [buf[i] = c]: undefined outside the array. *)
Definition store (buf : list ascii) (i : Z) (c : ascii) : option (list ascii) :=
  if (0 <=? i) && (i <? len buf) then Some (<[Z.to_nat i := c]> buf) else None.

(** [strlen]: the number of characters before the first NUL; running off
    the end of the array is undefined. *)
Fixpoint strlen (buf : list ascii) : option Z :=
  match buf with
  | [] => None
  | c :: rest => if is_nul c then Some 0 else Z.succ <$> strlen rest
  end.

(** The characters of the C string stored at the start of [buf]. *)
Fixpoint cstr (buf : list ascii) : option (list ascii) :=
  match buf with
  | [] => None
  | c :: rest => if is_nul c then Some [] else cons c <$> cstr rest
  end.

(** The characters of [s] before its first NUL. *)
Fixpoint until_nul (s : list ascii) : list ascii :=
  match s with
  | [] => []
  | c :: rest => if is_nul c then [] else c :: until_nul rest
  end.

(** ** printf-style formatting *)

Definition digit_char (d : Z) : ascii := ascii_of_nat (48 + Z.to_nat d).

(** Decimal digits of [n >= 0], most significant first, at most [fuel]
    of them. *)
Fixpoint utoa (fuel : nat) (n : Z) (acc : list ascii) : list ascii :=
  match fuel with
  | O => acc
  | S fuel' =>
      let acc' := digit_char (n mod 10) :: acc in
      if n / 10 =? 0 then acc' else utoa fuel' (n / 10) acc'
  end.

(** [%d] of an [int]: ten digits are enough below [2^31 < 10^10]. *)
Definition itoa (z : Z) : list ascii :=
  if z <? 0 then "-"%char :: utoa 10 (- z) [] else utoa 10 z [].

Inductive arg : Type :=
  | AInt (z : Z)
  | AStr (buf : list ascii).

(** The text a format string produces: [%d] takes an [int], [%s] the C
    string at the start of an array.  A missing or ill-typed argument and
    an unterminated string are undefined. *)
Fixpoint format (fmt : list ascii) (args : list arg) : option (list ascii) :=
  match fmt with
  | [] => Some []
  | c :: rest =>
      if Ascii.eqb c "%"%char then
        match rest with
        | d :: rest' =>
            if Ascii.eqb d "d"%char then
              match args with
              | AInt z :: args' => app (itoa z) <$> format rest' args'
              | _ => None
              end
            else if Ascii.eqb d "s"%char then
              match args with
              | AStr buf :: args' =>
                  match cstr buf with
                  | Some s => app s <$> format rest' args'
                  | None => None
                  end
              | _ => None
              end
            else None
        | [] => None
        end
      else cons c <$> format rest args
  end.

(** [snprintf(buf, size, fmt, ...)]: at most [size - 1] characters of the
    text, then a NUL; [size] larger than the array is undefined. *)
Definition snprintf (buf : list ascii) (size : Z) (fmt : list ascii)
    (args : list arg) : option (list ascii) :=
  match format fmt args with
  | None => None
  | Some text =>
      if (size <? 0) || (len buf <? size) then None
      else if size =? 0 then Some buf
      else
        let out := take (Z.to_nat (size - 1)) text in
        Some (out ++ NUL :: drop (S (length out)) buf)
  end.

(** ** System calls and their trace *)

Inductive event : Type :=
  | EvRead (fd count ret : Z)
  | EvWrite (fd : Z) (data : list ascii)
  | EvClose (fd : Z)
  | EvAccept (fd ret : Z)
  | EvFcntl (fd cmd arg ret : Z)
  | EvEpollCtl (epfd op fd events ret : Z)
  | EvEpollWait (epfd maxevents timeout ret : Z)
  | EvStdout (text : list ascii)
  | EvPerror (msg : string)
  | EvJoin (worker : Z)
  | EvFree.

(** How a computation ends: it returns a value, or a signal whose action
    is the default one terminates the process in the middle of it. *)
Inductive outcome (A : Type) : Type :=
  | Done (a : A)
  | Killed (signum : Z).

Arguments Done {A} a.
Arguments Killed {A} signum.

(** A computation issues system calls (the trace) and returns a value or
    is killed, or is undefined. *)
Definition M (A : Type) : Type := option (outcome A * list event).

Definition ret {A} (a : A) : M A := Some (Done a, []).

(** Nothing of [k] runs once the process has been killed. *)
Definition bind {A B} (m : M A) (k : A -> M B) : M B :=
  match m with
  | None => None
  | Some (Killed signum, t1) => Some (Killed signum, t1)
  | Some (Done a, t1) =>
      match k a with
      | None => None
      | Some (b, t2) => Some (b, t1 ++ t2)
      end
  end.

Definition emit (e : event) : M unit := Some (Done tt, [e]).

Definition undefined {A} : M A := None.

(** The default action of a signal that terminates the process. *)
Definition kill {A} (signum : Z) : M A := Some (Killed signum, []).

Definition lift {A} (o : option A) : M A :=
  match o with
  | Some a => ret a
  | None => undefined
  end.

Declare Scope sys_scope.
Delimit Scope sys_scope with sys.
Notation "'let*' x := m 'in' k" := (bind m (fun x => k))
  (at level 10, x name, m at level 100, k at level 200, only parsing)
  : sys_scope.
Notation "m >> k" := (bind m (fun _ => k))
  (at level 100, k at level 200, only parsing, right associativity)
  : sys_scope.
Local Open Scope sys_scope.

(** What the kernel has for a [read]: the bytes queued on the socket (none
    of them: the peer has closed), or an error number. *)
Inductive read_outcome : Type :=
  | ReadData (avail : list ascii)
  | ReadErr (errno : Z).

(** [read(fd, buf, count)]: returns the byte count (or -1), [errno] and the
    array.  The kernel stores at most [count] bytes; a [count] beyond the
    array is undefined. *)
Definition read (fd : Z) (buf : list ascii) (count : Z) (o : read_outcome)
    : M (Z * Z * list ascii) :=
  if (count <? 0) || (len buf <? count) then undefined
  else
    match o with
    | ReadData avail =>
        let got := take (Z.to_nat count) avail in
        emit (EvRead fd count (len got)) >>
        ret (len got, 0, got ++ drop (length got) buf)
    | ReadErr errno =>
        emit (EvRead fd count (-1)) >>
        ret (-1, errno, buf)
    end.

(** What the kernel does with a [write] to a socket: the call returns, or
    the connection is broken and the kernel raises SIGPIPE ([write] is
    called without [MSG_NOSIGNAL] and server.c neither ignores nor
    handles that signal). *)
Inductive write_outcome : Type :=
  | WriteReturns
  | WriteSigpipe.

(** [write(fd, buf, count)]: the call is issued with the first [count]
    bytes of the array; what it returns is never looked at by the program.
    On SIGPIPE the call does not return. *)
Definition write (fd : Z) (buf : list ascii) (count : Z) (o : write_outcome)
    : M unit :=
  if (count <? 0) || (len buf <? count) then undefined
  else
    emit (EvWrite fd (take (Z.to_nat count) buf)) >>
    match o with
    | WriteReturns => ret tt
    | WriteSigpipe => kill SIGPIPE
    end.

Definition close (fd : Z) : M unit := emit (EvClose fd).

(** Standard output and standard error are taken to be a terminal or a
    file: writing to them returns. *)
Definition printf (fmt : string) (args : list arg) : M unit :=
  let* text := lift (format (chars fmt) args) in
  emit (EvStdout text).

Definition perror (msg : string) : M unit := emit (EvPerror msg).

(** ** Worker records *)

Record worker_t : Type := mk_worker {
  epoll_fd : Z;
  worker_id : Z
}.

(** An [epoll_event] as the program uses it. *)
Record epoll_event : Type := mk_epoll_event {
  events : Z;
  data_fd : Z
}.

(** Where a thread is: in its [while] loop, or past it. *)
Inductive thread_status : Type :=
  | Looping
  | Returned.

(** The format string of the response, lines 97-101. *)
Definition response : list ascii :=
  chars "HTTP/1.1 200 OK" ++ [CR; LF] ++
  chars "Content-Type: text/plain" ++ [CR; LF] ++
  chars "Connection: close" ++ [CR; LF] ++
  [CR; LF] ++
  chars "Hello from worker %d!" ++ [LF].

Definition with_newline (s : string) : string :=
  (s ++ String LF EmptyString)%string.

Section Server.

(** Contents of the stack before a frame initialises it. *)
Variable junk : nat -> ascii.

(** An automatic array of [n] chars, not initialised. *)
Definition alloca (n : Z) : list ascii := map junk (seq 0 (Z.to_nat n)).

(** *** handle_connection, lines 88-115 *)

Definition handle_connection (client_fd worker_id : Z) (o : read_outcome)
    (wo : write_outcome) : M unit :=
  let buffer := alloca BUFFER_SIZE in
  let* r := read client_fd buffer (sizeof buffer - 1) o in
  let '(bytes_read, errno, buffer) := r in
  if 0 <? bytes_read then
    let* buffer := lift (store buffer bytes_read NUL) in
    printf "Worker %d received: %s" [AInt worker_id; AStr buffer] >>
    let formatted_response := alloca 512 in
    let* formatted_response :=
      lift (snprintf formatted_response (sizeof formatted_response)
              response [AInt worker_id]) in
    let* n := lift (strlen formatted_response) in
    write client_fd formatted_response n wo >>
    close client_fd
  else if bytes_read =? 0 then
    printf (with_newline "Worker %d: Client closed connection")
      [AInt worker_id]
  else
    if negb (errno =? EAGAIN) && negb (errno =? EWOULDBLOCK)
    then perror "read"
    else ret tt.

(** *** worker_thread, lines 58-86 *)

(** What the kernel answers to the calls the loop makes for one ready
    event: to the [read] and to the [write] of the handler, and to the
    [EPOLL_CTL_DEL]. *)
Record served : Type := mk_served {
  on_read : read_outcome;
  on_write : write_outcome;
  on_del : Z
}.

(** What [epoll_wait] gives: the ready events, each with the answers to the
    calls made for it, or an error number. *)
Inductive wait_outcome : Type :=
  | WaitReady (ready : list (epoll_event * served))
  | WaitErr (errno : Z).

Inductive control : Type :=
  | Next
  | Break.

(** The body of the [for] loop, lines 74-81.  The result of the
    [EPOLL_CTL_DEL] call is not looked at by the program; the trace records
    what the kernel answered. *)
Definition worker_event (worker : worker_t) (ev : epoll_event * served)
    : M unit :=
  let '(e, o) := ev in
  (if negb (Z.land (events e) EPOLLIN =? 0)
   then handle_connection (data_fd e) (worker_id worker) (on_read o)
          (on_write o)
   else ret tt) >>
  if negb (Z.land (events e) (Z.lor EPOLLERR EPOLLHUP) =? 0) then
    printf (with_newline "Worker %d: Client disconnected")
      [AInt (worker_id worker)] >>
    emit (EvEpollCtl (epoll_fd worker) EPOLL_CTL_DEL (data_fd e) 0 (on_del o)) >>
    close (data_fd e)
  else ret tt.

Fixpoint for_each {A} (f : A -> M unit) (l : list A) : M unit :=
  match l with
  | [] => ret tt
  | x :: rest => f x >> for_each f rest
  end.

(** One turn of the [while] loop once [running] has been read as true,
    lines 65-82. *)
Definition worker_iteration (worker : worker_t) (o : wait_outcome)
    : M control :=
  match o with
  | WaitErr errno =>
      emit (EvEpollWait (epoll_fd worker) MAX_EVENTS 1000 (-1)) >>
      if errno =? EINTR then ret Next
      else perror "epoll_wait" >> ret Break
  | WaitReady ready =>
      let batch := take (Z.to_nat MAX_EVENTS) ready in
      emit (EvEpollWait (epoll_fd worker) MAX_EVENTS 1000 (len batch)) >>
      for_each (worker_event worker) batch >>
      ret Next
  end.

(** The [while] loop on its own.  Each turn reads [running] and, when it is
    set, waits: [obs] lists what the thread finds, turn by turn.  The
    result tells whether the thread has left the loop when [obs] runs
    out. *)
Fixpoint worker_loop (worker : worker_t) (obs : list (bool * wait_outcome))
    : M thread_status :=
  match obs with
  | [] => ret Looping
  | (flag, o) :: rest =>
      if flag then
        let* c := worker_iteration worker o in
        match c with
        | Next => worker_loop worker rest
        | Break => ret Returned
        end
      else ret Returned
  end.

Definition worker_thread (worker : worker_t) (obs : list (bool * wait_outcome))
    : M thread_status :=
  printf (with_newline "Worker %d started") [AInt (worker_id worker)] >>
  worker_loop worker obs.

End Server.

(** ** The process: globals, threads, and their steps *)

(** How a process ends: it exits with a status ([exit], or [main]
    returns), or a signal terminates it. *)
Inductive termination : Type :=
  | Exited (status : Z)
  | Signaled (signum : Z).

(** The globals of server.c ([workers], [num_workers], [server_fd],
    [running]), the local [current_worker] of [main], where each thread is,
    whether and how the process has ended, and the system calls issued so
    far. *)
Record server : Type := mk_server {
  running : bool;
  server_fd : Z;
  workers : list worker_t;
  num_workers : Z;
  current_worker : Z;
  acceptor : thread_status;
  threads : list thread_status;
  exit_code : option termination;
  log : list event
}.

Definition set_running (b : bool) (s : server) : server :=
  mk_server b (server_fd s) (workers s) (num_workers s) (current_worker s)
    (acceptor s) (threads s) (exit_code s) (log s).

Definition set_current_worker (c : Z) (s : server) : server :=
  mk_server (running s) (server_fd s) (workers s) (num_workers s) c
    (acceptor s) (threads s) (exit_code s) (log s).

Definition set_acceptor (t : thread_status) (s : server) : server :=
  mk_server (running s) (server_fd s) (workers s) (num_workers s)
    (current_worker s) t (threads s) (exit_code s) (log s).

Definition set_threads (ts : list thread_status) (s : server) : server :=
  mk_server (running s) (server_fd s) (workers s) (num_workers s)
    (current_worker s) (acceptor s) ts (exit_code s) (log s).

Definition set_exit_code (c : option termination) (s : server) : server :=
  mk_server (running s) (server_fd s) (workers s) (num_workers s)
    (current_worker s) (acceptor s) (threads s) c (log s).

Definition add_log (t : list event) (s : server) : server :=
  mk_server (running s) (server_fd s) (workers s) (num_workers s)
    (current_worker s) (acceptor s) (threads s) (exit_code s) (log s ++ t).

(** [a[i]] for a C index: undefined outside the array. *)
Definition index {A} (a : list A) (i : Z) : option A :=
  if 0 <=? i then a !! Z.to_nat i else None.

(** Runs a computation of the program in the process: its calls are added
    to the log, and a signal that kills the computation ends the process,
    threads and all. *)
Definition exec {A} (m : M A) (s : server)
    (k : A -> server -> option server) : option server :=
  match m with
  | None => None
  | Some (Done a, t) => k a (add_log t s)
  | Some (Killed signum, t) =>
      Some (set_exit_code (Some (Signaled signum)) (add_log t s))
  end.

(** *** signal_handler, lines 39-43 *)

Definition signal_handler (signum : Z) (s : server) : option server :=
  exec (printf (String LF (with_newline "Received signal %d, shutting down..."))
          [AInt signum]) s
    (fun _ s =>
       let s := set_running false s in
       Some (add_log [EvClose (server_fd s)] s)).

(** *** make_socket_non_blocking, lines 45-56 *)

Definition make_socket_non_blocking (sfd getfl setfl : Z) : M Z :=
  let flags := getfl in
  emit (EvFcntl sfd F_GETFL 0 flags) >>
  if flags =? -1 then perror "fcntl F_GETFL" >> ret (-1)
  else
    emit (EvFcntl sfd F_SETFL (Z.lor flags O_NONBLOCK) setfl) >>
    if setfl =? -1 then perror "fcntl F_SETFL O_NONBLOCK" >> ret (-1)
    else ret 0.

(** *** main: sizing the pool, lines 159-162 *)

(** [nproc] is what [sysconf(_SC_NPROCESSORS_ONLN)] returned (a [long],
    -1 when it fails), assigned to the [int] [num_workers]. *)
Definition main_num_workers (nproc : Z) : Z :=
  let num_workers := to_int nproc in
  if (num_workers <=? 0) || (MAX_WORKERS <? num_workers) then 4
  else num_workers.

(** *** main: start-up, lines 164-186 *)

(** What the kernel and the C library answer during start-up.  The calls of
    [setup_socket] (lines 118-152) are summarised by the listening
    descriptor it obtains, or none when one of them fails: the process then
    exits with [EXIT_FAILURE]. *)
Record boot_env : Type := mk_boot_env {
  sysconf_nproc : Z;
  calloc_ok : bool;
  listen_fd : option Z;
  epoll_create1_ret : Z -> Z;
  pthread_create_ret : Z -> Z
}.

(** The loop of lines 172-184 from index [i], [n] workers still to create:
    the workers created, or the message of the call that failed. *)
Fixpoint create_workers (env : boot_env) (n : nat) (i : Z)
    : list worker_t + string :=
  match n with
  | O => inl []
  | S n' =>
      let epfd := epoll_create1_ret env i in
      if epfd =? -1 then inr "epoll_create1"%string
      else if negb (pthread_create_ret env i =? 0) then inr "pthread_create"%string
      else
        match create_workers env n' (i + 1) with
        | inl ws => inl (mk_worker epfd i :: ws)
        | inr msg => inr msg
        end
  end.

Definition exit_failure (n : Z) (msg : string) : server :=
  mk_server true 0 [] n 0 Returned [] (Some (Exited EXIT_FAILURE))
    [EvPerror msg].

Definition started_line (n : Z) : list event :=
  match format (chars (with_newline "Server started with %d workers")) [AInt n] with
  | Some text => [EvStdout text]
  | None => []
  end.

(** The process when [main] reaches its accept loop, or after a fatal
    start-up error. *)
Definition main_start (env : boot_env) : server :=
  let n := main_num_workers (sysconf_nproc env) in
  if negb (calloc_ok env) then exit_failure n "calloc workers"
  else
    match listen_fd env with
    | None => exit_failure n "setup_socket"
    | Some sfd =>
        match create_workers env (Z.to_nat n) 0 with
        | inr msg => exit_failure n msg
        | inl ws =>
            mk_server true sfd ws n 0 Looping
              (repeat Looping (Z.to_nat n)) None (started_line n)
        end
    end.

(** *** main: one turn of the accept loop, lines 190-222 *)

(** What the kernel answers during one turn: the result of [accept] with
    [errno] and the peer's address, of the two [fcntl] calls and of
    [epoll_ctl]. *)
Record accept_outcome : Type := mk_accept_outcome {
  accept_ret : Z;
  accept_errno : Z;
  peer_addr : string;
  peer_port : Z;
  fcntl_getfl : Z;
  fcntl_setfl : Z;
  epoll_ctl_ret : Z
}.

(** Returns how the loop goes on and the new value of [current_worker]. *)
Definition accept_iteration (s : server) (o : accept_outcome)
    : M (control * Z) :=
  let current_worker := current_worker s in
  let client_fd := accept_ret o in
  emit (EvAccept (server_fd s) client_fd) >>
  if client_fd =? -1 then
    let errno := accept_errno o in
    if (errno =? EINTR) || (errno =? EAGAIN) || (errno =? EWOULDBLOCK)
    then ret (Next, current_worker)
    else perror "accept" >> ret (Break, current_worker)
  else
    let* r := make_socket_non_blocking client_fd (fcntl_getfl o) (fcntl_setfl o) in
    if r =? -1 then close client_fd >> ret (Next, current_worker)
    else
      let* worker := lift (index (workers s) current_worker) in
      let r := epoll_ctl_ret o in
      emit (EvEpollCtl (epoll_fd worker) EPOLL_CTL_ADD client_fd
              (Z.lor EPOLLIN EPOLLET) r) >>
      if r =? -1 then
        perror "epoll_ctl" >> close client_fd >> ret (Next, current_worker)
      else
        printf (with_newline "New connection from %s:%d assigned to worker %d")
          [AStr (chars (peer_addr o) ++ [NUL]); AInt (peer_port o);
           AInt current_worker] >>
        if num_workers s =? 0 then undefined
        else ret (Next, Z.rem (to_int (current_worker + 1)) (num_workers s)).

(** *** main: after the accept loop, lines 225-234 *)

Fixpoint join_workers (ws : list worker_t) (n : nat) (i : Z) : M unit :=
  match n with
  | O => ret tt
  | S n' =>
      let* w := lift (index ws i) in
      emit (EvJoin i) >>
      close (epoll_fd w) >>
      join_workers ws n' (i + 1)
  end.

Definition is_returned (t : thread_status) : bool :=
  match t with
  | Returned => true
  | Looping => false
  end.

Section Process.

Variable junk : nat -> ascii.

(** What can happen next in the process: a signal is delivered, the main
    thread makes one turn of its accept loop, worker [i] makes one turn of
    its loop, or the main thread, out of its loop, joins the workers and
    returns. *)
Inductive action : Type :=
  | Signal (signum : Z)
  | AcceptStep (o : accept_outcome)
  | WorkerStep (i : nat) (o : wait_outcome)
  | Shutdown.

Definition leave_accept_loop (s : server) : option server :=
  exec (printf (with_newline "Shutting down server...") []) s
    (fun _ s => Some (set_acceptor Returned s)).

(** [while (running) { ... }] of [main], one test of the condition and one
    turn. *)
Definition accept_step (o : accept_outcome) (s : server) : option server :=
  match acceptor s with
  | Returned => Some s
  | Looping =>
      if running s then
        exec (accept_iteration s o) s
          (fun r s =>
             let s := set_current_worker (snd r) s in
             match fst r with
             | Next => Some s
             | Break => leave_accept_loop s
             end)
      else leave_accept_loop s
  end.

(** [while (running) { ... }] of [worker_thread] inside the process, one
    test of the condition and one turn of worker [i] (the line a worker
    prints when it starts is not part of a turn). *)
Definition worker_step (i : nat) (o : wait_outcome) (s : server)
    : option server :=
  match threads s !! i, workers s !! i with
  | Some Looping, Some worker =>
      if running s then
        exec (worker_iteration junk worker o) s
          (fun c s =>
             match c with
             | Next => Some s
             | Break => Some (set_threads (<[i := Returned]> (threads s)) s)
             end)
      else Some (set_threads (<[i := Returned]> (threads s)) s)
  | _, _ => Some s
  end.

(** [pthread_join] returns once the worker has returned; the main thread
    gets through lines 227-234 when all of them have. *)
Definition shutdown (s : server) : option server :=
  match acceptor s with
  | Looping => Some s
  | Returned =>
      if forallb is_returned (threads s) then
        exec (join_workers (workers s) (Z.to_nat (num_workers s)) 0 >>
              emit EvFree >>
              printf (with_newline "Server shutdown complete") []) s
          (fun _ s => Some (set_exit_code (Some (Exited 0)) s))
      else Some s
  end.

Definition step (s : server) (a : action) : option server :=
  match exit_code s with
  | Some _ => Some s
  | None =>
      match a with
      | Signal signum => signal_handler signum s
      | AcceptStep o => accept_step o s
      | WorkerStep i o => worker_step i o s
      | Shutdown => shutdown s
      end
  end.

Fixpoint run (s : server) (acts : list action) : option server :=
  match acts with
  | [] => Some s
  | a :: rest =>
      match step s a with
      | Some s' => run s' rest
      | None => None
      end
  end.

End Process.

(** * Vocabulary of the properties *)

Definition no_nul (s : list ascii) : Prop := Forall (fun c => is_nul c = false) s.

(** The value a string of decimal digits denotes, for checking [utoa]. *)
Definition digit_value (c : ascii) : Z := Z.of_nat (nat_of_ascii c) - 48.

Definition decimal_value (s : list ascii) : Z :=
  fold_left (fun v c => 10 * v + digit_value c) s 0.

(** The response of section 6, in the spec's words: status line, the two
    headers, a blank line and the body naming the worker. *)
Definition http_response (id : Z) : list ascii :=
  chars "HTTP/1.1 200 OK" ++ [CR; LF] ++
  chars "Content-Type: text/plain" ++ [CR; LF] ++
  chars "Connection: close" ++ [CR; LF] ++
  [CR; LF] ++
  chars "Hello from worker " ++ itoa id ++ chars "!" ++ [LF].

(** How a [write] ends and what the handler calls after it, by what the
    kernel does with the [write]. *)
Definition write_result (wo : write_outcome) : outcome unit :=
  match wo with
  | WriteReturns => Done tt
  | WriteSigpipe => Killed SIGPIPE
  end.

Definition after_write (fd : Z) (wo : write_outcome) : list event :=
  match wo with
  | WriteReturns => [EvClose fd]
  | WriteSigpipe => []
  end.

(** Serving this event ends the process: it is readable, the [read]
    returns data and the [write] of the response raises SIGPIPE. *)
Definition raises_sigpipe (ev : epoll_event * served) : bool :=
  negb (Z.land (events (fst ev)) EPOLLIN =? 0)
  && match on_read (snd ev), on_write (snd ev) with
     | ReadData (_ :: _), WriteSigpipe => true
     | _, _ => false
     end.

(** The wait returns a batch of events one of which ends the process. *)
Definition kills (o : wait_outcome) : bool :=
  match o with
  | WaitReady ready => existsb raises_sigpipe (take (Z.to_nat MAX_EVENTS) ready)
  | WaitErr _ => false
  end.

(** The payloads of the [write] calls of a trace, and the descriptors it
    closes. *)
Fixpoint written (t : list event) : list (list ascii) :=
  match t with
  | [] => []
  | EvWrite _ data :: rest => data :: written rest
  | _ :: rest => written rest
  end.

Fixpoint closed (t : list event) : list Z :=
  match t with
  | [] => []
  | EvClose fd :: rest => fd :: closed rest
  | _ :: rest => closed rest
  end.

(** The connections a trace registers: the successful [EPOLL_CTL_ADD]
    calls, as (multiplexer, socket). *)
Fixpoint registrations (t : list event) : list (Z * Z) :=
  match t with
  | [] => []
  | EvEpollCtl epfd op fd _ r :: rest =>
      if (op =? EPOLL_CTL_ADD) && negb (r =? -1)
      then (epfd, fd) :: registrations rest
      else registrations rest
  | _ :: rest => registrations rest
  end.

(** How many connections a trace assigns to a worker. *)
Definition assigned_to (w : worker_t) (t : list event) : Z :=
  len (List.filter (fun p => fst p =? epoll_fd w) (registrations t)).

(** [accept] returned a connection. *)
Definition accepted (o : accept_outcome) : bool := negb (accept_ret o =? -1).

(** The connection is accepted, switched to non-blocking mode and
    registered. *)
Definition registers (o : accept_outcome) : bool :=
  accepted o && negb (fcntl_getfl o =? -1) && negb (fcntl_setfl o =? -1)
  && negb (epoll_ctl_ret o =? -1).

(** [accept] failed with an error the loop does not retry. *)
Definition accept_fatal (o : accept_outcome) : bool :=
  (accept_ret o =? -1)
  && negb ((accept_errno o =? EINTR) || (accept_errno o =? EAGAIN)
           || (accept_errno o =? EWOULDBLOCK)).

Definition assigned_line (o : accept_outcome) (cw : Z) : list ascii :=
  chars "New connection from " ++ until_nul (chars (peer_addr o)) ++
  chars ":" ++ itoa (peer_port o) ++ chars " assigned to worker " ++
  itoa cw ++ [LF].

(** The pool size is between 1 and [MAX_WORKERS], the cursor is an index of
    the pool, and while the process lives the arrays have the pool's size. *)
Definition inv (s : server) : Prop :=
  1 <= num_workers s <= MAX_WORKERS /\
  0 <= current_worker s < num_workers s /\
  (exit_code s = None ->
   len (workers s) = num_workers s /\ length (threads s) = length (workers s)).

Definition same_pool (s s' : server) : Prop :=
  workers s' = workers s /\ num_workers s' = num_workers s /\
  server_fd s' = server_fd s /\ length (threads s') = length (threads s).

(** The number of connections worker [i] gets out of [k] dealt one by one
    to [n] workers, starting at worker [c]. *)
Definition share (n k c i : Z) : Z :=
  k / n + (if (i - c) mod n <? k mod n then 1 else 0).

Definition stale : nat -> ascii := fun _ => "x"%char.

(** Start-up succeeds: listening socket 3, multiplexers 4, 5, ... *)
Definition demo_env (nproc : Z) : boot_env :=
  mk_boot_env nproc true (Some 3) (fun i => 4 + i) (fun _ => 0).

Definition demo_server : server := main_start (demo_env 4).

(** How many times the flag changes value along a run. *)
Fixpoint flips (junk : nat -> ascii) (s : server) (acts : list action) : nat :=
  match acts with
  | [] => 0
  | a :: rest =>
      match step junk s a with
      | Some s' =>
          ((if Bool.eqb (running s) (running s') then 0 else 1)
           + flips junk s' rest)%nat
      | None => 0%nat
      end
  end.

(** ** setup_socket, lines 118-152 *)

Definition AF_INET : Z := 2.
Definition SOCK_STREAM : Z := 1.
Definition SOL_SOCKET : Z := 1.
Definition SO_REUSEADDR : Z := 2.
Definition INADDR_ANY : Z := 0.

(** [htons] on a little-endian host: the two bytes of a 16-bit value
    swapped. *)
Definition htons (p : Z) : Z :=
  Z.lor (Z.shiftl (Z.land p 255) 8) (Z.land (Z.shiftr p 8) 255).

(** The calls of start-up that the serving loops never make, and the other
    calls. *)
Inductive boot_call : Type :=
  | CallSocket (domain type protocol ret : Z)
  | CallSetsockopt (fd level optname optval ret : Z)
  | CallBind (fd family addr port ret : Z)
  | CallListen (fd backlog ret : Z)
  | CallSys (e : event).

(** What the kernel answers to the calls of [setup_socket]. *)
Record socket_env : Type := mk_socket_env {
  socket_ret : Z;
  setsockopt_ret : Z;
  server_getfl : Z;
  server_setfl : Z;
  bind_ret : Z;
  listen_ret : Z
}.

(** The listening descriptor stored in [server_fd], or how the process
    ends, and the calls made; undefined only where
    [make_socket_non_blocking] is. *)
Definition setup_socket (env : socket_env)
    : option ((Z + termination) * list boot_call) :=
  let server_fd := socket_ret env in
  let t := [CallSocket AF_INET SOCK_STREAM 0 server_fd] in
  if server_fd =? -1 then
    Some (inr (Exited EXIT_FAILURE), t ++ [CallSys (EvPerror "socket")])
  else
    let opt := 1 in
    let t := t ++ [CallSetsockopt server_fd SOL_SOCKET SO_REUSEADDR opt
                     (setsockopt_ret env)] in
    if setsockopt_ret env =? -1 then
      Some (inr (Exited EXIT_FAILURE),
            t ++ [CallSys (EvPerror "setsockopt SO_REUSEADDR")])
    else
      match make_socket_non_blocking server_fd (server_getfl env)
              (server_setfl env) with
      | None => None
      | Some (Killed signum, calls) =>
          Some (inr (Signaled signum), t ++ map CallSys calls)
      | Some (Done r, calls) =>
          let t := t ++ map CallSys calls in
          if r =? -1 then Some (inr (Exited EXIT_FAILURE), t)
          else
            let t := t ++ [CallBind server_fd AF_INET INADDR_ANY (htons PORT)
                             (bind_ret env)] in
            if bind_ret env =? -1 then
              Some (inr (Exited EXIT_FAILURE),
                    t ++ [CallSys (EvPerror "bind")])
            else
              let t := t ++ [CallListen server_fd MAX_CONNECTIONS
                               (listen_ret env)] in
              if listen_ret env =? -1 then
                Some (inr (Exited EXIT_FAILURE),
                      t ++ [CallSys (EvPerror "listen")])
              else
                match format (chars (with_newline "Server listening on port %d"))
                        [AInt PORT] with
                | None => None
                | Some text => Some (inl server_fd, t ++ [CallSys (EvStdout text)])
                end
      end.

(** ** More vocabulary *)

(** The [read] calls of a trace. *)
Fixpoint reads (t : list event) : list (Z * Z * Z) :=
  match t with
  | [] => []
  | EvRead fd count r :: rest => (fd, count, r) :: reads rest
  | _ :: rest => reads rest
  end.

(** What a turn of worker [w] may call: it waits on its own multiplexer,
    removes sockets from it, reads, writes its own response, closes and
    logs; it does not accept, change descriptor flags, add to a
    multiplexer, join or free. *)
Definition worker_call (w : worker_t) (e : event) : Prop :=
  match e with
  | EvEpollWait epfd maxevents timeout _ =>
      epfd = epoll_fd w /\ maxevents = MAX_EVENTS /\ timeout = 1000
  | EvEpollCtl epfd op _ _ _ => epfd = epoll_fd w /\ op = EPOLL_CTL_DEL
  | EvWrite _ data => data = http_response (worker_id w)
  | EvRead _ count _ => count = BUFFER_SIZE - 1
  | EvClose _ | EvStdout _ | EvPerror _ => True
  | EvAccept _ _ | EvFcntl _ _ _ _ | EvJoin _ | EvFree => False
  end.

(** How the process may use a multiplexer: add a socket for edge-triggered
    readable events to a worker's multiplexer, or remove one from it. *)
Definition multiplexer_use (ws : list worker_t) (e : event) : Prop :=
  match e with
  | EvEpollCtl epfd op _ mask _ =>
      (exists w, In w ws /\ epfd = epoll_fd w)
      /\ ((op = EPOLL_CTL_ADD /\ mask = Z.lor EPOLLIN EPOLLET)
          \/ op = EPOLL_CTL_DEL)
  | _ => True
  end.

(** How a turn of the worker's loop ends, by what the wait gave. *)
Definition turn_control (o : wait_outcome) : control :=
  match o with
  | WaitReady _ => Next
  | WaitErr errno => if errno =? EINTR then Next else Break
  end.

(** An observation that makes a worker leave its loop: the flag read as
    false, or a wait that fails with an error other than EINTR. *)
Definition stops_worker (ob : bool * wait_outcome) : Prop :=
  fst ob = false \/ exists errno, snd ob = WaitErr errno /\ errno <> EINTR.

(** An observation in which the process is killed: the flag is read as
    true and the wait returns an event whose response raises SIGPIPE. *)
Definition kills_worker (ob : bool * wait_outcome) : Prop :=
  fst ob = true /\ kills (snd ob) = true.

(** An observation after which the worker is still in its loop. *)
Definition goes_on (ob : bool * wait_outcome) : Prop :=
  fst ob = true /\ turn_control (snd ob) = Next /\ kills (snd ob) = false.

(** The turn of worker [i] on [o] is one that ends the process: the
    process is live, the flag is set, the worker is in its loop and the
    wait returns an event whose response raises SIGPIPE. *)
Definition sigpipe_turn (s : server) (i : nat) (o : wait_outcome) : Prop :=
  exit_code s = None /\ running s = true
  /\ threads s !! i = Some Looping /\ is_Some (workers s !! i)
  /\ kills o = true.

(** One turn of each worker from index [i] on, in index order. *)
Fixpoint worker_turns (i : nat) (os : list wait_outcome) : list action :=
  match os with
  | [] => []
  | o :: rest => WorkerStep i o :: worker_turns (S i) rest
  end.

(** An action that neither signals the process, nor makes a worker's wait
    fail for good, nor writes to a connection that raises SIGPIPE. *)
Definition keeps_waiting (a : action) : Prop :=
  match a with
  | Signal _ => False
  | WorkerStep _ o => turn_control o = Next /\ kills o = false
  | AcceptStep _ | Shutdown => True
  end.

(** * Properties *)

(** ** C integers and formatting, on examples *)

Lemma to_int_range z : int_range (to_int z).
Proof.
  unfold int_range, to_int.
  pose proof (Z.mod_pos_bound (z + 2 ^ 31) (2 ^ 32) ltac:(lia)). lia.
Qed.

Lemma to_int_id z : int_range z -> to_int z = z.
Proof.
  unfold int_range, to_int. intros Hz.
  rewrite Z.mod_small by lia. lia.
Qed.

Example itoa_0 : itoa 0 = chars "0".
Proof. reflexivity. Qed.

Example itoa_31 : itoa 31 = chars "31".
Proof. reflexivity. Qed.

Example itoa_neg : itoa (-2147483648) = chars "-2147483648".
Proof. reflexivity. Qed.

Example format_d :
  format (chars "worker %d!") [AInt 7] = Some (chars "worker 7!").
Proof. reflexivity. Qed.

(** ** Arrays and C strings *)

Lemma len_nonneg {A} (l : list A) : 0 <= len l.
Proof. unfold len. lia. Qed.

Lemma len_app {A} (l k : list A) : len (l ++ k) = len l + len k.
Proof. unfold len. rewrite length_app. lia. Qed.

Lemma length_alloca junk n : length (alloca junk n) = Z.to_nat n.
Proof. unfold alloca. rewrite length_map, length_seq. reflexivity. Qed.

Lemma len_alloca junk n : 0 <= n -> len (alloca junk n) = n.
Proof. intros Hn. unfold len. rewrite length_alloca. lia. Qed.

Lemma strlen_terminated s rest :
  no_nul s -> strlen (s ++ NUL :: rest) = Some (len s).
Proof.
  induction 1 as [|c s Hc _ IH]; [reflexivity|].
  cbn [app strlen]. rewrite Hc, IH. cbn. f_equal. unfold len. cbn [length]. lia.
Qed.

Lemma cstr_terminated s rest : cstr (s ++ NUL :: rest) = Some (until_nul s).
Proof.
  induction s as [|c s IH]; [reflexivity|].
  cbn [app cstr until_nul]. destruct (is_nul c); [reflexivity|].
  rewrite IH. reflexivity.
Qed.

Lemma store_after (s buf : list ascii) c :
  (length s < length buf)%nat ->
  store (s ++ drop (length s) buf) (len s) c
  = Some (s ++ c :: drop (S (length s)) buf).
Proof.
  intros Hlt. unfold store.
  assert (Hlen : len (s ++ drop (length s) buf) = len buf).
  { unfold len. rewrite length_app, length_drop. lia. }
  rewrite Hlen.
  replace (0 <=? len s) with true by (unfold len; lia).
  replace (len s <? len buf) with true by (unfold len; lia).
  cbn [andb]. f_equal. unfold len. rewrite Nat2Z.id.
  rewrite insert_app_r_alt by lia. rewrite Nat.sub_diag.
  destruct (lookup_lt_is_Some_2 buf (length s) Hlt) as [x Hx].
  rewrite (drop_S _ _ _ Hx). reflexivity.
Qed.

(** ** Decimal rendering *)

Lemma digit_char_not_nul d : 0 <= d < 10 -> is_nul (digit_char d) = false.
Proof.
  intros Hd.
  assert (H : d = 0 \/ d = 1 \/ d = 2 \/ d = 3 \/ d = 4 \/ d = 5 \/ d = 6
              \/ d = 7 \/ d = 8 \/ d = 9) by lia.
  repeat (destruct H as [->|H]; [reflexivity|]). subst d. reflexivity.
Qed.

Lemma utoa_length fuel : forall n acc,
  (length (utoa fuel n acc) <= fuel + length acc)%nat.
Proof.
  induction fuel as [|fuel IH]; intros n acc; cbn [utoa]; [lia|].
  destruct (n / 10 =? 0); [cbn [length]; lia|].
  specialize (IH (n / 10) (digit_char (n mod 10) :: acc)).
  cbn [length] in IH. lia.
Qed.

Lemma utoa_no_nul fuel : forall n acc, no_nul acc -> no_nul (utoa fuel n acc).
Proof.
  induction fuel as [|fuel IH]; intros n acc Hacc; cbn [utoa]; [assumption|].
  assert (Hd : no_nul (digit_char (n mod 10) :: acc)).
  { constructor; [|assumption].
    apply digit_char_not_nul, Z.mod_pos_bound. lia. }
  destruct (n / 10 =? 0); [assumption|]. apply IH, Hd.
Qed.

Lemma itoa_length z : (length (itoa z) <= 11)%nat.
Proof.
  unfold itoa. destruct (z <? 0); cbn [length].
  - pose proof (utoa_length 10 (- z) []). cbn [length] in *. lia.
  - pose proof (utoa_length 10 z []). cbn [length] in *. lia.
Qed.

Lemma itoa_no_nul z : no_nul (itoa z).
Proof.
  unfold itoa. destruct (z <? 0).
  - constructor; [reflexivity|]. apply utoa_no_nul. constructor.
  - apply utoa_no_nul. constructor.
Qed.

Lemma digit_value_char d : 0 <= d < 10 -> digit_value (digit_char d) = d.
Proof.
  intros Hd. unfold digit_value, digit_char.
  rewrite nat_ascii_embedding by lia. lia.
Qed.

Lemma decimal_value_snoc s c :
  decimal_value (s ++ [c]) = 10 * decimal_value s + digit_value c.
Proof. unfold decimal_value. rewrite fold_left_app. reflexivity. Qed.

(** With enough fuel for its digits, [utoa] writes [n] in base ten in
    front of [acc]. *)
Lemma utoa_decimal fuel : forall n acc,
  (0 < fuel)%nat -> 0 <= n < 10 ^ Z.of_nat fuel ->
  exists ds, utoa fuel n acc = ds ++ acc /\ decimal_value ds = n.
Proof.
  induction fuel as [|fuel IH]; intros n acc Hfuel Hn; [lia|].
  cbn [utoa].
  assert (Hd : 0 <= n mod 10 < 10) by (apply Z.mod_pos_bound; lia).
  pose proof (Z.div_mod n 10 ltac:(lia)) as Hdm.
  destruct (Z.eqb_spec (n / 10) 0) as [Hq|Hq].
  - exists [digit_char (n mod 10)]. split; [reflexivity|].
    unfold decimal_value. cbn [fold_left]. rewrite digit_value_char by lia. lia.
  - assert (Hpow : 10 ^ Z.of_nat (S fuel) = 10 * 10 ^ Z.of_nat fuel).
    { rewrite Nat2Z.inj_succ, Z.pow_succ_r by lia. reflexivity. }
    assert (Hq' : 0 <= n / 10 < 10 ^ Z.of_nat fuel).
    { split; [apply Z.div_pos; lia|]. apply Z.div_lt_upper_bound; lia. }
    assert (Hf : (0 < fuel)%nat).
    { destruct fuel; [|lia]. cbn in Hq'. lia. }
    destruct (IH (n / 10) (digit_char (n mod 10) :: acc) Hf Hq')
      as (ds & Heq & Hval).
    exists (ds ++ [digit_char (n mod 10)]). split.
    + rewrite Heq, <- app_assoc. reflexivity.
    + rewrite decimal_value_snoc, Hval, digit_value_char by lia. lia.
Qed.

(** [itoa] is the decimal text of every [int]: an optional minus sign and
    the digits of the magnitude. *)
Lemma itoa_decimal z :
  int_range z ->
  exists ds, decimal_value ds = Z.abs z /\
             itoa z = if z <? 0 then "-"%char :: ds else ds.
Proof.
  unfold int_range, itoa. intros Hz.
  destruct (Z.ltb_spec z 0) as [Hneg|Hpos].
  - destruct (utoa_decimal 10 (- z) [] ltac:(lia) ltac:(lia)) as (ds & Heq & Hval).
    exists ds. rewrite Heq, app_nil_r. split; [lia|reflexivity].
  - destruct (utoa_decimal 10 z [] ltac:(lia) ltac:(lia)) as (ds & Heq & Hval).
    exists ds. rewrite Heq, app_nil_r. split; [lia|reflexivity].
Qed.

Lemma format_response id : format response [AInt id] = Some (http_response id).
Proof. reflexivity. Qed.

Lemma http_response_length id : (length (http_response id) <= 95)%nat.
Proof.
  unfold http_response. repeat rewrite length_app.
  pose proof (itoa_length id). cbn [chars list_ascii_of_string length]. lia.
Qed.

Lemma http_response_no_nul id : no_nul (http_response id).
Proof.
  unfold http_response, no_nul.
  repeat (apply Forall_app; split); try apply itoa_no_nul;
    repeat constructor.
Qed.

Lemma read_data fd buf count avail :
  0 <= count <= len buf ->
  let got := take (Z.to_nat count) avail in
  read fd buf count (ReadData avail)
  = Some (Done (len got, 0, got ++ drop (length got) buf),
          [EvRead fd count (len got)]).
Proof.
  intros Hc got. unfold read.
  replace ((count <? 0) || (len buf <? count)) with false by lia.
  reflexivity.
Qed.

Lemma read_err fd buf count errno :
  0 <= count <= len buf ->
  read fd buf count (ReadErr errno)
  = Some (Done (-1, errno, buf), [EvRead fd count (-1)]).
Proof.
  intros Hc. unfold read.
  replace ((count <? 0) || (len buf <? count)) with false by lia.
  reflexivity.
Qed.

Lemma snprintf_fits buf size fmt args text :
  format fmt args = Some text ->
  0 < size <= len buf -> len text < size ->
  snprintf buf size fmt args = Some (text ++ NUL :: drop (S (length text)) buf).
Proof.
  intros Hf Hs Ht. unfold snprintf. rewrite Hf.
  replace ((size <? 0) || (len buf <? size)) with false by lia.
  replace (size =? 0) with false by lia.
  rewrite take_ge by (unfold len in Ht; lia). reflexivity.
Qed.

Lemma write_prefix fd s rest wo :
  write fd (s ++ rest) (len s) wo = Some (write_result wo, [EvWrite fd s]).
Proof.
  unfold write. rewrite len_app. pose proof (len_nonneg rest). pose proof (len_nonneg s).
  replace ((len s <? 0) || (len s + len rest <? len s)) with false by lia.
  unfold len. rewrite Nat2Z.id, take_app_length. destruct wo; reflexivity.
Qed.

Lemma format_received id buf s :
  cstr buf = Some s ->
  format (chars "Worker %d received: %s") [AInt id; AStr buf]
  = Some (chars "Worker " ++ itoa id ++ chars " received: " ++ s).
Proof.
  intros H. cbn -[itoa]. rewrite H. cbn -[itoa]. rewrite app_nil_r. reflexivity.
Qed.

(** A non-empty read, whatever the kernel does with the [write]. *)
Lemma handle_connection_served junk fd id avail wo :
  avail <> [] ->
  let got := take (Z.to_nat (BUFFER_SIZE - 1)) avail in
  handle_connection junk fd id (ReadData avail) wo
  = Some (write_result wo,
          [EvRead fd (BUFFER_SIZE - 1) (len got);
           EvStdout (chars "Worker " ++ itoa id ++ chars " received: " ++ until_nul got);
           EvWrite fd (http_response id)] ++ after_write fd wo).
Proof.
  intros Hne got. unfold handle_connection.
  unfold sizeof. rewrite !len_alloca by (unfold BUFFER_SIZE; lia).
  rewrite read_data by (rewrite len_alloca; unfold BUFFER_SIZE; lia).
  fold got. cbn [bind].
  assert (Hgot : (0 < length got <= 4095)%nat).
  { unfold got. rewrite length_take. destruct avail; [done|]. cbn [length]. 
    change (Z.to_nat (BUFFER_SIZE - 1)) with 4095%nat. lia. }
  replace (0 <? len got) with true by (unfold len; lia).
  rewrite store_after by (rewrite length_alloca; change (Z.to_nat BUFFER_SIZE) with 4096%nat; lia).
  cbn [lift ret bind].
  unfold printf. rewrite (format_received _ _ _ (cstr_terminated _ _)).
  pose proof (http_response_length id) as Hlen.
  rewrite (snprintf_fits _ _ _ _ _ (format_response id))
    by (rewrite ?len_alloca by lia; unfold len; lia).
  cbn [lift ret bind emit].
  rewrite strlen_terminated by apply http_response_no_nul.
  cbn [lift ret bind]. rewrite write_prefix. destruct wo; reflexivity.
Qed.

Lemma handle_connection_data junk fd id avail :
  avail <> [] ->
  let got := take (Z.to_nat (BUFFER_SIZE - 1)) avail in
  handle_connection junk fd id (ReadData avail) WriteReturns
  = Some (Done tt,
          [EvRead fd (BUFFER_SIZE - 1) (len got);
           EvStdout (chars "Worker " ++ itoa id ++ chars " received: " ++ until_nul got);
           EvWrite fd (http_response id);
           EvClose fd]).
Proof. intros Hne. apply (handle_connection_served junk fd id avail WriteReturns Hne). Qed.

Lemma handle_connection_sigpipe junk fd id avail :
  avail <> [] ->
  let got := take (Z.to_nat (BUFFER_SIZE - 1)) avail in
  handle_connection junk fd id (ReadData avail) WriteSigpipe
  = Some (Killed SIGPIPE,
          [EvRead fd (BUFFER_SIZE - 1) (len got);
           EvStdout (chars "Worker " ++ itoa id ++ chars " received: " ++ until_nul got);
           EvWrite fd (http_response id)]).
Proof. intros Hne. apply (handle_connection_served junk fd id avail WriteSigpipe Hne). Qed.

Lemma handle_connection_eof junk fd id wo :
  handle_connection junk fd id (ReadData []) wo
  = Some (Done tt, [EvRead fd (BUFFER_SIZE - 1) 0;
               EvStdout (chars "Worker " ++ itoa id ++
                         chars ": Client closed connection" ++ [LF])]).
Proof.
  unfold handle_connection, sizeof.
  rewrite !len_alloca by (unfold BUFFER_SIZE; lia).
  rewrite read_data by (rewrite len_alloca; unfold BUFFER_SIZE; lia).
  rewrite take_nil. reflexivity.
Qed.

Lemma handle_connection_err junk fd id errno wo :
  handle_connection junk fd id (ReadErr errno) wo
  = Some (Done tt, EvRead fd (BUFFER_SIZE - 1) (-1) ::
                   if negb (errno =? EAGAIN) && negb (errno =? EWOULDBLOCK)
                   then [EvPerror "read"] else []).
Proof.
  unfold handle_connection, sizeof.
  rewrite !len_alloca by (unfold BUFFER_SIZE; lia).
  rewrite read_err by (rewrite len_alloca; unfold BUFFER_SIZE; lia).
  cbn [bind]. change (0 <? -1) with false. change (-1 =? 0) with false.
  cbv iota. destruct (negb (errno =? EAGAIN) && negb (errno =? EWOULDBLOCK));
    reflexivity.
Qed.

(** ** Traces *)

Lemma registrations_app t1 t2 :
  registrations (t1 ++ t2) = registrations t1 ++ registrations t2.
Proof.
  induction t1 as [|e t1 IH]; [reflexivity|].
  destruct e; cbn [app registrations]; try assumption.
  destruct ((op =? EPOLL_CTL_ADD) && negb (ret0 =? -1)); [|assumption].
  rewrite IH. reflexivity.
Qed.

Lemma assigned_to_app w t1 t2 :
  assigned_to w (t1 ++ t2) = assigned_to w t1 + assigned_to w t2.
Proof.
  unfold assigned_to. rewrite registrations_app, List.filter_app. apply len_app.
Qed.

Lemma assigned_to_quiet w t : registrations t = [] -> assigned_to w t = 0.
Proof. unfold assigned_to. intros ->. reflexivity. Qed.

Lemma bind_Some {A B} (m : M A) (k : A -> M B) b t :
  bind m k = Some (Done b, t) ->
  exists a t1 t2,
    m = Some (Done a, t1) /\ k a = Some (Done b, t2) /\ t = t1 ++ t2.
Proof.
  unfold bind. destruct m as [[[a|signum] t1]|]; [|discriminate|discriminate].
  destruct (k a) as [[b' t2]|] eqn:Hk; [|discriminate].
  intros [= -> <-]. eauto 6.
Qed.

(** ** The connection handler never leaves its arrays *)

Lemma handle_connection_defined junk fd id o wo :
  exists r t, handle_connection junk fd id o wo = Some (r, t)
              /\ registrations t = [].
Proof.
  destruct o as [avail|errno].
  - destruct avail as [|c avail].
    + rewrite handle_connection_eof. eauto.
    + rewrite handle_connection_served by discriminate.
      destruct wo; eauto.
  - rewrite handle_connection_err.
    destruct (negb (errno =? EAGAIN) && negb (errno =? EWOULDBLOCK)); eauto.
Qed.

Lemma printf_disconnected id :
  printf (with_newline "Worker %d: Client disconnected") [AInt id]
  = emit (EvStdout (chars "Worker " ++ itoa id ++
                    chars ": Client disconnected" ++ [LF])).
Proof. reflexivity. Qed.

Lemma worker_event_defined junk w ev :
  exists r t, worker_event junk w ev = Some (r, t) /\ registrations t = [].
Proof.
  destruct ev as [e o]. unfold worker_event.
  destruct (handle_connection_defined junk (data_fd e) (worker_id w)
              (on_read o) (on_write o)) as (rh & th & Hh & Hq).
  assert (Hfirst : exists r1 t1,
             (if negb (Z.land (events e) EPOLLIN =? 0)
              then handle_connection junk (data_fd e) (worker_id w)
                     (on_read o) (on_write o)
              else ret tt) = Some (r1, t1) /\ registrations t1 = []).
  { destruct (negb (Z.land (events e) EPOLLIN =? 0)); [eauto|].
    exists (Done tt), []. split; reflexivity. }
  destruct Hfirst as (r1 & t1 & -> & Hq1). cbn [bind].
  destruct r1 as [[]|signum]; [|eauto].
  destruct (negb (Z.land (events e) (Z.lor EPOLLERR EPOLLHUP) =? 0)).
  - rewrite printf_disconnected. cbn [bind emit close].
    eexists _, _. split; [reflexivity|].
    rewrite registrations_app, Hq1. reflexivity.
  - cbn [ret]. eexists _, _. split; [reflexivity|].
    rewrite registrations_app, Hq1. reflexivity.
Qed.

Lemma for_each_defined {A} (f : A -> M unit) l :
  (forall x, exists r t, f x = Some (r, t) /\ registrations t = []) ->
  exists r t, for_each f l = Some (r, t) /\ registrations t = [].
Proof.
  intros Hf. induction l as [|x l (rl & tl & Hl & Hql)].
  - exists (Done tt), []. split; reflexivity.
  - destruct (Hf x) as (rx & tx & Hx & Hqx). cbn [for_each]. rewrite Hx.
    cbn [bind]. destruct rx as [[]|signum]; [|eauto].
    rewrite Hl. eexists _, _. split; [reflexivity|].
    rewrite registrations_app, Hqx, Hql. reflexivity.
Qed.

Lemma worker_iteration_defined junk w o :
  exists c t ret, worker_iteration junk w o
    = Some (c, EvEpollWait (epoll_fd w) MAX_EVENTS 1000 ret :: t)
    /\ registrations t = [].
Proof.
  destruct o as [ready|errno]; cbn [worker_iteration].
  - destruct (for_each_defined (worker_event junk w)
                (take (Z.to_nat MAX_EVENTS) ready)
                (worker_event_defined junk w)) as (r & t & Ht & Hq).
    rewrite Ht. cbn [bind emit ret]. destruct r as [[]|signum].
    + eexists _, _, _. split; [reflexivity|]. rewrite app_nil_r. assumption.
    + eexists _, _, _. split; [reflexivity|]. assumption.
  - destruct (errno =? EINTR); cbn [bind emit ret perror];
      eexists _, _, _; split; reflexivity.
Qed.

(** ** One turn of the accept loop, case by case *)

Lemma printf_assigned o cw :
  printf (with_newline "New connection from %s:%d assigned to worker %d")
    [AStr (chars (peer_addr o) ++ [NUL]); AInt (peer_port o); AInt cw]
  = emit (EvStdout (assigned_line o cw)).
Proof.
  unfold printf, assigned_line. set (p := chars (peer_addr o)).
  cbn -[itoa cstr]. rewrite cstr_terminated. reflexivity.
Qed.

Lemma accept_iteration_retry s o :
  accept_ret o = -1 -> accept_fatal o = false ->
  accept_iteration s o
  = Some (Done (Next, current_worker s), [EvAccept (server_fd s) (-1)]).
Proof.
  unfold accept_fatal, accept_iteration. intros -> Hf. cbn [Z.eqb andb] in *.
  change (-1 =? -1) with true in *. cbn [andb] in Hf.
  apply negb_false_iff in Hf. rewrite Hf. reflexivity.
Qed.

Lemma accept_iteration_fatal s o :
  accept_fatal o = true ->
  accept_iteration s o
  = Some (Done (Break, current_worker s),
          [EvAccept (server_fd s) (-1); EvPerror "accept"]).
Proof.
  unfold accept_fatal, accept_iteration. intros Hf.
  apply andb_true_iff in Hf as [Hr Hf]. apply Z.eqb_eq in Hr. rewrite Hr.
  change (-1 =? -1) with true. cbn [bind emit].
  apply negb_true_iff in Hf. rewrite Hf. reflexivity.
Qed.

Lemma accept_iteration_getfl_fails s o :
  accept_ret o <> -1 -> fcntl_getfl o = -1 ->
  accept_iteration s o
  = Some (Done (Next, current_worker s),
          [EvAccept (server_fd s) (accept_ret o);
           EvFcntl (accept_ret o) F_GETFL 0 (-1);
           EvPerror "fcntl F_GETFL";
           EvClose (accept_ret o)]).
Proof.
  unfold accept_iteration, make_socket_non_blocking. intros Hr ->.
  apply Z.eqb_neq in Hr. rewrite Hr. reflexivity.
Qed.

Lemma accept_iteration_setfl_fails s o :
  accept_ret o <> -1 -> fcntl_getfl o <> -1 -> fcntl_setfl o = -1 ->
  accept_iteration s o
  = Some (Done (Next, current_worker s),
          [EvAccept (server_fd s) (accept_ret o);
           EvFcntl (accept_ret o) F_GETFL 0 (fcntl_getfl o);
           EvFcntl (accept_ret o) F_SETFL (Z.lor (fcntl_getfl o) O_NONBLOCK) (-1);
           EvPerror "fcntl F_SETFL O_NONBLOCK";
           EvClose (accept_ret o)]).
Proof.
  unfold accept_iteration, make_socket_non_blocking. intros Hr Hg ->.
  apply Z.eqb_neq in Hr, Hg. rewrite Hr. cbn [bind emit]. rewrite Hg.
  reflexivity.
Qed.

Lemma accept_iteration_ctl_fails s o w :
  accept_ret o <> -1 -> fcntl_getfl o <> -1 -> fcntl_setfl o <> -1 ->
  index (workers s) (current_worker s) = Some w ->
  epoll_ctl_ret o = -1 ->
  accept_iteration s o
  = Some (Done (Next, current_worker s),
          [EvAccept (server_fd s) (accept_ret o);
           EvFcntl (accept_ret o) F_GETFL 0 (fcntl_getfl o);
           EvFcntl (accept_ret o) F_SETFL (Z.lor (fcntl_getfl o) O_NONBLOCK)
             (fcntl_setfl o);
           EvEpollCtl (epoll_fd w) EPOLL_CTL_ADD (accept_ret o)
             (Z.lor EPOLLIN EPOLLET) (-1);
           EvPerror "epoll_ctl";
           EvClose (accept_ret o)]).
Proof.
  unfold accept_iteration, make_socket_non_blocking. intros Hr Hg Hs Hw ->.
  apply Z.eqb_neq in Hr, Hg, Hs. rewrite Hr. cbn [bind emit]. rewrite Hg.
  cbn [bind emit]. rewrite Hs. cbn [bind ret]. change (0 =? -1) with false.
  cbv iota. rewrite Hw. reflexivity.
Qed.

Lemma accept_iteration_registers s o w :
  registers o = true ->
  index (workers s) (current_worker s) = Some w ->
  num_workers s <> 0 ->
  accept_iteration s o
  = Some (Done (Next, Z.rem (to_int (current_worker s + 1)) (num_workers s)),
          [EvAccept (server_fd s) (accept_ret o);
           EvFcntl (accept_ret o) F_GETFL 0 (fcntl_getfl o);
           EvFcntl (accept_ret o) F_SETFL (Z.lor (fcntl_getfl o) O_NONBLOCK)
             (fcntl_setfl o);
           EvEpollCtl (epoll_fd w) EPOLL_CTL_ADD (accept_ret o)
             (Z.lor EPOLLIN EPOLLET) (epoll_ctl_ret o);
           EvStdout (assigned_line o (current_worker s))]).
Proof.
  unfold registers, accepted, accept_iteration, make_socket_non_blocking.
  intros Hreg Hw Hn.
  apply andb_true_iff in Hreg as [Hreg Hc].
  apply andb_true_iff in Hreg as [Hreg Hs].
  apply andb_true_iff in Hreg as [Hr Hg].
  apply negb_true_iff in Hr, Hg, Hs, Hc. apply Z.eqb_neq in Hn.
  rewrite Hr. cbn [bind emit]. rewrite Hg. cbn [bind emit]. rewrite Hs.
  cbn [bind ret]. change (0 =? -1) with false. cbv iota. rewrite Hw.
  cbn [lift bind ret emit]. rewrite Hc, printf_assigned. cbn [bind emit].
  rewrite Hn. reflexivity.
Qed.

(** ** The invariant of the process *)

Lemma main_num_workers_range nproc :
  1 <= main_num_workers nproc <= MAX_WORKERS.
Proof.
  unfold main_num_workers, MAX_WORKERS.
  destruct (Z.leb_spec (to_int nproc) 0); cbn [orb]; [lia|].
  destruct (Z.ltb_spec 32 (to_int nproc)); lia.
Qed.

Lemma create_workers_length env n : forall i ws,
  create_workers env n i = inl ws -> length ws = n.
Proof.
  induction n as [|n IH]; intros i ws; cbn [create_workers].
  - intros [= <-]. reflexivity.
  - destruct (epoll_create1_ret env i =? -1); [discriminate|].
    destruct (negb (pthread_create_ret env i =? 0)); [discriminate|].
    destruct (create_workers env n (i + 1)) as [ws'|] eqn:Hrec; [|discriminate].
    intros [= <-]. cbn [length]. f_equal. eapply IH, Hrec.
Qed.

Lemma main_start_inv env : inv (main_start env).
Proof.
  pose proof (main_num_workers_range (sysconf_nproc env)) as Hn.
  unfold main_start, inv.
  destruct (negb (calloc_ok env)); [cbn; repeat split; try lia; discriminate|].
  destruct (listen_fd env) as [sfd|]; [|cbn; repeat split; try lia; discriminate].
  destruct (create_workers env _ 0) as [ws|msg] eqn:Hws;
    [|cbn; repeat split; try lia; discriminate].
  apply create_workers_length in Hws.
  cbn [num_workers current_worker exit_code workers threads].
  repeat split; try lia.
  - unfold len. lia.
  - rewrite repeat_length. lia.
Qed.

Lemma main_start_num_workers env :
  num_workers (main_start env) = main_num_workers (sysconf_nproc env).
Proof.
  unfold main_start. destruct (negb (calloc_ok env)); [reflexivity|].
  destruct (listen_fd env); [|reflexivity].
  destruct (create_workers env _ 0); reflexivity.
Qed.

Lemma index_Some {A} (a : list A) i :
  0 <= i < len a -> exists x, index a i = Some x.
Proof.
  intros Hi. unfold index. replace (0 <=? i) with true by lia.
  apply lookup_lt_is_Some_2. unfold len in Hi. lia.
Qed.

Lemma index_lookup {A} (a : list A) (i : nat) :
  index a (Z.of_nat i) = a !! i.
Proof.
  unfold index. destruct (Z.leb_spec 0 (Z.of_nat i)); [|lia].
  rewrite Nat2Z.id. reflexivity.
Qed.

Lemma cursor_advance c n :
  1 <= n <= MAX_WORKERS -> 0 <= c < n ->
  Z.rem (to_int (c + 1)) n = (c + 1) mod n.
Proof.
  unfold MAX_WORKERS. intros Hn Hc.
  rewrite to_int_id by (unfold int_range; lia).
  apply Z.rem_mod_nonneg; lia.
Qed.

(** What one turn of the accept loop does, in one statement. *)
Lemma accept_iteration_summary s o w :
  1 <= num_workers s <= MAX_WORKERS ->
  0 <= current_worker s < num_workers s ->
  index (workers s) (current_worker s) = Some w ->
  exists t,
    accept_iteration s o
    = Some (Done (if accept_fatal o then Break else Next,
                  if registers o
                  then (current_worker s + 1) mod num_workers s
                  else current_worker s),
            EvAccept (server_fd s) (accept_ret o) :: t)
    /\ registrations t
       = if registers o then [(epoll_fd w, accept_ret o)] else [].
Proof.
  intros Hn Hc Hw.
  destruct (registers o) eqn:Hreg.
  - rewrite (accept_iteration_registers s o w Hreg Hw) by lia.
    rewrite cursor_advance by assumption.
    assert (Hf : accept_fatal o = false).
    { unfold registers, accepted in Hreg. unfold accept_fatal.
      destruct (accept_ret o =? -1); [discriminate|reflexivity]. }
    rewrite Hf. eexists. split; [reflexivity|].
    unfold registers in Hreg. apply andb_true_iff in Hreg as [_ Hctl].
    cbn [registrations]. change (EPOLL_CTL_ADD =? EPOLL_CTL_ADD) with true.
    rewrite Hctl. reflexivity.
  - destruct (Z.eq_dec (accept_ret o) (-1)) as [Hr|Hr].
    + destruct (accept_fatal o) eqn:Hf.
      * rewrite accept_iteration_fatal by assumption. rewrite Hr. eauto.
      * rewrite accept_iteration_retry by assumption. rewrite Hr. eauto.
    + assert (Hf : accept_fatal o = false).
      { unfold accept_fatal. apply Z.eqb_neq in Hr. rewrite Hr. reflexivity. }
      rewrite Hf.
      destruct (Z.eq_dec (fcntl_getfl o) (-1)) as [Hg|Hg].
      { rewrite accept_iteration_getfl_fails by assumption. eauto. }
      destruct (Z.eq_dec (fcntl_setfl o) (-1)) as [Hs|Hs].
      { rewrite accept_iteration_setfl_fails by assumption. eauto. }
      destruct (Z.eq_dec (epoll_ctl_ret o) (-1)) as [Hctl|Hctl].
      { rewrite (accept_iteration_ctl_fails s o w) by assumption. eauto. }
      exfalso. unfold registers, accepted in Hreg.
      apply Z.eqb_neq in Hr, Hg, Hs, Hctl.
      rewrite Hr, Hg, Hs, Hctl in Hreg. discriminate.
Qed.

Lemma join_workers_defined ws n : forall i,
  0 <= i -> i + Z.of_nat n <= len ws ->
  exists t, join_workers ws n i = Some (Done tt, t) /\ registrations t = [].
Proof.
  induction n as [|n IH]; intros i Hi Hle; cbn [join_workers].
  - exists []. split; reflexivity.
  - destruct (index_Some ws i ltac:(lia)) as [w ->].
    destruct (IH (i + 1) ltac:(lia) ltac:(lia)) as (t & -> & Hq).
    cbn [lift ret bind emit close]. eexists. split; [reflexivity|].
    cbn [app registrations]. assumption.
Qed.

Lemma signal_handler_eq signum s :
  signal_handler signum s
  = Some (add_log [EvClose (server_fd s)]
            (set_running false
               (add_log [EvStdout (LF :: chars "Received signal " ++
                                   itoa signum ++
                                   chars ", shutting down..." ++ [LF])] s))).
Proof. reflexivity. Qed.

Lemma leave_accept_loop_eq s :
  leave_accept_loop s
  = Some (set_acceptor Returned
            (add_log [EvStdout (chars "Shutting down server..." ++ [LF])] s)).
Proof. reflexivity. Qed.

(** ** Steps of the process *)

Lemma add_log_nil s : add_log [] s = s.
Proof. destruct s. unfold add_log. cbn. rewrite app_nil_r. reflexivity. Qed.

Lemma inv_index s :
  inv s -> exit_code s = None ->
  exists w, index (workers s) (current_worker s) = Some w.
Proof.
  intros (Hn & Hc & Hlive) Hex. destruct (Hlive Hex) as [Hlen _].
  apply index_Some. lia.
Qed.

(** A turn of the accept loop in a live process whose flag is set. *)
Lemma accept_step_live junk s o w :
  inv s -> exit_code s = None -> acceptor s = Looping -> running s = true ->
  index (workers s) (current_worker s) = Some w ->
  exists t,
    registrations t = (if registers o then [(epoll_fd w, accept_ret o)] else [])
    /\ step junk s (AcceptStep o)
       = if accept_fatal o
         then Some (set_acceptor Returned
                      (add_log [EvStdout (chars "Shutting down server..." ++ [LF])]
                         (set_current_worker (current_worker s)
                            (add_log (EvAccept (server_fd s) (accept_ret o) :: t) s))))
         else Some (set_current_worker
                      (if registers o
                       then (current_worker s + 1) mod num_workers s
                       else current_worker s)
                      (add_log (EvAccept (server_fd s) (accept_ret o) :: t) s)).
Proof.
  intros (Hn & Hc & _) Hex Hacc Hrun Hw.
  destruct (accept_iteration_summary s o w Hn Hc Hw) as (t & Hit & Hreg).
  exists t. split; [assumption|].
  unfold step, accept_step. rewrite Hex, Hacc, Hrun, Hit. cbn [exec fst snd].
  destruct (accept_fatal o) eqn:Hf; [|reflexivity].
  rewrite leave_accept_loop_eq.
  assert (Hr : registers o = false).
  { unfold accept_fatal in Hf. unfold registers, accepted.
    destruct (accept_ret o =? -1); [reflexivity|discriminate]. }
  rewrite Hr. reflexivity.
Qed.

Lemma set_exit_code_id s : set_exit_code (exit_code s) s = s.
Proof. destruct s. reflexivity. Qed.

(** A turn of a worker's loop: only that worker's status and the log can
    change, unless a signal ends the process in it; nothing is
    registered. *)
Lemma worker_step_effect junk s i o :
  exists ts t ec,
    step junk s (WorkerStep i o)
    = Some (set_exit_code ec (set_threads ts (add_log t s)))
    /\ registrations t = []
    /\ length ts = length (threads s)
    /\ (forall j, j <> i -> ts !! j = threads s !! j)
    /\ (ec = exit_code s
        \/ (exit_code s = None /\ exists signum, ec = Some (Signaled signum))).
Proof.
  assert (Hsame : forall ts t,
             set_exit_code (exit_code s) (set_threads ts (add_log t s))
             = set_threads ts (add_log t s)).
  { intros ts t. apply (set_exit_code_id (set_threads ts (add_log t s))). }
  assert (Hstay : exists ts t ec,
             Some s = Some (set_exit_code ec (set_threads ts (add_log t s)))
             /\ registrations t = []
             /\ length ts = length (threads s)
             /\ (forall j, j <> i -> ts !! j = threads s !! j)
             /\ (ec = exit_code s
                 \/ (exit_code s = None
                     /\ exists signum, ec = Some (Signaled signum)))).
  { exists (threads s), [], (exit_code s). rewrite add_log_nil.
    split; [destruct s; reflexivity|]. repeat split. auto. }
  assert (Hret : forall t, registrations t = [] -> exists ts t' ec,
             Some (set_threads (<[i := Returned]> (threads s)) (add_log t s))
             = Some (set_exit_code ec (set_threads ts (add_log t' s)))
             /\ registrations t' = []
             /\ length ts = length (threads s)
             /\ (forall j, j <> i -> ts !! j = threads s !! j)
             /\ (ec = exit_code s
                 \/ (exit_code s = None
                     /\ exists signum, ec = Some (Signaled signum)))).
  { intros t Ht. exists (<[i := Returned]> (threads s)), t, (exit_code s).
    rewrite Hsame. split; [reflexivity|]. split; [assumption|].
    split; [apply length_insert|]. split; [|auto].
    intros j Hj. apply list_lookup_insert_ne. congruence. }
  unfold step, worker_step. destruct (exit_code s) eqn:Hex; [exact Hstay|].
  destruct (threads s !! i) as [[|]|]; try exact Hstay.
  destruct (workers s !! i) as [w|]; [|exact Hstay].
  destruct (running s).
  - destruct (worker_iteration_defined junk w o) as (c & t & r & -> & Hq).
    cbn [exec]. destruct c as [[|]|signum].
    + exists (threads s), (EvEpollWait (epoll_fd w) MAX_EVENTS 1000 r :: t), None.
      split; [destruct s; cbn in *; subst; reflexivity|]. split; [exact Hq|].
      repeat split. auto.
    + apply (Hret (EvEpollWait (epoll_fd w) MAX_EVENTS 1000 r :: t)). assumption.
    + exists (threads s), (EvEpollWait (epoll_fd w) MAX_EVENTS 1000 r :: t),
        (Some (Signaled signum)).
      split; [destruct s; reflexivity|]. split; [exact Hq|].
      repeat split. right. eauto.
  - destruct (Hret [] eq_refl) as (ts & t' & ec & Heq & Hrest).
    rewrite add_log_nil in Heq. eauto.
Qed.

(** Every step of the process is defined, and what it can change. *)
Lemma step_effect junk s a :
  inv s ->
  exists s' t,
    step junk s a = Some s'
    /\ log s' = log s ++ t
    /\ same_pool s s'
    /\ (exit_code s' = None -> exit_code s = None)
    /\ ((registrations t = [] /\ current_worker s' = current_worker s)
        \/ (exists o w,
              a = AcceptStep o /\ registers o = true
              /\ exit_code s = None
              /\ index (workers s) (current_worker s) = Some w
              /\ registrations t = [(epoll_fd w, accept_ret o)]
              /\ current_worker s'
                 = (current_worker s + 1) mod num_workers s))
    /\ (running s' = running s
        \/ (exists signum, a = Signal signum /\ running s' = false)).
Proof.
  intros Hinv.
  assert (Hstay : exists s' t,
             Some s = Some s' /\ log s' = log s ++ t /\ same_pool s s'
             /\ (exit_code s' = None -> exit_code s = None)
             /\ ((registrations t = [] /\ current_worker s' = current_worker s)
                 \/ (exists o w,
                       a = AcceptStep o /\ registers o = true
                       /\ exit_code s = None
                       /\ index (workers s) (current_worker s) = Some w
                       /\ registrations t = [(epoll_fd w, accept_ret o)]
                       /\ current_worker s'
                          = (current_worker s + 1) mod num_workers s))
             /\ (running s' = running s
                 \/ (exists signum, a = Signal signum /\ running s' = false))).
  { exists s, []. rewrite app_nil_r. unfold same_pool. tauto. }
  destruct (exit_code s) as [c|] eqn:Hex.
  { unfold step. rewrite Hex. exact Hstay. }
  destruct a as [signum|o|i o|].
  - unfold step. rewrite Hex, signal_handler_eq. eexists _, _.
    split; [reflexivity|]. cbn [log add_log set_running]. rewrite <- app_assoc.
    split; [reflexivity|]. unfold same_pool. cbn.
    split; [repeat split|]. split; [reflexivity|].
    split; [left; split; reflexivity|right; eauto].
  - destruct (acceptor s) eqn:Hacc;
      [|unfold step, accept_step; rewrite Hex, Hacc; exact Hstay].
    destruct (running s) eqn:Hrun.
    + destruct (inv_index s Hinv Hex) as [w Hw].
      destruct (accept_step_live junk s o w Hinv Hex Hacc Hrun Hw)
        as (t & Hreg & ->).
      destruct (accept_fatal o) eqn:Hf.
      * assert (Hr : registers o = false).
        { unfold accept_fatal in Hf. unfold registers, accepted.
          destruct (accept_ret o =? -1); [reflexivity|discriminate]. }
        rewrite Hr in Hreg. eexists _, _. split; [reflexivity|].
        cbn [log add_log set_acceptor set_current_worker]. rewrite <- app_assoc.
        split; [reflexivity|]. unfold same_pool. cbn.
        rewrite registrations_app, Hreg. cbn. tauto.
      * eexists _, _. split; [reflexivity|].
        cbn [log add_log set_current_worker].
        split; [reflexivity|]. unfold same_pool. cbn - [registrations Z.modulo].
        repeat split; try tauto.
        destruct (registers o) eqn:Hr; [right|left; tauto].
        exists o, w. tauto.
    + unfold step, accept_step. rewrite Hex, Hacc, Hrun, leave_accept_loop_eq.
      eexists _, _. split; [reflexivity|]. cbn [log add_log set_acceptor].
      split; [reflexivity|]. unfold same_pool. cbn. tauto.
  - destruct (worker_step_effect junk s i o)
      as (ts & t & ec & -> & Hq & Hlen & _).
    eexists _, _. split; [reflexivity|].
    cbn [log add_log set_threads set_exit_code].
    split; [reflexivity|]. unfold same_pool. cbn - [registrations]. tauto.
  - unfold step, shutdown. rewrite Hex.
    destruct (acceptor s); [exact Hstay|].
    destruct (forallb is_returned (threads s)); [|exact Hstay].
    destruct Hinv as (Hn & Hc & Hlive). destruct (Hlive Hex) as [Hlen _].
    destruct (join_workers_defined (workers s) (Z.to_nat (num_workers s)) 0
                ltac:(lia) ltac:(lia)) as (t & Ht & Hq).
    rewrite Ht. cbn [bind emit printf lift format chars with_newline
                     list_ascii_of_string exec].
    eexists _, _. split; [reflexivity|]. cbn [log add_log set_exit_code].
    split; [reflexivity|]. unfold same_pool. cbn - [registrations].
    rewrite registrations_app, Hq. cbn. split; [tauto|].
    split; [discriminate|]. tauto.
Qed.

Lemma step_inv junk s a s' : inv s -> step junk s a = Some s' -> inv s'.
Proof.
  intros Hinv Hstep.
  destruct (step_effect junk s a Hinv)
    as (s1 & t & Hs1 & _ & (Hw & Hn & _ & Hth) & Hex & Hcur & _).
  rewrite Hstep in Hs1. injection Hs1 as <-.
  destruct Hinv as (HN & Hc & Hlive). unfold inv. rewrite Hn, Hw, Hth.
  split; [assumption|]. split; [|auto].
  destruct Hcur as [[_ ->]|(o & w & _ & _ & _ & _ & _ & ->)]; [assumption|].
  apply Z.mod_pos_bound. lia.
Qed.

Lemma run_defined junk acts : forall s,
  inv s -> exists s', run junk s acts = Some s' /\ inv s'.
Proof.
  induction acts as [|a acts IH]; intros s Hinv; cbn [run]; [eauto|].
  destruct (step_effect junk s a Hinv) as (s1 & t & Hs1 & _).
  rewrite Hs1. apply IH. eapply step_inv; eassumption.
Qed.

Lemma run_inv junk acts s s' : inv s -> run junk s acts = Some s' -> inv s'.
Proof.
  intros Hinv Hrun. destruct (run_defined junk acts s Hinv) as (s1 & Hs1 & Hinv1).
  congruence.
Qed.

Lemma run_app junk acts1 acts2 s :
  run junk s (acts1 ++ acts2)
  = match run junk s acts1 with
    | Some s1 => run junk s1 acts2
    | None => None
    end.
Proof.
  revert s. induction acts1 as [|a acts1 IH]; intros s; [reflexivity|].
  cbn [app run]. destruct (step junk s a); [apply IH|reflexivity].
Qed.

Lemma run_num_workers junk acts : forall s s',
  inv s -> run junk s acts = Some s' -> num_workers s' = num_workers s.
Proof.
  induction acts as [|a acts IH]; intros s s' Hinv; cbn [run].
  - intros [= <-]. reflexivity.
  - destruct (step_effect junk s a Hinv)
      as (s1 & t & Hs1 & _ & (_ & Hn & _) & _).
    rewrite Hs1. intros Hrun. rewrite <- Hn.
    apply (IH s1 s'); [eapply step_inv; eassumption|assumption].
Qed.

(** The flag is only ever cleared. *)
Lemma step_running junk s a s' :
  inv s -> step junk s a = Some s' ->
  running s' = running s \/ (exists signum, a = Signal signum /\ running s' = false).
Proof.
  intros Hinv Hstep.
  destruct (step_effect junk s a Hinv) as (s1 & t & Hs1 & _ & _ & _ & _ & Hr).
  rewrite Hstep in Hs1. injection Hs1 as <-. exact Hr.
Qed.

Lemma run_running_false junk acts : forall s s',
  inv s -> run junk s acts = Some s' -> running s = false -> running s' = false.
Proof.
  induction acts as [|a acts IH]; intros s s' Hinv; cbn [run].
  - intros [= <-]. auto.
  - destruct (step junk s a) as [s1|] eqn:Hs1; [|discriminate].
    intros Hrun Hf. apply (IH s1 s'); [eapply step_inv; eassumption|assumption|].
    destruct (step_running junk s a s1 Hinv Hs1) as [->|(_ & _ & ->)];
      [assumption|reflexivity].
Qed.

(** ** Round-robin arithmetic *)

Lemma mod_cases x n :
  0 < n -> - n <= x < n -> x mod n = if x <? 0 then x + n else x.
Proof.
  intros Hn Hx. destruct (Z.ltb_spec x 0).
  - symmetry. apply (Z.mod_unique x n (-1)); lia.
  - apply Z.mod_small. lia.
Qed.

Lemma div_mod_succ n k :
  0 < n -> 0 <= k ->
  ((k + 1) / n = k / n /\ (k + 1) mod n = k mod n + 1 /\ k mod n + 1 < n)
  \/ ((k + 1) / n = k / n + 1 /\ (k + 1) mod n = 0 /\ k mod n = n - 1).
Proof.
  intros Hn Hk.
  pose proof (Z.div_mod k n ltac:(lia)) as Hdm.
  pose proof (Z.mod_pos_bound k n Hn) as Hr.
  destruct (Z_lt_dec (k mod n + 1) n) as [Hlt|Hge].
  - left. split; [|split; [|assumption]].
    + symmetry. apply (Z.div_unique (k + 1) n (k / n) (k mod n + 1)); lia.
    + symmetry. apply (Z.mod_unique (k + 1) n (k / n) (k mod n + 1)); lia.
  - right. assert (Hr' : k mod n = n - 1) by lia. split; [|split; [|assumption]].
    + symmetry. apply (Z.div_unique (k + 1) n (k / n + 1) 0); lia.
    + symmetry. apply (Z.mod_unique (k + 1) n (k / n + 1) 0); lia.
Qed.

Lemma share_zero n c i : 0 < n -> share n 0 c i = 0.
Proof.
  intros Hn. unfold share. rewrite Z.div_0_l, Z.mod_0_l by lia.
  pose proof (Z.mod_pos_bound (i - c) n Hn).
  destruct (Z.ltb_spec ((i - c) mod n) 0); lia.
Qed.

Lemma share_step n k c i :
  0 < n -> 0 <= k -> 0 <= c < n -> 0 <= i < n ->
  (if i =? c then 1 else 0) + share n k ((c + 1) mod n) i
  = share n (k + 1) c i.
Proof.
  intros Hn Hk Hc Hi. unfold share.
  pose proof (Z.mod_pos_bound k n Hn) as Hr.
  assert (Hc1 : (c + 1) mod n = if c + 1 <? n then c + 1 else 0).
  { destruct (Z.ltb_spec (c + 1) n); [apply Z.mod_small; lia|].
    replace (c + 1) with n by lia. apply Z.mod_same. lia. }
  rewrite Hc1. rewrite (mod_cases (i - c) n) by lia.
  destruct (div_mod_succ n k Hn Hk) as [(-> & -> & Hlt)|(-> & -> & Hlast)];
    destruct (Z.ltb_spec (c + 1) n);
    rewrite (mod_cases (i - _) n) by lia;
    repeat match goal with
           | |- context [?a <? ?b] => destruct (Z.ltb_spec a b)
           | |- context [?a =? ?b] => destruct (Z.eqb_spec a b)
           | H : context [?a <? ?b] |- _ => destruct (Z.ltb_spec a b)
           end; lia.
Qed.

Lemma share_floor_ceil n k c i :
  0 < n -> 0 <= k ->
  share n k c i = k / n \/ share n k c i = (k + n - 1) / n.
Proof.
  intros Hn Hk. unfold share.
  pose proof (Z.mod_pos_bound k n Hn) as Hr.
  pose proof (Z.mod_pos_bound (i - c) n Hn) as Hd.
  pose proof (Z.div_mod k n ltac:(lia)) as Hdm.
  destruct (Z.ltb_spec ((i - c) mod n) (k mod n)); [right|left; lia].
  apply (Z.div_unique (k + n - 1) n (k / n + 1) (k mod n - 1)); lia.
Qed.

(** ** Round robin over a run *)

Lemma assigned_one (ws : list worker_t) w wc (i : nat) c fd :
  NoDup (epoll_fd <$> ws) ->
  ws !! i = Some w -> index ws c = Some wc ->
  len (List.filter (fun p : Z * Z => fst p =? epoll_fd w) [(epoll_fd wc, fd)])
  = if Z.of_nat i =? c then 1 else 0.
Proof.
  intros Hnd Hw Hwc. unfold index in Hwc.
  destruct (Z.leb_spec 0 c) as [Hc|]; [|discriminate].
  cbn [List.filter fst].
  destruct (Z.eqb_spec (Z.of_nat i) c) as [Heq|Hne].
  - subst c. rewrite Nat2Z.id in Hwc. assert (wc = w) as -> by congruence.
    rewrite Z.eqb_refl. reflexivity.
  - destruct (Z.eqb_spec (epoll_fd wc) (epoll_fd w)) as [Hfd|]; [|reflexivity].
    exfalso. apply Hne.
    assert (Hi : (epoll_fd <$> ws) !! i = Some (epoll_fd w))
      by (rewrite list_lookup_fmap, Hw; reflexivity).
    assert (Hj : (epoll_fd <$> ws) !! Z.to_nat c = Some (epoll_fd w))
      by (rewrite list_lookup_fmap, Hwc; cbn; congruence).
    pose proof (NoDup_lookup _ _ _ _ Hnd Hi Hj). lia.
Qed.

(** Over any run of the process, the connections registered are dealt to
    the workers in turn, starting at the cursor. *)
Lemma run_shares junk acts : forall s s',
  inv s -> NoDup (epoll_fd <$> workers s) ->
  run junk s acts = Some s' ->
  exists t,
    log s' = log s ++ t
    /\ current_worker s'
       = (current_worker s + len (registrations t)) mod num_workers s
    /\ forall (i : nat) w,
         workers s !! i = Some w ->
         assigned_to w t
         = share (num_workers s) (len (registrations t)) (current_worker s)
             (Z.of_nat i).
Proof.
  induction acts as [|a acts IH]; intros s s' Hinv Hnd; cbn [run].
  - intros [= <-]. exists []. rewrite app_nil_r.
    destruct Hinv as (Hn & Hc & _). cbn [registrations].
    change (len (@nil (Z * Z))) with 0. rewrite Z.add_0_r.
    split; [reflexivity|]. split; [rewrite Z.mod_small; lia|].
    intros i w _. rewrite share_zero by lia. reflexivity.
  - destruct (step_effect junk s a Hinv)
      as (s1 & t1 & Hs1 & Hlog1 & (Hw & Hn & _ & _) & _ & Hcur & _).
    rewrite Hs1. intros Hrun.
    assert (Hinv1 : inv s1) by (eapply step_inv; eassumption).
    rewrite <- Hw in Hnd.
    destruct (IH s1 s' Hinv1 Hnd Hrun) as (t2 & Hlog2 & Hcur2 & Hshare2).
    rewrite Hw, Hn in *.
    exists (t1 ++ t2). rewrite Hlog2, Hlog1, <- app_assoc.
    split; [reflexivity|]. rewrite registrations_app, len_app.
    destruct Hinv as (HN & Hc & Hlive).
    destruct Hcur as [[Hq Hc1]|(o & w1 & _ & _ & Hex & Hw1 & Hreg & Hc1)].
    + rewrite Hq, Hc1 in *. change (len (@nil (Z * Z))) with 0.
      rewrite Z.add_0_l. split; [assumption|].
      intros i w Hi. rewrite assigned_to_app, (assigned_to_quiet w t1 Hq).
      rewrite (Hshare2 i w Hi). reflexivity.
    + rewrite Hreg, Hc1 in *. change (len [(epoll_fd w1, accept_ret o)]) with 1.
      split.
      * rewrite Hcur2, Z.add_mod_idemp_l by lia. f_equal. lia.
      * intros i w Hi. rewrite assigned_to_app, (Hshare2 i w Hi).
        unfold assigned_to at 1. rewrite Hreg.
        rewrite (assigned_one (workers s) w w1 i (current_worker s)
                   (accept_ret o) Hnd Hi Hw1).
        destruct (Hlive Hex) as [Hlen _].
        apply lookup_lt_Some in Hi. unfold len in Hlen.
        rewrite (Z.add_comm 1).
        apply share_step; try lia. apply len_nonneg.
Qed.

(** ** A concrete process, for examples *)

Example http_response_3 :
  http_response 3
  = chars "HTTP/1.1 200 OK" ++ [CR; LF] ++
    chars "Content-Type: text/plain" ++ [CR; LF] ++
    chars "Connection: close" ++ [CR; LF] ++ [CR; LF] ++
    chars "Hello from worker 3!" ++ [LF].
Proof. reflexivity. Qed.

(** ** Turns of the loops, runs, and the demo process *)

Example worker_thread_retries_then_returns :
  worker_thread stale (mk_worker 5 1)
    [(true, WaitErr EINTR); (true, WaitErr 9); (true, WaitReady [])]
  = Some (Done Returned,
          [EvStdout (chars "Worker 1 started" ++ [LF]);
           EvEpollWait 5 MAX_EVENTS 1000 (-1);
           EvEpollWait 5 MAX_EVENTS 1000 (-1);
           EvPerror "epoll_wait"]).
Proof. reflexivity. Qed.

(** A response written to a connection the peer has reset: the process is
    terminated in the write, with the socket open and the other workers in
    their loops. *)
Example sigpipe_ends_process :
  let reset := mk_served (ReadData (chars "GET /")) WriteSigpipe 0 in
  let ready := [(mk_epoll_event (Z.lor EPOLLIN EPOLLHUP) 9, reset)] in
  (fun s' => (exit_code s', threads s', closed (log s')))
    <$> step stale demo_server (WorkerStep 2 (WaitReady ready))
  = Some (Some (Signaled SIGPIPE), [Looping; Looping; Looping; Looping], []).
Proof. vm_compute. reflexivity. Qed.

(** The same event when the write returns: the handler closes the socket
    and the loop closes the descriptor number again. *)
Example hung_connection_closed_twice :
  let served := mk_served (ReadData (chars "GET /")) WriteReturns (-1) in
  let ready := [(mk_epoll_event (Z.lor EPOLLIN EPOLLHUP) 9, served)] in
  (fun s' => (exit_code s', closed (log s')))
    <$> step stale demo_server (WorkerStep 2 (WaitReady ready))
  = Some (None, [9; 9]).
Proof. vm_compute. reflexivity. Qed.

Ltac in_trace :=
  intros;
  match goal with
  | Hin : In _ _ |- _ =>
      cbn [In] in Hin;
      repeat (destruct Hin as [Hin|Hin]; try discriminate Hin);
      try contradiction; injection Hin; intros; subst
  end.

(** A looping worker of a live process whose flag is set calls
    [epoll_wait] on its own multiplexer at its next turn. *)
Lemma worker_step_waits junk s i w o :
  exit_code s = None -> running s = true ->
  threads s !! i = Some Looping -> workers s !! i = Some w ->
  exists s' r t,
    step junk s (WorkerStep i o) = Some s'
    /\ log s' = log s ++ EvEpollWait (epoll_fd w) MAX_EVENTS 1000 r :: t.
Proof.
  intros Hex Hrun Hth Hw. unfold step, worker_step.
  rewrite Hex, Hth, Hw, Hrun.
  destruct (worker_iteration_defined junk w o) as (c & t & r & -> & _).
  cbn [exec]. destruct c as [[|]|signum]; eexists _, r, t; split; reflexivity.
Qed.

(** The main thread of a live process, in its loop with the flag set, calls
    [accept] on the listening socket at its next turn. *)
Lemma accept_step_accepts junk s o :
  inv s -> exit_code s = None -> acceptor s = Looping -> running s = true ->
  exists s' t,
    step junk s (AcceptStep o) = Some s'
    /\ log s' = log s ++ EvAccept (server_fd s) (accept_ret o) :: t.
Proof.
  intros Hinv Hex Hacc Hrun.
  destruct (inv_index s Hinv Hex) as [w Hw].
  destruct (accept_step_live junk s o w Hinv Hex Hacc Hrun Hw) as (t & _ & ->).
  destruct (accept_fatal o); eexists _, _; (split; [reflexivity|]);
    cbn [log add_log set_acceptor set_current_worker].
  - rewrite <- app_assoc. reflexivity.
  - reflexivity.
Qed.

Lemma flips_cleared junk acts : forall s,
  inv s -> running s = false -> flips junk s acts = 0%nat.
Proof.
  induction acts as [|a acts IH]; intros s Hinv Hf; cbn [flips]; [reflexivity|].
  destruct (step junk s a) as [s1|] eqn:Hs1; [|reflexivity].
  assert (Hf1 : running s1 = false).
  { destruct (step_running junk s a s1 Hinv Hs1) as [->|(_ & _ & ->)];
      [assumption|reflexivity]. }
  rewrite Hf, Hf1, IH by (try eapply step_inv; eassumption). reflexivity.
Qed.

(** Along a run the flag changes value once when it goes from true to
    false, and not at all otherwise. *)
Lemma flips_exact junk acts : forall s s',
  inv s -> run junk s acts = Some s' ->
  flips junk s acts = if running s && negb (running s') then 1%nat else 0%nat.
Proof.
  induction acts as [|a acts IH]; intros s s' Hinv; cbn [run flips].
  - intros [= <-]. destruct (running s); reflexivity.
  - destruct (step junk s a) as [s1|] eqn:Hs1; [|discriminate].
    intros Hrun.
    assert (Hinv1 : inv s1) by (eapply step_inv; eassumption).
    destruct (step_running junk s a s1 Hinv Hs1) as [Heq|(_ & _ & Hf1)].
    + rewrite <- Heq, Bool.eqb_reflx. cbn [Nat.add]. apply IH; assumption.
    + rewrite (flips_cleared junk acts s1 Hinv1 Hf1), Hf1.
      rewrite (run_running_false junk acts s1 s' Hinv1 Hrun Hf1).
      destruct (running s); reflexivity.
Qed.

(** A run of accepted connections from a live process: the connections
    registered are those that [registers] says. *)
Lemma run_accepts junk os : forall s,
  inv s -> exit_code s = None -> acceptor s = Looping -> running s = true ->
  Forall (fun o => accepted o = true) os ->
  exists s' t,
    run junk s (AcceptStep <$> os) = Some s'
    /\ log s' = log s ++ t
    /\ len (registrations t) = len (List.filter registers os).
Proof.
  induction os as [|o os IH]; intros s Hinv Hex Hacc Hrun Hall.
  - exists s, []. rewrite app_nil_r. repeat split.
  - inversion Hall as [|? ? Ho Hall']; subst.
    destruct (inv_index s Hinv Hex) as [w Hw].
    destruct (accept_step_live junk s o w Hinv Hex Hacc Hrun Hw)
      as (t1 & Hreg & Hstep).
    assert (Hf : accept_fatal o = false).
    { unfold accepted in Ho. unfold accept_fatal.
      destruct (accept_ret o =? -1); [discriminate|reflexivity]. }
    rewrite Hf in Hstep. cbn [fmap list_fmap run]. rewrite Hstep.
    match type of Hstep with _ = Some ?x => set (s1 := x) in * end.
    assert (Hinv1 : inv s1) by (eapply step_inv; eassumption).
    destruct (IH s1 Hinv1 Hex Hacc Hrun Hall') as (s' & t2 & Hrun2 & Hlog2 & Hcount).
    exists s', ((EvAccept (server_fd s) (accept_ret o) :: t1) ++ t2).
    split; [exact Hrun2|]. split.
    + rewrite Hlog2. unfold s1. cbn [log set_current_worker add_log].
      rewrite <- app_assoc. reflexivity.
    + rewrite registrations_app, len_app. cbn [registrations List.filter].
      rewrite Hreg, Hcount. destruct (registers o); unfold len; cbn [length]; lia.
Qed.

Lemma demo_server_NoDup : NoDup (epoll_fd <$> workers demo_server).
Proof. apply (bool_decide_unpack _). vm_compute. exact I. Defined.

Example deal_five :
  let o := mk_accept_outcome 9 0 "127.0.0.1" 50000 2 0 0 in
  (fun s' => (fun w => assigned_to w (log s')) <$> workers s')
    <$> run stale demo_server (AcceptStep <$> [o; o; o; o; o])
  = Some [2; 1; 1; 1].
Proof. vm_compute. reflexivity. Qed.

(** * Properties of the specification *)

(** C1, as the code has it.  When the handler's read returns more than
    zero bytes (the socket has data queued), the handler issues exactly:
    the read, the log line and one write of the fixed response (status
    line, the two headers, a blank line, the newline-terminated body naming
    the worker).  When that write returns, the handler then closes the
    connection's socket and returns.  When the write raises SIGPIPE, the
    process is terminated inside the write: the handler does not return and
    the socket is not closed.  The event loop calls the handler with the
    identifier of its own worker. *)
Theorem handle_connection_replies junk fd id avail wo :
  avail <> [] ->
  let got := take (Z.to_nat (BUFFER_SIZE - 1)) avail in
  let reply :=
    [EvRead fd (BUFFER_SIZE - 1) (len got);
     EvStdout (chars "Worker " ++ itoa id ++
               chars " received: " ++ until_nul got);
     EvWrite fd (http_response id)] in
  let served :=
    match wo with
    | WriteReturns => Some (Done tt, reply ++ [EvClose fd])
    | WriteSigpipe => Some (Killed SIGPIPE, reply)
    end in
  0 < len got
  /\ handle_connection junk fd id (ReadData avail) wo = served
  /\ forall w del, worker_id w = id ->
       worker_event junk w
         (mk_epoll_event EPOLLIN fd, mk_served (ReadData avail) wo del)
       = served.
Proof.
  intros Hne got reply served. split; [|split].
  - destruct avail as [|c avail]; [contradiction|].
    unfold got, len. change (Z.to_nat (BUFFER_SIZE - 1)) with 4095%nat.
    cbn [take length]. lia.
  - rewrite handle_connection_served by assumption.
    subst served. destruct wo; reflexivity.
  - intros w del <-. unfold worker_event.
    cbn [events data_fd on_read on_write on_del].
    change (negb (Z.land EPOLLIN EPOLLIN =? 0)) with true.
    change (negb (Z.land EPOLLIN (Z.lor EPOLLERR EPOLLHUP) =? 0)) with false.
    cbv iota. rewrite handle_connection_served by assumption.
    subst served. destruct wo; reflexivity.
Qed.

Lemma handle_connection_replies_witness :
  chars "GET /" <> [] /\
  handle_connection stale 7 3 (ReadData (chars "GET /")) WriteReturns
  = Some (Done tt, [EvRead 7 4095 5;
                    EvStdout (chars "Worker 3 received: GET /");
                    EvWrite 7 (http_response 3);
                    EvClose 7]).
Proof.
  split; [discriminate|].
  apply (handle_connection_replies stale 7 3 (chars "GET /") WriteReturns).
  discriminate.
Defined.

(** C1 as the spec states it fails: the read returns five bytes, the
    response is written to a connection the peer has reset, and the socket
    is never closed, because SIGPIPE ends the process in the write. *)
Lemma reset_connection_not_closed :
  let avail := chars "GET /" in
  0 < len (take (Z.to_nat (BUFFER_SIZE - 1)) avail)
  /\ exists t,
       handle_connection stale 7 3 (ReadData avail) WriteSigpipe
       = Some (Killed SIGPIPE, t)
       /\ written t = [http_response 3]
       /\ closed t = []
       /\ ~ In (EvClose 7) t.
Proof.
  intros avail. split; [reflexivity|].
  rewrite handle_connection_sigpipe by discriminate.
  eexists. split; [reflexivity|]. split; [reflexivity|].
  split; [reflexivity|].
  intros [H|[H|[H|[]]]]; discriminate H.
Qed.

(** C2, as the code has it.  Only a turn of the accept loop changes the
    cursor, and only one that registers the connection it accepted.  For an
    accepted connection the cursor advances by one modulo the pool size
    when the connection is switched to non-blocking mode and registered,
    and is unchanged when the connection is dropped.  In every state the
    process reaches from start-up the cursor is in [0, N), N the pool
    size. *)
Theorem cursor_round_robin junk :
  (forall s a s', inv s -> step junk s a = Some s' ->
     current_worker s' <> current_worker s ->
     exists o, a = AcceptStep o /\ registers o = true)
  /\ (forall s o, inv s -> exit_code s = None -> acceptor s = Looping ->
        running s = true -> accepted o = true ->
        exists s',
          step junk s (AcceptStep o) = Some s'
          /\ current_worker s'
             = if registers o
               then (current_worker s + 1) mod num_workers s
               else current_worker s)
  /\ (forall env acts, exists s',
        run junk (main_start env) acts = Some s'
        /\ num_workers s' = main_num_workers (sysconf_nproc env)
        /\ 0 <= current_worker s' < num_workers s').
Proof.
  split; [|split].
  - intros s a s' Hinv Hstep Hne.
    destruct (step_effect junk s a Hinv)
      as (s1 & t & Hs1 & _ & _ & _ & Hcur & _).
    rewrite Hstep in Hs1. injection Hs1 as <-.
    destruct Hcur as [[_ Heq]|(o & w & -> & Hreg & _)]; [congruence|eauto].
  - intros s o Hinv Hex Hacc Hrun Ho.
    destruct (inv_index s Hinv Hex) as [w Hw].
    destruct (accept_step_live junk s o w Hinv Hex Hacc Hrun Hw) as (t & _ & ->).
    assert (Hf : accept_fatal o = false).
    { unfold accepted in Ho. unfold accept_fatal.
      destruct (accept_ret o =? -1); [discriminate|reflexivity]. }
    rewrite Hf. eexists. split; reflexivity.
  - intros env acts.
    destruct (run_defined junk acts (main_start env) (main_start_inv env))
      as (s' & Hrun & Hinv').
    exists s'. split; [assumption|].
    rewrite (run_num_workers junk acts _ _ (main_start_inv env) Hrun).
    split; [apply main_start_num_workers|].
    rewrite <- (run_num_workers junk acts _ _ (main_start_inv env) Hrun).
    apply Hinv'.
Qed.

(** C2 as stated fails: a connection is accepted, its registration fails,
    and the cursor stays at 0 instead of advancing to 1. *)
Lemma cursor_kept_on_dropped_connection :
  let o := mk_accept_outcome 9 0 "127.0.0.1" 50000 2 0 (-1) in
  (accepted o = true
   /\ exit_code demo_server = None /\ acceptor demo_server = Looping
   /\ running demo_server = true
   /\ current_worker demo_server = 0 /\ num_workers demo_server = 4
   /\ current_worker <$> step stale demo_server (AcceptStep o) = Some 0
   /\ (0 + 1) mod 4 = 1)
  /\ ~ (forall s o s',
          inv s -> exit_code s = None -> acceptor s = Looping ->
          running s = true -> accepted o = true ->
          step stale s (AcceptStep o) = Some s' ->
          current_worker s' = (current_worker s + 1) mod num_workers s).
Proof.
  intros o. split; [repeat split|].
  intros H.
  specialize (H demo_server o _ (main_start_inv (demo_env 4))
                eq_refl eq_refl eq_refl eq_refl eq_refl).
  discriminate H.
Qed.

(** C3, as the code has it.  Over any run of the process, the M
    connections it registers are dealt to the N workers so that each gets
    floor(M/N) or ceil(M/N) of them.  For a sequence of consecutive
    accepted connections, M is the number of those that are switched to
    non-blocking mode and registered successfully; the others are dropped
    and assigned to no worker. *)
Theorem round_robin_fair junk s :
  inv s -> NoDup (epoll_fd <$> workers s) ->
  let N := num_workers s in
  (forall acts s', run junk s acts = Some s' ->
     exists t,
       log s' = log s ++ t
       /\ let M := len (registrations t) in
          forall (i : nat) w, workers s !! i = Some w ->
            assigned_to w t = M / N \/ assigned_to w t = (M + N - 1) / N)
  /\ (forall os,
        exit_code s = None -> acceptor s = Looping -> running s = true ->
        Forall (fun o => accepted o = true) os ->
        let M := len (List.filter registers os) in
        exists s' t,
          run junk s (AcceptStep <$> os) = Some s'
          /\ log s' = log s ++ t
          /\ len (registrations t) = M
          /\ forall (i : nat) w, workers s !! i = Some w ->
               assigned_to w t = M / N \/ assigned_to w t = (M + N - 1) / N).
Proof.
  intros Hinv Hnd N.
  assert (Hgen : forall acts s', run junk s acts = Some s' ->
            exists t,
              log s' = log s ++ t
              /\ forall (i : nat) w, workers s !! i = Some w ->
                   assigned_to w t = len (registrations t) / N
                   \/ assigned_to w t = (len (registrations t) + N - 1) / N).
  { intros acts s' Hrun.
    destruct (run_shares junk acts s s' Hinv Hnd Hrun) as (t & Hlog & _ & Hsh).
    exists t. split; [assumption|]. intros i w Hi. rewrite (Hsh i w Hi).
    destruct Hinv as (HN & _). apply share_floor_ceil; [unfold N; lia|].
    apply len_nonneg. }
  split; [exact Hgen|].
  intros os Hex Hacc Hrun Hall M.
  destruct (run_accepts junk os s Hinv Hex Hacc Hrun Hall)
    as (s' & t & Hrun' & Hlog & Hcount).
  destruct (Hgen _ _ Hrun') as (t' & Hlog' & Hfair).
  assert (t' = t) as -> by (rewrite Hlog in Hlog'; eapply app_inv_head; eauto).
  exists s', t. fold M in Hcount. rewrite Hcount in Hfair. auto.
Qed.

Lemma round_robin_fair_witness :
  let o := mk_accept_outcome 9 0 "127.0.0.1" 50000 2 0 0 in
  let os := [o; o; o; o; o] in
  inv demo_server /\ NoDup (epoll_fd <$> workers demo_server) /\
  exists s' t,
    run stale demo_server (AcceptStep <$> os) = Some s'
    /\ log s' = log demo_server ++ t
    /\ len (registrations t) = 5
    /\ forall (i : nat) w, workers demo_server !! i = Some w ->
         assigned_to w t = 5 / 4 \/ assigned_to w t = (5 + 4 - 1) / 4.
Proof.
  intros o os.
  split; [apply main_start_inv|]. split; [apply demo_server_NoDup|].
  destruct (round_robin_fair stale demo_server (main_start_inv (demo_env 4))
              demo_server_NoDup) as [_ H].
  apply (H os eq_refl eq_refl eq_refl). repeat constructor.
Defined.

(** C3 as stated fails: with two workers, two consecutive connections are
    accepted and both are dropped (the first when [fcntl] fails, the second
    when [epoll_ctl] fails); no worker has failed, and each worker is
    assigned 0 connections, while floor(2/2) = ceil(2/2) = 1. *)
Lemma dropped_connections_not_dealt :
  let s := main_start (demo_env 2) in
  let o1 := mk_accept_outcome 9 0 "127.0.0.1" 50000 (-1) 0 0 in
  let o2 := mk_accept_outcome 9 0 "127.0.0.1" 50001 2 0 (-1) in
  accepted o1 = true /\ accepted o2 = true
  /\ num_workers s = 2
  /\ workers s = [mk_worker 4 0; mk_worker 5 1]
  /\ exists s',
       run stale s [AcceptStep o1; AcceptStep o2] = Some s'
       /\ threads s' = [Looping; Looping]
       /\ exists t,
            log s' = log s ++ t
            /\ assigned_to (mk_worker 4 0) t = 0
            /\ assigned_to (mk_worker 5 1) t = 0
            /\ 2 / 2 = 1 /\ (2 + 2 - 1) / 2 = 1.
Proof.
  intros s o1 o2. do 4 (split; [reflexivity|]).
  eexists. split; [vm_compute; reflexivity|]. split; [reflexivity|].
  eexists. split; [vm_compute; reflexivity|]. repeat split.
Qed.

(** C4, as the code has it.  The pool size is the detected processor count
    when that count is between 1 and [MAX_WORKERS]; it is the default 4
    when detection fails (a result of 0 or less) and also when the count
    exceeds [MAX_WORKERS]; so it is always between 1 and [MAX_WORKERS].
    The pool that [main] builds has that many workers and threads. *)
Theorem pool_size nproc :
  (1 <= to_int nproc <= MAX_WORKERS -> main_num_workers nproc = to_int nproc)
  /\ (to_int nproc <= 0 \/ MAX_WORKERS < to_int nproc ->
      main_num_workers nproc = 4)
  /\ 1 <= main_num_workers nproc <= MAX_WORKERS
  /\ forall env, sysconf_nproc env = nproc ->
       num_workers (main_start env) = main_num_workers nproc
       /\ (exit_code (main_start env) = None ->
           len (workers (main_start env)) = main_num_workers nproc
           /\ len (threads (main_start env)) = main_num_workers nproc).
Proof.
  split; [|split; [|split]].
  - unfold main_num_workers. intros H.
    destruct (Z.leb_spec (to_int nproc) 0); [lia|].
    destruct (Z.ltb_spec MAX_WORKERS (to_int nproc)); [lia|reflexivity].
  - unfold main_num_workers. intros H.
    destruct (Z.leb_spec (to_int nproc) 0); [reflexivity|].
    destruct (Z.ltb_spec MAX_WORKERS (to_int nproc)); [reflexivity|lia].
  - apply main_num_workers_range.
  - intros env <-. pose proof (main_start_num_workers env) as Hn.
    split; [exact Hn|].
    intros Hex. destruct (main_start_inv env) as (_ & _ & Hlive).
    destruct (Hlive Hex) as [Hlen Hth]. unfold len in *. lia.
Qed.

(** C4 as stated fails: on a host with 64 processors detection succeeds,
    and the pool has 4 workers, not 64 (nor [MAX_WORKERS]). *)
Lemma pool_size_not_processor_count :
  to_int 64 = 64
  /\ main_num_workers 64 = 4
  /\ num_workers (main_start (demo_env 64)) = 4
  /\ length (workers (main_start (demo_env 64))) = 4%nat
  /\ main_num_workers 64 <> 64.
Proof. repeat split. discriminate. Qed.

(** C5. In a worker's loop a wait that fails with EINTR changes nothing
    but the log: the worker is still in its loop and its next turn waits
    again.  A wait that fails with another error makes that worker return,
    and nothing else: the process has not exited, the flag, the main thread
    and the other workers are as before, and the other workers go on
    waiting. *)
Theorem wait_error_handling junk s i w errno :
  exit_code s = None -> running s = true ->
  threads s !! i = Some Looping -> workers s !! i = Some w ->
  let waited := EvEpollWait (epoll_fd w) MAX_EVENTS 1000 (-1) in
  (forall rest,
     worker_loop junk w ((true, WaitErr errno) :: rest)
     = if errno =? EINTR
       then (emit waited >> worker_loop junk w rest)
       else Some (Done Returned, [waited; EvPerror "epoll_wait"]))
  /\ (errno = EINTR ->
     step junk s (WorkerStep i (WaitErr errno)) = Some (add_log [waited] s)
     /\ threads (add_log [waited] s) !! i = Some Looping
     /\ forall o, exists s2 r t,
          step junk (add_log [waited] s) (WorkerStep i o) = Some s2
          /\ log s2
             = (log s ++ [waited])
               ++ EvEpollWait (epoll_fd w) MAX_EVENTS 1000 r :: t)
  /\ (errno <> EINTR ->
      exists s1,
        step junk s (WorkerStep i (WaitErr errno)) = Some s1
        /\ log s1 = log s ++ [waited; EvPerror "epoll_wait"]
        /\ threads s1 = <[i := Returned]> (threads s)
        /\ exit_code s1 = None
        /\ running s1 = true
        /\ acceptor s1 = acceptor s
        /\ current_worker s1 = current_worker s
        /\ forall j wj o,
             j <> i -> threads s !! j = Some Looping ->
             workers s !! j = Some wj ->
             threads s1 !! j = Some Looping
             /\ exists s2 r t,
                  step junk s1 (WorkerStep j o) = Some s2
                  /\ log s2
                     = log s1 ++ EvEpollWait (epoll_fd wj) MAX_EVENTS 1000 r :: t).
Proof.
  intros Hex Hrun Hth Hw waited. split; [|split].
  - intros rest. cbn [worker_loop worker_iteration].
    destruct (errno =? EINTR); [|reflexivity].
    cbn [bind emit ret]. destruct (worker_loop junk w rest) as [[st t]|];
      reflexivity.
  - intros ->. split; [|split].
    + unfold step, worker_step. rewrite Hex, Hth, Hw, Hrun. reflexivity.
    + exact Hth.
    + intros o. apply worker_step_waits; assumption.
  - intros Hne. apply Z.eqb_neq in Hne. eexists. split.
    + unfold step, worker_step. rewrite Hex, Hth, Hw, Hrun.
      cbn [worker_iteration]. rewrite Hne. reflexivity.
    + cbn [log threads exit_code running acceptor current_worker
           add_log set_threads].
      repeat (split; [first [reflexivity|assumption]|]).
      intros j wj o Hj Hthj Hwj.
      assert (Hthj' : <[i := Returned]> (threads s) !! j = Some Looping).
      { rewrite list_lookup_insert_ne by congruence. assumption. }
      split; [assumption|].
      apply worker_step_waits; assumption.
Qed.

Lemma wait_error_handling_witness :
  exit_code demo_server = None /\ running demo_server = true /\
  threads demo_server !! 1%nat = Some Looping /\
  workers demo_server !! 1%nat = Some (mk_worker 5 1) /\
  step stale demo_server (WorkerStep 1 (WaitErr EINTR))
  = Some (add_log [EvEpollWait 5 MAX_EVENTS 1000 (-1)] demo_server) /\
  exists s1,
    step stale demo_server (WorkerStep 1 (WaitErr 5)) = Some s1
    /\ threads s1 = [Looping; Returned; Looping; Looping]
    /\ exit_code s1 = None /\ running s1 = true.
Proof.
  pose proof (wait_error_handling stale demo_server 1 (mk_worker 5 1) EINTR
                eq_refl eq_refl eq_refl eq_refl) as (_ & Hintr & _).
  pose proof (wait_error_handling stale demo_server 1 (mk_worker 5 1) 5
                eq_refl eq_refl eq_refl eq_refl) as (_ & _ & Hother).
  do 4 (split; [reflexivity|]). split.
  - apply (Hintr eq_refl).
  - destruct (Hother ltac:(discriminate)) as (s1 & Hs1 & _ & Hth & Hex & Hrun & _).
    exists s1. repeat split; assumption.
Defined.

(** C6. When the registration of an accepted connection with the
    multiplexer of the current worker fails, the turn of the accept loop is
    exactly: the accept, the two [fcntl] calls, the one failed [epoll_ctl]
    on that worker's multiplexer, the diagnostic, and the close of the
    connection's socket.  Nothing is registered, with no worker; the cursor
    is unchanged; the main thread is still in its loop, and its next turn
    calls [accept] again. *)
Theorem failed_registration_drops_connection junk s o w :
  inv s -> exit_code s = None -> acceptor s = Looping -> running s = true ->
  index (workers s) (current_worker s) = Some w ->
  accept_ret o <> -1 -> fcntl_getfl o <> -1 -> fcntl_setfl o <> -1 ->
  epoll_ctl_ret o = -1 ->
  let turn :=
    [EvAccept (server_fd s) (accept_ret o);
     EvFcntl (accept_ret o) F_GETFL 0 (fcntl_getfl o);
     EvFcntl (accept_ret o) F_SETFL (Z.lor (fcntl_getfl o) O_NONBLOCK)
       (fcntl_setfl o);
     EvEpollCtl (epoll_fd w) EPOLL_CTL_ADD (accept_ret o)
       (Z.lor EPOLLIN EPOLLET) (-1);
     EvPerror "epoll_ctl";
     EvClose (accept_ret o)] in
  step junk s (AcceptStep o) = Some (add_log turn s)
  /\ registrations turn = []
  /\ closed turn = [accept_ret o]
  /\ current_worker (add_log turn s) = current_worker s
  /\ acceptor (add_log turn s) = Looping
  /\ running (add_log turn s) = true
  /\ forall o', exists s2 t,
       step junk (add_log turn s) (AcceptStep o') = Some s2
       /\ log s2
          = (log s ++ turn) ++ EvAccept (server_fd s) (accept_ret o') :: t.
Proof.
  intros Hinv Hex Hacc Hrun Hw Hr Hg Hs Hctl turn.
  split.
  { unfold step, accept_step. rewrite Hex, Hacc, Hrun.
    rewrite (accept_iteration_ctl_fails s o w) by assumption.
    cbn [exec fst snd]. destruct s; reflexivity. }
  split; [reflexivity|]. split; [reflexivity|].
  split; [reflexivity|]. split; [exact Hacc|]. split; [exact Hrun|].
  intros o'.
  apply (accept_step_accepts junk (add_log turn s) o'); assumption.
Qed.

Lemma failed_registration_drops_connection_witness :
  let o := mk_accept_outcome 9 0 "127.0.0.1" 50000 2 0 (-1) in
  inv demo_server /\ exit_code demo_server = None /\
  acceptor demo_server = Looping /\ running demo_server = true /\
  index (workers demo_server) (current_worker demo_server)
  = Some (mk_worker 4 0) /\
  accept_ret o <> -1 /\ fcntl_getfl o <> -1 /\ fcntl_setfl o <> -1 /\
  epoll_ctl_ret o = -1 /\
  step stale demo_server (AcceptStep o)
  = Some (add_log [EvAccept 3 9; EvFcntl 9 F_GETFL 0 2;
                   EvFcntl 9 F_SETFL 2050 0;
                   EvEpollCtl 4 EPOLL_CTL_ADD 9 (Z.lor EPOLLIN EPOLLET) (-1);
                   EvPerror "epoll_ctl"; EvClose 9] demo_server).
Proof.
  intros o.
  split; [apply main_start_inv|].
  do 4 (split; [reflexivity|]). do 3 (split; [discriminate|]).
  split; [reflexivity|].
  apply (failed_registration_drops_connection stale demo_server o
           (mk_worker 4 0) (main_start_inv (demo_env 4))
           eq_refl eq_refl eq_refl eq_refl);
    first [discriminate|reflexivity].
Defined.

(** C7. When the handler's read returns zero bytes, the handler only logs:
    it writes nothing and does not close the socket.  The socket is closed
    by the event loop when the event carries a hang-up or error bit, and
    stays open otherwise. *)
Theorem handle_connection_empty_read junk fd id wo :
  let t := [EvRead fd (BUFFER_SIZE - 1) 0;
            EvStdout (chars "Worker " ++ itoa id ++
                      chars ": Client closed connection" ++ [LF])] in
  handle_connection junk fd id (ReadData []) wo = Some (Done tt, t)
  /\ written t = [] /\ closed t = []
  /\ forall w del, worker_id w = id ->
       worker_event junk w
         (mk_epoll_event EPOLLIN fd, mk_served (ReadData []) wo del)
       = Some (Done tt, t)
       /\ worker_event junk w
            (mk_epoll_event (Z.lor EPOLLIN EPOLLHUP) fd,
             mk_served (ReadData []) wo del)
          = Some (Done tt,
                  t ++ [EvStdout (chars "Worker " ++ itoa id ++
                                  chars ": Client disconnected" ++ [LF]);
                        EvEpollCtl (epoll_fd w) EPOLL_CTL_DEL fd 0 del;
                        EvClose fd]).
Proof.
  intros t. split; [apply handle_connection_eof|].
  split; [reflexivity|]. split; [reflexivity|].
  intros w del <-. unfold worker_event.
  cbn [events data_fd on_read on_write on_del].
  rewrite handle_connection_eof. split; reflexivity.
Qed.

(** C8. Two non-empty reads served by the same worker get the same
    response bytes, whatever the request bytes (and whatever the sockets
    and the stale contents of the stack). *)
Theorem response_independent_of_request
    junk1 junk2 fd1 fd2 id avail1 avail2 wo1 wo2 :
  avail1 <> [] -> avail2 <> [] ->
  exists r1 t1 r2 t2,
    handle_connection junk1 fd1 id (ReadData avail1) wo1 = Some (r1, t1)
    /\ handle_connection junk2 fd2 id (ReadData avail2) wo2 = Some (r2, t2)
    /\ written t1 = written t2
    /\ written t1 = [http_response id].
Proof.
  intros H1 H2. eexists _, _, _, _.
  split; [apply handle_connection_served; assumption|].
  split; [apply handle_connection_served; assumption|].
  destruct wo1, wo2; split; reflexivity.
Qed.

Lemma response_independent_of_request_witness :
  chars "GET / HTTP/1.1" <> [] /\ chars "POST /x" <> [] /\
  exists r1 t1 r2 t2,
    handle_connection stale 7 2 (ReadData (chars "GET / HTTP/1.1"))
      WriteReturns
    = Some (r1, t1)
    /\ handle_connection (fun _ => NUL) 9 2 (ReadData (chars "POST /x"))
         WriteSigpipe
       = Some (r2, t2)
    /\ written t1 = written t2
    /\ written t1 = [http_response 2].
Proof.
  split; [discriminate|]. split; [discriminate|].
  apply (response_independent_of_request stale (fun _ => NUL) 7 9 2
           (chars "GET / HTTP/1.1") (chars "POST /x")
           WriteReturns WriteSigpipe); discriminate.
Defined.

(** C9. The flag is true when the process starts.  The signal handler
    clears it and closes the listening socket.  No other step of the
    process changes it, so once false it stays false: along any run of the
    process from start-up its value changes exactly once when the run ends
    with the flag false, and never otherwise. *)
Theorem running_flag_one_way junk :
  (forall env, running (main_start env) = true)
  /\ (forall s signum, exit_code s = None ->
        exists s' line,
          step junk s (Signal signum) = Some s'
          /\ running s' = false
          /\ log s' = log s ++ [EvStdout line; EvClose (server_fd s)])
  /\ (forall s a s', inv s -> step junk s a = Some s' ->
        running s' <> running s ->
        (exists signum, a = Signal signum)
        /\ running s = true /\ running s' = false)
  /\ (forall s acts s', inv s -> run junk s acts = Some s' ->
        running s = false -> running s' = false)
  /\ (forall env acts s', run junk (main_start env) acts = Some s' ->
        flips junk (main_start env) acts
        = if running s' then 0%nat else 1%nat).
Proof.
  split; [|split; [|split; [|split]]].
  - intros env. unfold main_start.
    destruct (negb (calloc_ok env)); [reflexivity|].
    destruct (listen_fd env); [|reflexivity].
    destruct (create_workers env _ 0); reflexivity.
  - intros s signum Hex. unfold step. rewrite Hex, signal_handler_eq.
    eexists _, _. split; [reflexivity|]. split; [reflexivity|].
    cbn [log add_log set_running]. rewrite <- app_assoc. reflexivity.
  - intros s a s' Hinv Hstep Hne.
    destruct (step_running junk s a s' Hinv Hstep) as [Heq|(signum & -> & Hf)];
      [congruence|].
    split; [eauto|]. split; [|assumption].
    destruct (running s); [reflexivity|congruence].
  - intros s acts s'. apply run_running_false.
  - intros env acts s' Hrun.
    rewrite (flips_exact junk acts _ s' (main_start_inv env) Hrun).
    assert (Hstart : running (main_start env) = true).
    { unfold main_start.
      destruct (negb (calloc_ok env)); [reflexivity|].
      destruct (listen_fd env); [|reflexivity].
      destruct (create_workers env _ 0); reflexivity. }
    rewrite Hstart. destruct (running s'); reflexivity.
Qed.

(** C10. The handler's array accesses are in bounds.  The model makes an
    access outside an array undefined, and the handler is defined on every
    input.  The read asks for [BUFFER_SIZE - 1] bytes of the
    [BUFFER_SIZE]-byte array, so for every read length the store of the
    terminator at index [bytes_read] is inside the array; [snprintf] is
    given the size of the 512-byte array, leaves a terminated string in it,
    and the write takes that string's length. *)
Theorem handle_connection_in_bounds junk fd id :
  sizeof (alloca junk BUFFER_SIZE) = BUFFER_SIZE
  /\ (forall o wo, exists res t,
        handle_connection junk fd id o wo = Some (res, t)
        /\ (forall fd' count r, In (EvRead fd' count r) t ->
              count = BUFFER_SIZE - 1 /\ -1 <= r <= BUFFER_SIZE - 1)
        /\ (forall fd' data, In (EvWrite fd' data) t ->
              data = http_response id /\ len data < 512))
  /\ (forall avail, exists bytes_read buffer,
        read fd (alloca junk BUFFER_SIZE)
          (sizeof (alloca junk BUFFER_SIZE) - 1) (ReadData avail)
        = Some (Done (bytes_read, 0, buffer),
                [EvRead fd (BUFFER_SIZE - 1) bytes_read])
        /\ 0 <= bytes_read < sizeof buffer
        /\ sizeof buffer = BUFFER_SIZE
        /\ is_Some (store buffer bytes_read NUL))
  /\ (exists formatted_response,
        snprintf (alloca junk 512) (sizeof (alloca junk 512)) response
          [AInt id] = Some formatted_response
        /\ sizeof formatted_response = 512
        /\ strlen formatted_response = Some (len (http_response id))
        /\ len (http_response id) < 512
        /\ forall wo,
             write fd formatted_response (len (http_response id)) wo
             = Some (write_result wo, [EvWrite fd (http_response id)])).
Proof.
  pose proof (http_response_length id) as Hresp.
  assert (Hsize : sizeof (alloca junk BUFFER_SIZE) = BUFFER_SIZE)
    by (apply len_alloca; unfold BUFFER_SIZE; lia).
  split; [exact Hsize|]. split; [|split].
  - intros [avail|errno] wo.
    + destruct avail as [|c avail].
      * rewrite handle_connection_eof. eexists _, _. split; [reflexivity|].
        split; in_trace. unfold BUFFER_SIZE. lia.
      * rewrite handle_connection_served by discriminate.
        eexists _, _. split; [reflexivity|].
        destruct wo; cbn [after_write app]; split; in_trace.
        -- split; [reflexivity|].
           unfold len. cbn [length]. rewrite length_take.
           unfold BUFFER_SIZE. lia.
        -- split; [reflexivity|]. unfold len. lia.
        -- split; [reflexivity|].
           unfold len. cbn [length]. rewrite length_take.
           unfold BUFFER_SIZE. lia.
        -- split; [reflexivity|]. unfold len. lia.
    + rewrite handle_connection_err. eexists _, _. split; [reflexivity|].
      destruct (negb (errno =? EAGAIN) && negb (errno =? EWOULDBLOCK));
        split; in_trace; unfold BUFFER_SIZE; lia.
  - intros avail. rewrite Hsize.
    rewrite read_data by (rewrite len_alloca; unfold BUFFER_SIZE; lia).
    set (got := take (Z.to_nat (BUFFER_SIZE - 1)) avail).
    assert (Hgot : (length got <= 4095)%nat).
    { unfold got. rewrite length_take.
      change (Z.to_nat (BUFFER_SIZE - 1)) with 4095%nat. lia. }
    assert (Hbuf : (length (alloca junk BUFFER_SIZE) = 4096)%nat)
      by apply length_alloca.
    eexists _, _. split; [reflexivity|].
    assert (Hlen : sizeof (got ++ drop (length got) (alloca junk BUFFER_SIZE))
                   = BUFFER_SIZE).
    { unfold sizeof, len. rewrite length_app, length_drop, Hbuf.
      unfold BUFFER_SIZE. lia. }
    rewrite Hlen. split; [unfold len, BUFFER_SIZE; lia|].
    split; [reflexivity|].
    rewrite store_after by lia. eexists. reflexivity.
  - unfold sizeof. rewrite !len_alloca by lia.
    rewrite (snprintf_fits _ _ _ _ _ (format_response id))
      by (rewrite ?len_alloca by lia; unfold len; lia).
    eexists. split; [reflexivity|].
    split.
    { unfold len. rewrite length_app. cbn [length].
      rewrite length_drop, length_alloca. lia. }
    split; [apply strlen_terminated, http_response_no_nul|].
    split; [unfold len; lia|]. intros wo. apply write_prefix.
Qed.

(** * Further properties of the code *)

(** ** make_socket_non_blocking *)

Lemma lor_nonblock_bits flags n :
  0 <= n ->
  Z.testbit (Z.lor flags O_NONBLOCK) n = Z.testbit flags n || (n =? 11).
Proof.
  intros Hn. rewrite Z.lor_spec. f_equal.
  change O_NONBLOCK with (2 ^ 11). rewrite Z.pow2_bits_eqb by lia.
  apply Z.eqb_sym.
Qed.

(** X1. [make_socket_non_blocking] returns 0 when both [fcntl] calls
    succeed and -1 otherwise.  It asks for the flags first, and sets them
    only when it got them: to the flags it got with the [O_NONBLOCK] bit
    set and every other bit kept.  It never closes the descriptor. *)
Theorem make_socket_non_blocking_result sfd getfl setfl :
  exists r t,
    make_socket_non_blocking sfd getfl setfl = Some (Done r, t)
    /\ (r = 0 \/ r = -1)
    /\ (r = 0 <-> getfl <> -1 /\ setfl <> -1)
    /\ hd_error t = Some (EvFcntl sfd F_GETFL 0 getfl)
    /\ (forall fd arg ret, In (EvFcntl fd F_SETFL arg ret) t ->
          getfl <> -1 /\ fd = sfd /\ ret = setfl
          /\ Z.testbit arg 11 = true
          /\ forall n, 0 <= n -> n <> 11 ->
               Z.testbit arg n = Z.testbit getfl n)
    /\ closed t = [].
Proof.
  unfold make_socket_non_blocking.
  destruct (Z.eqb_spec getfl (-1)) as [Hg|Hg].
  - eexists _, _. split; [reflexivity|]. cbn [app hd_error closed].
    split; [auto|]. split; [split; [discriminate|tauto]|].
    split; [reflexivity|]. split; [|reflexivity].
    intros fd arg ret Hin. cbn [In] in Hin.
    destruct Hin as [Hin|[Hin|[]]]; discriminate Hin.
  - cbn [bind emit].
    assert (Hset : forall fd arg ret rest,
              In (EvFcntl fd F_SETFL arg ret)
                ([EvFcntl sfd F_GETFL 0 getfl] ++
                 [EvFcntl sfd F_SETFL (Z.lor getfl O_NONBLOCK) setfl] ++ rest) ->
              (forall x, In x rest -> exists msg, x = EvPerror msg) ->
              getfl <> -1 /\ fd = sfd /\ ret = setfl
              /\ Z.testbit arg 11 = true
              /\ forall n, 0 <= n -> n <> 11 ->
                   Z.testbit arg n = Z.testbit getfl n).
    { intros fd arg ret rest Hin Hrest. cbn [app In] in Hin.
      destruct Hin as [Hin|[Hin|Hin]].
      - discriminate Hin.
      - injection Hin as <- <- <-. split; [assumption|]. do 2 (split; [reflexivity|]).
        split.
        + rewrite lor_nonblock_bits by lia. apply orb_true_r.
        + intros n Hn Hne. rewrite lor_nonblock_bits by assumption.
          rewrite (proj2 (Z.eqb_neq n 11) Hne). apply orb_false_r.
      - destruct (Hrest _ Hin) as [msg Hmsg]. discriminate Hmsg. }
    destruct (Z.eqb_spec setfl (-1)) as [Hs|Hs].
    + eexists _, _. split; [reflexivity|].
      split; [auto|]. split; [split; [discriminate|tauto]|].
      split; [reflexivity|]. split; [|reflexivity].
      intros fd arg ret Hin. apply (Hset fd arg ret _ Hin).
      intros x [<-|[]]. eauto.
    + eexists _, _. split; [reflexivity|].
      split; [auto|]. split; [tauto|].
      split; [reflexivity|]. split; [|reflexivity].
      intros fd arg ret Hin. apply (Hset fd arg ret _ Hin).
      intros x [].
Qed.

(** ** handle_connection and the loop body *)

(** X2. Whatever the read and the write give, [handle_connection] reads
    once, asking for [BUFFER_SIZE - 1] bytes.  It writes the response
    exactly when the read returned data.  It then closes the socket and
    returns when the write returns; when the write raises SIGPIPE the
    process is terminated in the write and the socket is not closed.  When
    the read returned no data it neither writes nor closes, and returns.
    It reports a read error with [perror] except EAGAIN/EWOULDBLOCK, which
    it passes over in silence. *)
Theorem handle_connection_outcomes junk fd id o wo :
  exists res t r,
    handle_connection junk fd id o wo = Some (res, t)
    /\ reads t = [(fd, BUFFER_SIZE - 1, r)]
    /\ (0 < r <-> exists c avail, o = ReadData (c :: avail))
    /\ (0 < r ->
        written t = [http_response id]
        /\ match wo with
           | WriteReturns => res = Done tt /\ closed t = [fd]
           | WriteSigpipe => res = Killed SIGPIPE /\ closed t = []
           end)
    /\ (r <= 0 -> res = Done tt /\ written t = [] /\ closed t = [])
    /\ (In (EvPerror "read") t <->
        exists errno, o = ReadErr errno /\ errno <> EAGAIN
                      /\ errno <> EWOULDBLOCK).
Proof.
  destruct o as [[|c avail]|errno].
  - rewrite handle_connection_eof. eexists _, _, _. split; [reflexivity|].
    split; [reflexivity|]. split.
    { split; [lia|]. intros (c & avail & H). discriminate H. }
    split; [lia|]. split; [intros _; repeat split|].
    split.
    + intros [H|[H|[]]]; discriminate H.
    + intros (errno & H & _). discriminate H.
  - rewrite handle_connection_served by discriminate.
    eexists _, _, _. split; [reflexivity|].
    split; [destruct wo; reflexivity|].
    assert (Hpos : 0 < len (take (Z.to_nat (BUFFER_SIZE - 1)) (c :: avail))).
    { change (Z.to_nat (BUFFER_SIZE - 1)) with 4095%nat.
      unfold len. cbn [take length]. lia. }
    split; [split; [eauto|intros _; exact Hpos]|].
    split; [intros _; destruct wo; repeat split|]. split; [lia|].
    split.
    + destruct wo; cbn [after_write app In];
        intros H; repeat (destruct H as [H|H]; try discriminate H);
        destruct H.
    + intros (errno & H & _). discriminate H.
  - rewrite handle_connection_err. eexists _, _, _. split.
    { reflexivity. }
    split.
    { destruct (negb (errno =? EAGAIN) && negb (errno =? EWOULDBLOCK));
        reflexivity. }
    split.
    { split; [lia|]. intros (c & avail & H). discriminate H. }
    split; [lia|]. split.
    { intros _.
      destruct (negb (errno =? EAGAIN) && negb (errno =? EWOULDBLOCK));
        repeat split. }
    destruct (Z.eqb_spec errno EAGAIN) as [He|He];
      destruct (Z.eqb_spec errno EWOULDBLOCK) as [Hw|Hw]; cbn [negb andb].
    1-3: (split;
          [ intros [H|[]]; discriminate H
          | intros (e & [= <-] & H1 & H2); contradiction ]).
    split; [intros _; eauto|intros _; right; left; reflexivity].
Qed.

Lemma handle_connection_calls junk w fd o wo :
  exists res t,
    handle_connection junk fd (worker_id w) o wo = Some (res, t)
    /\ Forall (worker_call w) t
    /\ res = match o, wo with
             | ReadData (_ :: _), WriteSigpipe => Killed SIGPIPE
             | _, _ => Done tt
             end.
Proof.
  destruct o as [[|c avail]|errno].
  - rewrite handle_connection_eof. eexists _, _. split; [reflexivity|].
    split; [repeat constructor|reflexivity].
  - rewrite handle_connection_served by discriminate.
    eexists _, _. split; [reflexivity|].
    destruct wo; (split; [repeat constructor|reflexivity]).
  - rewrite handle_connection_err. eexists _, _. split; [reflexivity|].
    split; [|reflexivity].
    destruct (negb (errno =? EAGAIN) && negb (errno =? EWOULDBLOCK));
      repeat constructor.
Qed.

(** How the body of the loop ends, by the event it serves. *)
Lemma worker_event_calls junk w ev :
  exists t,
    worker_event junk w ev
    = Some (if raises_sigpipe ev then Killed SIGPIPE else Done tt, t)
    /\ Forall (worker_call w) t.
Proof.
  destruct ev as [e o]. unfold worker_event, raises_sigpipe. cbn [fst snd].
  destruct (handle_connection_calls junk w (data_fd e) (on_read o) (on_write o))
    as (rh & th & Hh & Hok & Hres).
  destruct (negb (Z.land (events e) EPOLLIN =? 0)); cbn [andb].
  - rewrite Hh. cbn [bind]. subst rh.
    destruct (on_read o) as [[|c avail]|errno], (on_write o);
      try (eexists; split; [reflexivity|assumption]);
      rewrite printf_disconnected;
      destruct (negb (Z.land (events e) (Z.lor EPOLLERR EPOLLHUP) =? 0));
      cbn [bind emit close ret]; (eexists; split; [reflexivity|]);
      apply Forall_app; (split; [assumption|]); repeat constructor.
  - cbn [bind ret]. rewrite printf_disconnected.
    destruct (negb (Z.land (events e) (Z.lor EPOLLERR EPOLLHUP) =? 0));
      cbn [bind emit close ret]; (eexists; split; [reflexivity|]);
      repeat constructor.
Qed.

(** X3. The loop body handles the readable bit first and the error and
    hang-up bits after it.  When the handler is killed by SIGPIPE nothing
    more is done.  Otherwise, an event with an error or hang-up bit has its
    socket removed from the worker's multiplexer (whatever the kernel
    answers to that call) and closed.  An event with only an error or
    hang-up bit costs no read and is closed once; an event with neither
    bit does nothing.  When a readable event brings data, the write
    returns and the event also carries an error or hang-up bit, the handler
    closes the socket and the loop then closes the same descriptor number
    a second time. *)
Theorem worker_event_cleanup junk w e o :
  let fd := data_fd e in
  let readable := negb (Z.land (events e) EPOLLIN =? 0) in
  let hung := negb (Z.land (events e) (Z.lor EPOLLERR EPOLLHUP) =? 0) in
  let cleanup :=
    [EvStdout (chars "Worker " ++ itoa (worker_id w) ++
               chars ": Client disconnected" ++ [LF]);
     EvEpollCtl (epoll_fd w) EPOLL_CTL_DEL fd 0 (on_del o);
     EvClose fd] in
  exists r_in t_in r t,
    worker_event junk w (e, o) = Some (r, t)
    /\ (if readable
        then handle_connection junk fd (worker_id w) (on_read o) (on_write o)
             = Some (r_in, t_in)
        else r_in = Done tt /\ t_in = [])
    /\ match r_in with
       | Killed signum => r = Killed signum /\ t = t_in
       | Done _ => r = Done tt /\ t = t_in ++ (if hung then cleanup else [])
       end
    /\ r = (if raises_sigpipe (e, o) then Killed SIGPIPE else Done tt)
    /\ (hung = true -> readable = false -> reads t = [] /\ closed t = [fd])
    /\ (hung = true -> readable = true ->
        (exists c avail, on_read o = ReadData (c :: avail)) ->
        on_write o = WriteReturns ->
        written t = [http_response (worker_id w)] /\ closed t = [fd; fd])
    /\ (hung = false -> readable = false -> t = []).
Proof.
  intros fd readable hung cleanup.
  destruct (worker_event_calls junk w (e, o)) as (t & Hev & _).
  destruct (handle_connection_calls junk w fd (on_read o) (on_write o))
    as (rh & th & Hh & _ & Hres).
  revert Hev. unfold worker_event, raises_sigpipe. cbn [fst snd].
  fold fd readable hung. rewrite printf_disconnected. fold cleanup.
  destruct readable eqn:Hr; cbn [andb].
  - rewrite Hh. cbn [bind]. intros Hev. exists rh, th.
    destruct rh as [[]|signum].
    + destruct hung; cbn [bind emit close ret] in *;
        (eexists _, _; split; [reflexivity|]);
        (split; [reflexivity|]); (split; [split; reflexivity|]);
        (split; [congruence|]).
      * split; [discriminate|]. split; [|discriminate].
        intros _ _ (c & avail & Hd) Hw. rewrite Hd, Hw in Hh.
        rewrite handle_connection_data in Hh by discriminate.
        injection Hh as <-. split; reflexivity.
      * split; [discriminate|]. split; discriminate.
    + eexists _, _. split; [reflexivity|]. split; [reflexivity|].
      split; [split; reflexivity|]. split; [congruence|].
      split; [discriminate|]. split; [|discriminate].
      intros _ _ (c & avail & Hd) Hw. rewrite Hd, Hw in Hres.
      discriminate Hres.
  - intros _. exists (Done tt), []. cbn [bind ret].
    destruct hung; cbn [bind emit close ret];
      (eexists _, _; split; [reflexivity|]);
      (split; [split; reflexivity|]); (split; [split; reflexivity|]);
      (split; [reflexivity|]).
    + split; [intros _ _; split; reflexivity|]. split; discriminate.
    + split; [discriminate|]. split; [discriminate|]. reflexivity.
Qed.

Lemma for_each_calls junk w l :
  exists t,
    for_each (worker_event junk w) l
    = Some (if existsb raises_sigpipe l then Killed SIGPIPE else Done tt, t)
    /\ Forall (worker_call w) t.
Proof.
  induction l as [|x l (tl & Hl & Hok)].
  - exists []. split; [reflexivity|constructor].
  - destruct (worker_event_calls junk w x) as (tx & Hx & Hokx).
    cbn [for_each existsb]. rewrite Hx.
    destruct (raises_sigpipe x); cbn [bind orb].
    + eexists. split; [reflexivity|assumption].
    + rewrite Hl. eexists. split; [reflexivity|].
      apply Forall_app. split; assumption.
Qed.

(** How a turn of the worker's loop ends, and what it calls. *)
Lemma worker_iteration_calls junk w o :
  exists t,
    worker_iteration junk w o
    = Some (if kills o then Killed SIGPIPE else Done (turn_control o), t)
    /\ Forall (worker_call w) t.
Proof.
  destruct o as [ready|errno]; cbn [worker_iteration turn_control kills].
  - destruct (for_each_calls junk w (take (Z.to_nat MAX_EVENTS) ready))
      as (t & -> & Hok).
    destruct (existsb raises_sigpipe (take (Z.to_nat MAX_EVENTS) ready));
      cbn [bind emit ret]; (eexists; split; [reflexivity|]);
      (constructor; [repeat split|]); rewrite ?app_nil_r; assumption.
  - destruct (errno =? EINTR); cbn [bind emit ret perror];
      (eexists; split; [reflexivity|]); repeat constructor.
Qed.

(** An observation of the loop is of exactly one of three kinds. *)
Lemma observation_cases ob :
  (goes_on ob /\ ~ stops_worker ob /\ ~ kills_worker ob)
  \/ (stops_worker ob /\ ~ goes_on ob /\ ~ kills_worker ob)
  \/ (kills_worker ob /\ ~ goes_on ob /\ ~ stops_worker ob).
Proof.
  destruct ob as [flag o]. unfold goes_on, stops_worker, kills_worker.
  cbn [fst snd]. destruct flag.
  - destruct o as [ready|errno]; cbn [turn_control kills].
    + destruct (existsb raises_sigpipe (take (Z.to_nat MAX_EVENTS) ready)).
      * right. right. split; [auto|]. split; [intros (_ & _ & H); discriminate H|].
        intros [H|(e & H & _)]; discriminate H.
      * left. split; [auto|]. split; [|intros [_ H]; discriminate H].
        intros [H|(e & H & _)]; discriminate H.
    + destruct (Z.eqb_spec errno EINTR) as [He|He].
      * left. split; [auto|]. split; [|intros [_ H]; discriminate H].
        intros [H|(e & [= <-] & H)]; [discriminate H|contradiction].
      * right. left. split; [eauto|].
        split; [intros (_ & H & _); discriminate H|intros [_ H]; discriminate H].
  - right. left. split; [auto|].
    split; [intros (H & _); discriminate H|intros [H _]; discriminate H].
Qed.

(** X4. How a worker thread's loop ends is decided by the first
    observation that does not just go on.  The thread returns when it
    reads the flag as false or a wait fails with an error other than
    EINTR; the whole process is killed by SIGPIPE when a wait returns an
    event whose response is written to a broken connection; and the thread
    is still in its loop when every wait so far returned events that were
    served or failed with EINTR.  Up to there the thread only waits on its
    own multiplexer, removes sockets from it, reads, writes its own
    response, closes and logs. *)
Theorem worker_loop_exit junk w obs :
  exists r t,
    worker_loop junk w obs = Some (r, t)
    /\ Forall (worker_call w) t
    /\ match r with
       | Done Looping => Forall goes_on obs
       | Done Returned =>
           exists pre ob post,
             obs = pre ++ ob :: post /\ Forall goes_on pre /\ stops_worker ob
       | Killed signum =>
           signum = SIGPIPE
           /\ exists pre ob post,
                obs = pre ++ ob :: post /\ Forall goes_on pre
                /\ kills_worker ob
       end.
Proof.
  induction obs as [|[flag o] obs (r & t & IH & Hok & Hr)].
  - exists (Done Looping), []. split; [reflexivity|].
    split; constructor.
  - cbn [worker_loop]. destruct flag.
    2:{ exists (Done Returned), []. split; [reflexivity|].
        split; [constructor|]. exists [], (false, o), obs.
        split; [reflexivity|]. split; [constructor|]. left. reflexivity. }
    destruct (worker_iteration_calls junk w o) as (t1 & -> & Hok1).
    destruct (kills o) eqn:Hk; cbn [bind].
    { exists (Killed SIGPIPE), t1. split; [reflexivity|].
      split; [assumption|]. split; [reflexivity|].
      exists [], (true, o), obs. split; [reflexivity|].
      split; [constructor|]. split; [reflexivity|exact Hk]. }
    destruct (turn_control o) eqn:Hc.
    + assert (Hgo : goes_on (true, o)) by (repeat split; assumption).
      rewrite IH. exists r, (t1 ++ t). split; [reflexivity|].
      split; [apply Forall_app; split; assumption|].
      destruct r as [[|]|signum].
      * constructor; assumption.
      * destruct Hr as (pre & ob & post & -> & Hpre & Hstop).
        exists ((true, o) :: pre), ob, post. split; [reflexivity|].
        split; [constructor; assumption|assumption].
      * destruct Hr as (-> & pre & ob & post & -> & Hpre & Hkill).
        split; [reflexivity|].
        exists ((true, o) :: pre), ob, post. split; [reflexivity|].
        split; [constructor; assumption|assumption].
    + exists (Done Returned), (t1 ++ []). split; [reflexivity|].
      split; [rewrite app_nil_r; assumption|].
      exists [], (true, o), obs. split; [reflexivity|].
      split; [constructor|]. right. cbn [snd].
      destruct o as [ready|errno]; cbn [turn_control] in Hc; [discriminate|].
      exists errno. split; [reflexivity|].
      destruct (Z.eqb_spec errno EINTR); [discriminate|assumption].
Qed.

(** ** Worker turns in the process *)

Lemma worker_step_calls junk s i o :
  exists ts t ec,
    step junk s (WorkerStep i o)
    = Some (set_exit_code ec (set_threads ts (add_log t s)))
    /\ (forall w, workers s !! i = Some w -> Forall (worker_call w) t)
    /\ (workers s !! i = None -> t = [])
    /\ length ts = length (threads s)
    /\ (forall j, j <> i -> ts !! j = threads s !! j)
    /\ (forall j, threads s !! j = Some Returned -> ts !! j = Some Returned)
    /\ ((sigpipe_turn s i o /\ ec = Some (Signaled SIGPIPE)
         /\ ts = threads s)
        \/ (~ sigpipe_turn s i o /\ ec = exit_code s)).
Proof.
  assert (Hsame : forall ts t,
             set_exit_code (exit_code s) (set_threads ts (add_log t s))
             = set_threads ts (add_log t s)).
  { intros ts t. apply (set_exit_code_id (set_threads ts (add_log t s))). }
  assert (Hstay : ~ sigpipe_turn s i o -> exists ts t ec,
             Some s = Some (set_exit_code ec (set_threads ts (add_log t s)))
             /\ (forall w, workers s !! i = Some w -> Forall (worker_call w) t)
             /\ (workers s !! i = None -> t = [])
             /\ length ts = length (threads s)
             /\ (forall j, j <> i -> ts !! j = threads s !! j)
             /\ (forall j, threads s !! j = Some Returned ->
                           ts !! j = Some Returned)
             /\ ((sigpipe_turn s i o /\ ec = Some (Signaled SIGPIPE)
                  /\ ts = threads s)
                 \/ (~ sigpipe_turn s i o /\ ec = exit_code s))).
  { intros Hno. exists (threads s), [], (exit_code s).
    rewrite add_log_nil.
    split; [destruct s; reflexivity|]. repeat split; auto. }
  unfold step, worker_step. destruct (exit_code s) eqn:Hex.
  { apply Hstay. intros (H & _). congruence. }
  destruct (threads s !! i) as [[|]|] eqn:Hth;
    try (apply Hstay; intros (_ & _ & H & _); congruence).
  destruct (workers s !! i) as [w|] eqn:Hw;
    [|apply Hstay; intros (_ & _ & _ & [x H] & _); congruence].
  assert (Hins : length (<[i := Returned]> (threads s)) = length (threads s)
                 /\ (forall j, j <> i ->
                       <[i := Returned]> (threads s) !! j = threads s !! j)
                 /\ (forall j, threads s !! j = Some Returned ->
                       <[i := Returned]> (threads s) !! j = Some Returned)).
  { split; [apply length_insert|]. split.
    - intros j Hj. apply list_lookup_insert_ne. congruence.
    - intros j Hj. destruct (Nat.eq_dec j i) as [->|Hne]; [congruence|].
      rewrite list_lookup_insert_ne by congruence. assumption. }
  destruct (running s) eqn:Hrun.
  - destruct (worker_iteration_calls junk w o) as (t & -> & Hok).
    cbn [exec].
    assert (Ht : (forall w', Some w = Some w' -> Forall (worker_call w') t)
                 /\ (Some w = None -> t = []))
      by (split; [intros w' [= <-]; assumption|discriminate]).
    destruct (kills o) eqn:Hk.
    + exists (threads s), t, (Some (Signaled SIGPIPE)).
      split; [destruct s; reflexivity|].
      split; [apply Ht|]. split; [apply Ht|]. repeat split; auto.
      left. unfold sigpipe_turn. rewrite Hw. repeat split; eauto.
    + assert (Hno : ~ sigpipe_turn s i o)
        by (intros (_ & _ & _ & _ & H); congruence).
      destruct (turn_control o).
      * exists (threads s), t, None. rewrite Hsame.
        split; [destruct s; reflexivity|].
        split; [apply Ht|]. split; [apply Ht|]. repeat split; auto.
      * exists (<[i := Returned]> (threads s)), t, None. rewrite Hsame.
        split; [reflexivity|].
        split; [apply Ht|]. split; [apply Ht|].
        destruct Hins as (H1 & H2 & H3). repeat split; auto.
  - exists (<[i := Returned]> (threads s)), [], None.
    rewrite Hsame, add_log_nil.
    split; [reflexivity|]. split; [intros; constructor|].
    split; [discriminate|].
    destruct Hins as (H1 & H2 & H3). repeat split; auto.
    right. split; [|reflexivity]. intros (_ & H & _). congruence.
Qed.

(** X5. A turn of a worker touches nothing but its own side of the
    process, unless it ends the process.  The calls it makes wait on and
    remove from its own multiplexer, read, write its own response, close
    and log (it never accepts, changes descriptor flags or adds to a
    multiplexer), and the flag, the cursor, the main thread, the pool and
    the other workers' threads are left as they were.  The turn ends the
    process exactly when the process is live, the flag is set, the worker
    is in its loop and the wait returns an event whose response is written
    to a broken connection: the process is then terminated by SIGPIPE.  In
    every other case the exit status is unchanged. *)
Theorem worker_turn_is_private junk s i o :
  exists s' t,
    step junk s (WorkerStep i o) = Some s'
    /\ log s' = log s ++ t
    /\ (forall w, workers s !! i = Some w -> Forall (worker_call w) t)
    /\ (workers s !! i = None -> t = [])
    /\ running s' = running s
    /\ current_worker s' = current_worker s
    /\ acceptor s' = acceptor s
    /\ workers s' = workers s
    /\ num_workers s' = num_workers s
    /\ server_fd s' = server_fd s
    /\ (forall j, j <> i -> threads s' !! j = threads s !! j)
    /\ ((sigpipe_turn s i o /\ exit_code s' = Some (Signaled SIGPIPE)
         /\ threads s' = threads s)
        \/ (~ sigpipe_turn s i o /\ exit_code s' = exit_code s)).
Proof.
  destruct (worker_step_calls junk s i o)
    as (ts & t & ec & -> & Hok & Hnone & _ & Hother & _ & Hec).
  eexists _, t. split; [reflexivity|].
  cbn [log running current_worker acceptor exit_code workers num_workers
       server_fd threads set_threads set_exit_code add_log].
  repeat (split; [first [reflexivity|assumption]|]). assumption.
Qed.

Lemma create_workers_ids env n : forall i ws (k : nat) w,
  create_workers env n i = inl ws -> ws !! k = Some w ->
  worker_id w = i + Z.of_nat k
  /\ epoll_fd w = epoll_create1_ret env (i + Z.of_nat k)
  /\ epoll_fd w <> -1.
Proof.
  induction n as [|n IH]; intros i ws k w; cbn [create_workers].
  - intros [= <-] Hk. discriminate Hk.
  - destruct (Z.eqb_spec (epoll_create1_ret env i) (-1)) as [|Hep];
      [discriminate|].
    destruct (negb (pthread_create_ret env i =? 0)); [discriminate|].
    destruct (create_workers env n (i + 1)) as [ws'|] eqn:Hrec; [|discriminate].
    intros [= <-] Hk. destruct k as [|k].
    + injection Hk as <-. cbn [worker_id epoll_fd]. rewrite Z.add_0_r. auto.
    + cbn in Hk. destruct (IH (i + 1) ws' k w Hrec Hk) as (Hid & Hfd & Hne).
      replace (i + Z.of_nat (S k)) with (i + 1 + Z.of_nat k) by lia. auto.
Qed.

(** The workers of the process [main] starts: worker [k] has identifier
    [k] and the multiplexer that the [k]-th [epoll_create1] returned. *)
Lemma main_start_workers env (k : nat) w :
  workers (main_start env) !! k = Some w ->
  worker_id w = Z.of_nat k
  /\ epoll_fd w = epoll_create1_ret env (Z.of_nat k)
  /\ Z.of_nat k < main_num_workers (sysconf_nproc env)
  /\ exit_code (main_start env) = None.
Proof.
  pose proof (main_num_workers_range (sysconf_nproc env)) as Hn.
  unfold main_start.
  destruct (negb (calloc_ok env)); [intros H; discriminate H|].
  destruct (listen_fd env); [|intros H; discriminate H].
  destruct (create_workers env _ 0) as [ws|] eqn:Hws;
    [|intros H; discriminate H].
  cbn [workers exit_code]. intros Hk.
  destruct (create_workers_ids env _ 0 ws k w Hws Hk) as (Hid & Hfd & _).
  apply create_workers_length in Hws. apply lookup_lt_Some in Hk.
  repeat split; try assumption; lia.
Qed.

Lemma run_workers junk acts : forall s s',
  inv s -> run junk s acts = Some s' -> workers s' = workers s.
Proof.
  induction acts as [|a acts IH]; intros s s' Hinv; cbn [run].
  - intros [= <-]. reflexivity.
  - destruct (step_effect junk s a Hinv)
      as (s1 & t & Hs1 & _ & (Hw & _) & _).
    rewrite Hs1. intros Hrun. rewrite <- Hw.
    apply (IH s1 s'); [eapply step_inv; eassumption|assumption].
Qed.

Lemma written_calls w t :
  Forall (worker_call w) t ->
  forall d, In d (written t) -> d = http_response (worker_id w).
Proof.
  induction 1 as [|e t He _ IH]; intros d; cbn [written]; [intros []|].
  destruct e; cbn [written]; try apply IH.
  cbn [In]. intros [<-|Hd]; [exact He|apply IH, Hd].
Qed.

(** X6. In the process that [main] starts, whatever has happened since,
    every response that a turn of worker [i] writes is the fixed response
    naming [i], and [i] is below the pool size: [main] numbers the workers
    0, 1, ... and each passes its own number to the handler. *)
Theorem response_names_serving_worker junk env acts :
  exists s,
    run junk (main_start env) acts = Some s
    /\ forall i o, exists s' t,
         step junk s (WorkerStep i o) = Some s'
         /\ log s' = log s ++ t
         /\ forall d, In d (written t) ->
              d = http_response (Z.of_nat i)
              /\ 0 <= Z.of_nat i < num_workers s.
Proof.
  destruct (run_defined junk acts (main_start env) (main_start_inv env))
    as (s & Hrun & _).
  exists s. split; [assumption|]. intros i o.
  pose proof (run_workers junk acts _ _ (main_start_inv env) Hrun) as Hws.
  pose proof (run_num_workers junk acts _ _ (main_start_inv env) Hrun) as Hn.
  destruct (worker_step_calls junk s i o)
    as (ts & t & ec & -> & Hok & Hnone & _).
  eexists _, t. split; [reflexivity|]. split; [reflexivity|].
  intros d Hd. destruct (workers s !! i) as [w|] eqn:Hw.
  - rewrite Hws in Hw.
    destruct (main_start_workers env i w Hw) as (Hid & _ & Hlt & _).
    rewrite (written_calls w t (Hok w eq_refl) d Hd), Hid, Hn.
    rewrite main_start_num_workers. split; [reflexivity|lia].
  - rewrite (Hnone eq_refl) in Hd. destruct Hd.
Qed.

(** ** Start-up *)

Lemma create_workers_inr env n : forall i msg,
  create_workers env n i = inr msg ->
  exists k, 0 <= k < Z.of_nat n
            /\ (epoll_create1_ret env (i + k) = -1
                \/ pthread_create_ret env (i + k) <> 0).
Proof.
  induction n as [|n IH]; intros i msg; cbn [create_workers]; [discriminate|].
  destruct (Z.eqb_spec (epoll_create1_ret env i) (-1)) as [Hep|Hep].
  { intros _. exists 0. rewrite Z.add_0_r. split; [lia|auto]. }
  destruct (Z.eqb_spec (pthread_create_ret env i) 0) as [Hth|Hth]; cbn [negb].
  - destruct (create_workers env n (i + 1)) as [ws|msg'] eqn:Hrec; [discriminate|].
    intros _. destruct (IH (i + 1) msg' Hrec) as (k & Hk & Hbad).
    exists (k + 1). replace (i + (k + 1)) with (i + 1 + k) by lia.
    split; [lia|assumption].
  - intros _. exists 0. rewrite Z.add_0_r. split; [lia|auto].
Qed.

Lemma run_exited junk acts s code :
  exit_code s = Some code -> run junk s acts = Some s.
Proof.
  intros Hex. induction acts as [|a acts IH]; [reflexivity|].
  cbn [run]. unfold step. rewrite Hex. exact IH.
Qed.

Lemma main_start_exit_code env :
  exit_code (main_start env) = None
  \/ exit_code (main_start env) = Some (Exited EXIT_FAILURE).
Proof.
  unfold main_start. destruct (negb (calloc_ok env)); [auto|].
  destruct (listen_fd env); [|auto].
  destruct (create_workers env _ 0); auto.
Qed.

(** X7. Start-up is all or nothing.  When the allocation, the listening
    socket and, for every worker of the pool, [epoll_create1] and
    [pthread_create] all succeed, [main] reaches its accept loop with the
    flag set, the cursor at 0 and every worker in its loop.  When any of
    them fails the process exits with [EXIT_FAILURE], and nothing happens
    in it any more. *)
Theorem main_start_all_or_nothing env :
  let n := main_num_workers (sysconf_nproc env) in
  let s := main_start env in
  ((calloc_ok env = true /\ (exists sfd, listen_fd env = Some sfd)
    /\ forall k, 0 <= k < n ->
         epoll_create1_ret env k <> -1 /\ pthread_create_ret env k = 0)
   <-> exit_code s = None)
  /\ (exit_code s = None ->
      listen_fd env = Some (server_fd s)
      /\ running s = true /\ current_worker s = 0 /\ acceptor s = Looping
      /\ threads s = repeat Looping (Z.to_nat n)
      /\ len (workers s) = n)
  /\ (exit_code s <> None ->
      exit_code s = Some (Exited EXIT_FAILURE)
      /\ forall junk acts, run junk s acts = Some s).
Proof.
  intros n s. pose proof (main_num_workers_range (sysconf_nproc env)) as Hn.
  fold n in Hn. subst s. unfold main_start. fold n.
  destruct (calloc_ok env) eqn:Hc; cbn [negb].
  2:{ split; [split; [intros (H & _); discriminate H|discriminate]|].
      split; [discriminate|]. intros _. split; [reflexivity|].
      intros junk acts. apply (run_exited junk acts _ (Exited EXIT_FAILURE)).
      reflexivity. }
  destruct (listen_fd env) as [sfd|] eqn:Hl.
  2:{ split; [split; [intros (_ & (x & H) & _); discriminate H|discriminate]|].
      split; [discriminate|]. intros _. split; [reflexivity|].
      intros junk acts. apply (run_exited junk acts _ (Exited EXIT_FAILURE)).
      reflexivity. }
  destruct (create_workers env (Z.to_nat n) 0) as [ws|msg] eqn:Hws.
  - cbn [exit_code server_fd running current_worker acceptor threads workers].
    apply create_workers_length in Hws as Hlen.
    split.
    { split; [reflexivity|]. intros _. split; [reflexivity|].
      split; [eauto|]. intros k Hk.
      destruct (lookup_lt_is_Some_2 ws (Z.to_nat k) ltac:(lia)) as [w Hw].
      destruct (create_workers_ids env _ 0 ws _ w Hws Hw) as (_ & Hfd & Hne).
      rewrite Z.add_0_l, Z2Nat.id in Hfd by lia. split; [congruence|].
      destruct (Z.eqb_spec (pthread_create_ret env k) 0) as [|Hth];
        [assumption|].
      exfalso.
      clear Hw Hfd Hne w. revert Hws. generalize ws.
      assert (Hgen : forall m i ws0,
                 i <= k < i + Z.of_nat m ->
                 create_workers env m i <> inl ws0).
      { induction m as [|m IH]; intros i ws0 Hik; [lia|].
        cbn [create_workers].
        destruct (epoll_create1_ret env i =? -1); [discriminate|].
        destruct (Z.eq_dec i k) as [->|Hne].
        - rewrite (proj2 (Z.eqb_neq _ _) Hth). discriminate.
        - destruct (negb (pthread_create_ret env i =? 0)); [discriminate|].
          destruct (create_workers env m (i + 1)) as [ws1|] eqn:Hrec;
            [|discriminate].
          exfalso. apply (IH (i + 1) ws1); [lia|assumption]. }
      intros ws0. apply Hgen. lia. }
    split; [|intros H; contradiction].
    intros _. repeat split. unfold len. lia.
  - destruct (create_workers_inr env _ 0 msg Hws) as (k & Hk & Hbad).
    rewrite Z.add_0_l in Hbad.
    split; [split; [|discriminate]|].
    { intros (_ & _ & Hall). destruct (Hall k ltac:(lia)) as [Hep Hth].
      destruct Hbad; contradiction. }
    split; [discriminate|]. intros _. split; [reflexivity|].
    intros junk acts. apply (run_exited junk acts _ (Exited EXIT_FAILURE)).
    reflexivity.
Qed.

Example htons_port : htons PORT = 36895.
Proof. reflexivity. Qed.

(** X8. [setup_socket] obtains the listening socket or ends the process:
    it returns the descriptor that [socket] gave exactly when [socket],
    [setsockopt], both [fcntl] calls, [bind] and [listen] all succeed, and
    exits with [EXIT_FAILURE] otherwise.  It makes no call after one that
    failed: it binds only a socket that has address reuse set and is
    non-blocking, and listens only on a socket it has bound.  What it binds
    is port 8080 on any address, and the backlog is [MAX_CONNECTIONS]. *)
Theorem setup_socket_all_or_nothing env :
  let fd := socket_ret env in
  exists r t,
    setup_socket env = Some (r, t)
    /\ (r = inl fd \/ r = inr (Exited EXIT_FAILURE))
    /\ (r = inl fd <->
        fd <> -1 /\ setsockopt_ret env <> -1 /\ server_getfl env <> -1
        /\ server_setfl env <> -1 /\ bind_ret env <> -1
        /\ listen_ret env <> -1)
    /\ hd_error t = Some (CallSocket AF_INET SOCK_STREAM 0 fd)
    /\ (forall fd' family addr port ret,
          In (CallBind fd' family addr port ret) t ->
          fd' = fd /\ family = AF_INET /\ addr = INADDR_ANY
          /\ port = htons PORT /\ ret = bind_ret env
          /\ fd <> -1 /\ setsockopt_ret env <> -1
          /\ server_getfl env <> -1 /\ server_setfl env <> -1
          /\ In (CallSetsockopt fd SOL_SOCKET SO_REUSEADDR 1
                   (setsockopt_ret env)) t
          /\ In (CallSys (EvFcntl fd F_SETFL
                            (Z.lor (server_getfl env) O_NONBLOCK)
                            (server_setfl env))) t)
    /\ (forall fd' backlog ret,
          In (CallListen fd' backlog ret) t ->
          fd' = fd /\ backlog = MAX_CONNECTIONS /\ ret = listen_ret env
          /\ bind_ret env <> -1
          /\ In (CallBind fd AF_INET INADDR_ANY (htons PORT) (bind_ret env)) t).
Proof.
  intros fd. unfold setup_socket, make_socket_non_blocking. fold fd.
  destruct (Z.eqb_spec fd (-1)) as [Hfd|Hfd];
    [|destruct (Z.eqb_spec (setsockopt_ret env) (-1)) as [Hso|Hso];
      [|cbn [bind emit];
        destruct (Z.eqb_spec (server_getfl env) (-1)) as [Hg|Hg];
        [|cbn [bind emit];
          destruct (Z.eqb_spec (server_setfl env) (-1)) as [Hs|Hs];
          [|cbn [bind emit ret];
            destruct (Z.eqb_spec (bind_ret env) (-1)) as [Hb|Hb];
            [|destruct (Z.eqb_spec (listen_ret env) (-1)) as [Hl|Hl]]]]]];
    cbn [bind emit ret perror app map Z.eqb];
    (eexists _, _; split; [reflexivity|]);
    (split; [auto|]);
    (split; [first [ split; [intros [= ->]; tauto | tauto ]
                   | split; [discriminate | tauto ]
                   | tauto ]|]);
    (split; [reflexivity|]);
    (split; intros; cbn [In] in *;
     repeat match goal with
            | H : _ \/ _ |- _ => destruct H as [H|H]
            | H : False |- _ => destruct H
            | H : CallBind _ _ _ _ _ = _ |- _ => first [discriminate H | injection H as <- <- <- <- <-]
            | H : CallListen _ _ _ = _ |- _ => first [discriminate H | injection H as <- <- <-]
            | H : _ = CallBind _ _ _ _ _ |- _ => first [discriminate H | injection H as <- <- <- <- <-]
            | H : _ = CallListen _ _ _ |- _ => first [discriminate H | injection H as <- <- <-]
            end;
     repeat split; auto 10).
Qed.

(** ** The main thread and the life of the process *)

Lemma calls_quiet w t : Forall (worker_call w) t -> registrations t = [].
Proof.
  induction 1 as [|e t He _ IH]; [reflexivity|].
  destruct e; cbn [registrations]; try assumption.
  destruct He as [_ ->]. change (EPOLL_CTL_DEL =? EPOLL_CTL_ADD) with false.
  assumption.
Qed.

Ltac close_status :=
  cbn [acceptor threads exit_code add_log set_running set_acceptor
       set_current_worker set_threads];
  repeat match goal with |- _ /\ _ => split end;
  first [congruence | solve [auto] | left; congruence].

(** What a step does to the threads and to the exit code. *)
Lemma step_status junk s a s' :
  inv s -> step junk s a = Some s' ->
  (acceptor s = Returned -> acceptor s' = Returned)
  /\ (forall j, threads s !! j = Some Returned ->
                threads s' !! j = Some Returned)
  /\ length (threads s') = length (threads s)
  /\ (exit_code s' = exit_code s
      \/ (a = Shutdown /\ exit_code s = None
          /\ exit_code s' = Some (Exited 0)
          /\ acceptor s = Returned
          /\ forallb is_returned (threads s) = true
          /\ threads s' = threads s)
      \/ (exists i o, a = WorkerStep i o /\ sigpipe_turn s i o
                      /\ exit_code s' = Some (Signaled SIGPIPE)
                      /\ threads s' = threads s)).
Proof.
  intros Hinv.
  assert (Hstay : Some s = Some s' ->
            (acceptor s = Returned -> acceptor s' = Returned)
            /\ (forall j, threads s !! j = Some Returned ->
                          threads s' !! j = Some Returned)
            /\ length (threads s') = length (threads s)
            /\ (exit_code s' = exit_code s
                \/ (a = Shutdown /\ exit_code s = None
                    /\ exit_code s' = Some (Exited 0)
                    /\ acceptor s = Returned
                    /\ forallb is_returned (threads s) = true
                    /\ threads s' = threads s)
                \/ (exists i o, a = WorkerStep i o /\ sigpipe_turn s i o
                                /\ exit_code s' = Some (Signaled SIGPIPE)
                                /\ threads s' = threads s))).
  { intros [= <-]. auto. }
  destruct (exit_code s) as [c|] eqn:Hex.
  { unfold step. rewrite Hex. exact Hstay. }
  destruct a as [signum|o|i o|].
  - unfold step. rewrite Hex, signal_handler_eq. intros [= <-]. close_status.
  - destruct (acceptor s) eqn:Hacc;
      [|unfold step, accept_step; rewrite Hex, Hacc; exact Hstay].
    destruct (running s) eqn:Hrun.
    + destruct (inv_index s Hinv Hex) as [w Hw].
      destruct (accept_step_live junk s o w Hinv Hex Hacc Hrun Hw)
        as (t & _ & ->).
      destruct (accept_fatal o); intros [= <-]; close_status.
    + unfold step, accept_step. rewrite Hex, Hacc, Hrun, leave_accept_loop_eq.
      intros [= <-]. close_status.
  - destruct (worker_step_calls junk s i o)
      as (ts & t & ec & -> & _ & _ & Hlen & _ & Hret & Hec).
    intros [= <-].
    cbn [acceptor threads exit_code add_log set_threads set_exit_code].
    split; [auto|]. split; [exact Hret|]. split; [exact Hlen|].
    destruct Hec as [(Hsp & -> & ->)|(Hno & ->)]; [|left; congruence].
    right. right. exists i, o. auto.
  - unfold step, shutdown. rewrite Hex.
    destruct (acceptor s) eqn:Hacc; [exact Hstay|].
    destruct (forallb is_returned (threads s)) eqn:Hall; [|exact Hstay].
    destruct Hinv as (Hn & Hc & Hlive). destruct (Hlive Hex) as [Hlen _].
    destruct (join_workers_defined (workers s) (Z.to_nat (num_workers s)) 0
                ltac:(lia) ltac:(lia)) as (t & Ht & _).
    rewrite Ht. cbn [bind emit printf lift format chars with_newline
                     list_ascii_of_string exec].
    intros [= <-]. cbn [acceptor threads exit_code add_log set_exit_code].
    split; [auto|]. split; [auto|]. split; [reflexivity|]. right. left.
    repeat split; assumption.
Qed.

(** Once the main thread has left its loop it stays out, and no connection
    is registered any more. *)
Lemma run_acceptor_returned junk acts : forall s s',
  inv s -> acceptor s = Returned -> run junk s acts = Some s' ->
  acceptor s' = Returned
  /\ current_worker s' = current_worker s
  /\ exists t, log s' = log s ++ t /\ registrations t = [].
Proof.
  induction acts as [|a acts IH]; intros s s' Hinv Hacc; cbn [run].
  - intros [= <-]. split; [assumption|]. split; [reflexivity|].
    exists []. rewrite app_nil_r. split; reflexivity.
  - destruct (step_effect junk s a Hinv)
      as (s1 & t1 & Hs1 & Hlog1 & _ & _ & Hcur & _).
    rewrite Hs1. intros Hrun.
    assert (Hinv1 : inv s1) by (eapply step_inv; eassumption).
    destruct (step_status junk s a s1 Hinv Hs1) as (Hacc1 & _).
    destruct (IH s1 s' Hinv1 (Hacc1 Hacc) Hrun) as (Hacc' & Hc' & t2 & Hlog2 & Hq2).
    assert (Hq1 : registrations t1 = [] /\ current_worker s1 = current_worker s).
    { destruct Hcur as [H|(o & w & -> & _ & _ & _ & Hreg & _)]; [exact H|].
      exfalso.
      assert (s1 = s) as ->.
      { unfold step, accept_step in Hs1.
        destruct (exit_code s); rewrite ?Hacc in Hs1; congruence. }
      rewrite <- (app_nil_r (log s)) in Hlog1 at 1.
      apply app_inv_head in Hlog1. subst t1. discriminate Hreg. }
    destruct Hq1 as [Hq1 Hc1].
    split; [assumption|]. split; [congruence|].
    exists (t1 ++ t2). rewrite Hlog2, Hlog1, <- app_assoc.
    split; [reflexivity|]. rewrite registrations_app, Hq1, Hq2. reflexivity.
Qed.

(** X9. A turn of the accept loop that accepts a connection either
    registers its socket with the multiplexer of the worker at the cursor
    and moves the cursor on, or closes the socket and leaves the cursor;
    never both and never neither.  The main thread stays in its loop. *)
Theorem accept_turn_registers_or_closes junk s o :
  inv s -> exit_code s = None -> acceptor s = Looping -> running s = true ->
  accept_ret o <> -1 ->
  exists w s' t,
    index (workers s) (current_worker s) = Some w
    /\ step junk s (AcceptStep o) = Some s'
    /\ log s' = log s ++ t
    /\ acceptor s' = Looping
    /\ ((registers o = true
         /\ registrations t = [(epoll_fd w, accept_ret o)]
         /\ closed t = []
         /\ current_worker s' = (current_worker s + 1) mod num_workers s)
        \/ (registers o = false
            /\ registrations t = []
            /\ closed t = [accept_ret o]
            /\ current_worker s' = current_worker s)).
Proof.
  intros Hinv Hex Hacc Hrun Hr.
  destruct (inv_index s Hinv Hex) as [w Hw]. exists w.
  destruct Hinv as (Hn & Hc & _).
  assert (Hgo : forall c' t,
            accept_iteration s o = Some (Done (Next, c'), t) ->
            step junk s (AcceptStep o)
            = Some (set_current_worker c' (add_log t s))).
  { intros c' t Hit. unfold step, accept_step.
    rewrite Hex, Hacc, Hrun, Hit. reflexivity. }
  destruct (registers o) eqn:Hreg.
  - pose proof (accept_iteration_registers s o w Hreg Hw ltac:(lia)) as Hit.
    rewrite cursor_advance in Hit by assumption.
    eexists _, _. split; [assumption|]. split; [apply Hgo, Hit|].
    split; [reflexivity|]. split; [exact Hacc|]. left.
    split; [reflexivity|]. split; [|split; reflexivity].
    unfold registers in Hreg. apply andb_true_iff in Hreg as [_ Hctl].
    cbn [registrations]. change (EPOLL_CTL_ADD =? EPOLL_CTL_ADD) with true.
    rewrite Hctl. reflexivity.
  - destruct (Z.eq_dec (fcntl_getfl o) (-1)) as [Hg|Hg].
    { eexists _, _. split; [assumption|].
      split; [apply Hgo, accept_iteration_getfl_fails; assumption|].
      split; [reflexivity|]. split; [exact Hacc|]. right.
      repeat split. }
    destruct (Z.eq_dec (fcntl_setfl o) (-1)) as [Hs|Hs].
    { eexists _, _. split; [assumption|].
      split; [apply Hgo, accept_iteration_setfl_fails; assumption|].
      split; [reflexivity|]. split; [exact Hacc|]. right.
      repeat split. }
    destruct (Z.eq_dec (epoll_ctl_ret o) (-1)) as [Hctl|Hctl].
    { eexists _, _. split; [assumption|].
      split; [apply Hgo, (accept_iteration_ctl_fails s o w); assumption|].
      split; [reflexivity|]. split; [exact Hacc|]. right.
      repeat split. }
    exfalso. unfold registers, accepted in Hreg.
    apply Z.eqb_neq in Hr, Hg, Hs, Hctl.
    rewrite Hr, Hg, Hs, Hctl in Hreg. discriminate.
Qed.

Lemma accept_turn_registers_or_closes_witness :
  let o := mk_accept_outcome 9 0 "127.0.0.1" 50000 (-1) 0 0 in
  inv demo_server /\ exit_code demo_server = None /\
  acceptor demo_server = Looping /\ running demo_server = true /\
  accept_ret o <> -1 /\
  exists w s' t,
    index (workers demo_server) (current_worker demo_server) = Some w
    /\ step stale demo_server (AcceptStep o) = Some s'
    /\ log s' = log demo_server ++ t
    /\ acceptor s' = Looping
    /\ ((registers o = true
         /\ registrations t = [(epoll_fd w, accept_ret o)]
         /\ closed t = []
         /\ current_worker s'
            = (current_worker demo_server + 1) mod num_workers demo_server)
        \/ (registers o = false
            /\ registrations t = []
            /\ closed t = [accept_ret o]
            /\ current_worker s' = current_worker demo_server)).
Proof.
  intros o. split; [apply main_start_inv|].
  do 3 (split; [reflexivity|]). split; [discriminate|].
  apply (accept_turn_registers_or_closes stale demo_server o
           (main_start_inv (demo_env 4)) eq_refl eq_refl eq_refl).
  discriminate.
Defined.

(** X10. When [accept] fails with EINTR, EAGAIN or EWOULDBLOCK the turn is
    the [accept] call and nothing else, and the loop goes on.  When it
    fails with any other error the main thread reports it and leaves its
    loop for good, although the flag is still set: the workers are as they
    were and the process has not exited, but whatever happens afterwards no
    connection is registered any more. *)
Theorem accept_error_handling junk s o :
  inv s -> exit_code s = None -> acceptor s = Looping -> running s = true ->
  accept_ret o = -1 ->
  (accept_fatal o = false ->
     step junk s (AcceptStep o)
     = Some (add_log [EvAccept (server_fd s) (-1)] s))
  /\ (accept_fatal o = true ->
      exists s',
        step junk s (AcceptStep o) = Some s'
        /\ log s'
           = log s ++ [EvAccept (server_fd s) (-1); EvPerror "accept";
                       EvStdout (chars "Shutting down server..." ++ [LF])]
        /\ acceptor s' = Returned
        /\ running s' = true
        /\ threads s' = threads s
        /\ exit_code s' = None
        /\ current_worker s' = current_worker s
        /\ forall acts, exists s2 t,
             run junk s' acts = Some s2
             /\ log s2 = log s' ++ t
             /\ registrations t = []
             /\ acceptor s2 = Returned).
Proof.
  intros Hinv Hex Hacc Hrun Hr. split.
  - intros Hf. unfold step, accept_step. rewrite Hex, Hacc, Hrun.
    rewrite accept_iteration_retry by assumption. cbn [exec fst snd].
    destruct s; reflexivity.
  - intros Hf.
    assert (Hstep : step junk s (AcceptStep o)
              = Some (set_acceptor Returned
                        (add_log [EvStdout (chars "Shutting down server..." ++ [LF])]
                           (set_current_worker (current_worker s)
                              (add_log [EvAccept (server_fd s) (-1);
                                        EvPerror "accept"] s))))).
    { unfold step, accept_step. rewrite Hex, Hacc, Hrun.
      rewrite accept_iteration_fatal by assumption. reflexivity. }
    eexists. split; [exact Hstep|].
    cbn [log acceptor running threads exit_code current_worker add_log
         set_acceptor set_current_worker].
    split; [rewrite <- app_assoc; reflexivity|].
    do 5 (split; [first [reflexivity|assumption]|]).
    intros acts.
    pose proof (step_inv junk s _ _ Hinv Hstep) as Hinv'.
    destruct (run_defined junk acts _ Hinv') as (s2 & Hrun2 & _).
    destruct (run_acceptor_returned junk acts _ s2 Hinv' eq_refl Hrun2)
      as (Hacc2 & _ & t & Hlog & Hq).
    exists s2, t. auto.
Qed.

Lemma accept_error_handling_witness :
  let again := mk_accept_outcome (-1) EAGAIN "" 0 0 0 0 in
  let badf := mk_accept_outcome (-1) 9 "" 0 0 0 0 in
  inv demo_server /\ exit_code demo_server = None /\
  acceptor demo_server = Looping /\ running demo_server = true /\
  accept_ret again = -1 /\ accept_fatal again = false /\
  accept_fatal badf = true /\
  step stale demo_server (AcceptStep again)
  = Some (add_log [EvAccept 3 (-1)] demo_server) /\
  exists s',
    step stale demo_server (AcceptStep badf) = Some s'
    /\ acceptor s' = Returned /\ running s' = true /\ exit_code s' = None.
Proof.
  intros again badf. split; [apply main_start_inv|].
  do 6 (split; [reflexivity|]).
  pose proof (accept_error_handling stale demo_server again
                (main_start_inv (demo_env 4)) eq_refl eq_refl eq_refl eq_refl)
    as [Hagain _].
  pose proof (accept_error_handling stale demo_server badf
                (main_start_inv (demo_env 4)) eq_refl eq_refl eq_refl eq_refl)
    as [_ Hbad].
  split; [apply (Hagain eq_refl)|].
  destruct (Hbad eq_refl) as (s' & Hs' & _ & Ha & Hr & _ & He & _).
  exists s'. auto.
Defined.

Lemma join_workers_closes ws n : forall i t,
  0 <= i ->
  join_workers ws n i = Some (Done tt, t) ->
  registrations t = []
  /\ forall k w, i <= k < i + Z.of_nat n -> index ws k = Some w ->
       In (EvJoin k) t /\ In (EvClose (epoll_fd w)) t.
Proof.
  induction n as [|n IH]; intros i t Hi; cbn [join_workers].
  - intros [= <-]. split; [reflexivity|]. intros k w Hk. lia.
  - destruct (index ws i) as [wi|] eqn:Hwi; [|discriminate].
    cbn [lift ret bind emit close].
    destruct (join_workers ws n (i + 1)) as [[[[]|signum] t']|] eqn:Hrec;
      [|discriminate|discriminate].
    intros [= <-]. destruct (IH (i + 1) t' ltac:(lia) Hrec) as [Hq Hin].
    split; [exact Hq|]. intros k w Hk Hw.
    destruct (Z.eq_dec k i) as [->|Hne].
    + assert (w = wi) as -> by congruence. cbn [app In]. auto.
    + destruct (Hin k w ltac:(lia) Hw) as [Hj Hc]. cbn [app In]. auto.
Qed.

Lemma all_returned (ts : list thread_status) :
  (forall j, (j < length ts)%nat -> ts !! j = Some Returned) ->
  forallb is_returned ts = true.
Proof.
  induction ts as [|st ts IH]; intros Hall; [reflexivity|].
  cbn [forallb]. pose proof (Hall 0%nat ltac:(cbn; lia)) as H0.
  injection H0 as ->. cbn [is_returned andb]. apply IH.
  intros j Hj. apply (Hall (S j)). cbn. lia.
Qed.

(** With the flag cleared, one turn of each worker brings every worker
    out of its loop, without a system call. *)
Lemma worker_turns_drain junk os : forall i s,
  exit_code s = None -> running s = false ->
  length (threads s) = length (workers s) ->
  (i + length os <= length (threads s))%nat ->
  (forall j, (j < i)%nat -> threads s !! j = Some Returned) ->
  exists ts,
    run junk s (worker_turns i os) = Some (set_threads ts s)
    /\ length ts = length (threads s)
    /\ forall j, (j < i + length os)%nat -> ts !! j = Some Returned.
Proof.
  induction os as [|o os IH]; intros i s Hex Hrun Hlen Hi Hbelow.
  - exists (threads s). cbn [worker_turns run]. split; [destruct s; reflexivity|].
    split; [reflexivity|]. intros j Hj. apply Hbelow. cbn [length] in Hj. lia.
  - cbn [length] in Hi. cbn [worker_turns run].
    destruct (lookup_lt_is_Some_2 (threads s) i ltac:(lia)) as [st Hst].
    destruct (lookup_lt_is_Some_2 (workers s) i ltac:(lia)) as [w Hw].
    set (ts1 := <[i := Returned]> (threads s)).
    assert (Hstep : step junk s (WorkerStep i o) = Some (set_threads ts1 s)).
    { unfold step, worker_step. rewrite Hex, Hst, Hw, Hrun.
      destruct st; [reflexivity|]. unfold ts1.
      rewrite list_insert_id by assumption. destruct s; reflexivity. }
    rewrite Hstep.
    assert (Hlen1 : length ts1 = length (threads s)) by apply length_insert.
    destruct (IH (S i) (set_threads ts1 s)) as (ts & Hrun' & Hlen' & Hall);
      cbn [exit_code running threads workers set_threads]; try assumption;
      try lia.
    { intros j Hj. destruct (Nat.eq_dec j i) as [->|Hne].
      - unfold ts1. apply list_lookup_insert_eq. lia.
      - unfold ts1. rewrite list_lookup_insert_ne by congruence.
        apply Hbelow. lia. }
    exists ts. split; [rewrite Hrun'; reflexivity|].
    cbn [threads set_threads] in Hlen'. split; [lia|].
    intros j Hj. apply Hall. cbn [length] in Hj. lia.
Qed.

Lemma join_workers_no_free ws n : forall i t,
  join_workers ws n i = Some (Done tt, t) -> ~ In EvFree t.
Proof.
  induction n as [|n IH]; intros i t; cbn [join_workers].
  - intros [= <-] [].
  - destruct (index ws i) as [wi|]; [|discriminate].
    cbn [lift ret bind emit close].
    destruct (join_workers ws n (i + 1)) as [[[[]|signum] t']|] eqn:Hrec;
      [|discriminate|discriminate].
    intros [= <-]. cbn [app In].
    intros [H|[H|H]]; [discriminate H|discriminate H|].
    exact (IH (i + 1) t' Hrec H).
Qed.

(** X11. Graceful shutdown, for a signal delivered between two turns.  In
    a live process, whatever its state: after the signal, one more turn of
    the main thread and one more turn of every worker bring all threads out
    of their loops, and the main thread then joins every worker and closes
    every worker's multiplexer, after that frees the pool, once, prints
    the completion line and the process exits with status 0.  The handler
    has closed the listening socket. *)
Theorem graceful_shutdown junk s signum o os :
  inv s -> exit_code s = None -> length os = length (threads s) ->
  exists s' pre,
    run junk s (Signal signum :: AcceptStep o :: worker_turns 0 os ++ [Shutdown])
    = Some s'
    /\ exit_code s' = Some (Exited 0)
    /\ running s' = false
    /\ acceptor s' = Returned
    /\ forallb is_returned (threads s') = true
    /\ log s'
       = log s ++ pre
         ++ [EvFree; EvStdout (chars "Server shutdown complete" ++ [LF])]
    /\ In (EvClose (server_fd s)) pre
    /\ (forall (k : nat) w, workers s !! k = Some w ->
          In (EvJoin (Z.of_nat k)) pre /\ In (EvClose (epoll_fd w)) pre)
    /\ ~ In EvFree pre.
Proof.
  intros Hinv Hex Hos.
  destruct Hinv as (Hn & Hc & Hlive). destruct (Hlive Hex) as [Hlen Hth].
  cbn [run]. unfold step at 1. rewrite Hex, signal_handler_eq.
  set (s1 := add_log _ (set_running false _)).
  (* the main thread leaves its loop, if it has not yet *)
  assert (Hacc : exists t2 s2,
             step junk s1 (AcceptStep o) = Some s2
             /\ s2 = set_acceptor Returned (add_log t2 s1)
             /\ ~ In EvFree t2).
  { unfold step, accept_step. change (exit_code s1) with (exit_code s).
    change (acceptor s1) with (acceptor s). change (running s1) with false.
    rewrite Hex. destruct (acceptor s) eqn:Ha.
    - rewrite leave_accept_loop_eq. eexists _, _. split; [reflexivity|].
      split; [reflexivity|]. intros [H|[]]. discriminate H.
    - exists [], s1. split; [reflexivity|]. rewrite add_log_nil.
      split; [|intros []]. unfold s1. destruct s. cbn in *. subst.
      reflexivity. }
  destruct Hacc as (t2 & s2 & Hs2 & Heq2 & Hq2). rewrite Hs2.
  rewrite run_app.
  assert (Hex2 : exit_code s2 = None) by (subst s2; exact Hex).
  assert (Hrun2 : running s2 = false) by (subst s2; reflexivity).
  assert (Hth2 : threads s2 = threads s) by (subst s2; reflexivity).
  assert (Hws2 : workers s2 = workers s) by (subst s2; reflexivity).
  destruct (worker_turns_drain junk os 0 s2 Hex2 Hrun2
              ltac:(rewrite Hth2, Hws2; exact Hth)
              ltac:(rewrite Hth2; lia)
              ltac:(intros j Hj; lia))
    as (ts & Hdrain & Hlents & Hall).
  rewrite Hdrain. cbn [run]. unfold step, shutdown.
  assert (Hts : forallb is_returned ts = true).
  { apply all_returned. intros j Hj. apply Hall. rewrite Hth2 in Hlents. lia. }
  subst s2 s1.
  cbn [exit_code acceptor threads workers num_workers set_threads
       set_acceptor add_log set_running].
  rewrite Hex, Hts.
  destruct (join_workers_defined (workers s) (Z.to_nat (num_workers s)) 0
              ltac:(lia) ltac:(lia)) as (tj & Hj & _).
  destruct (join_workers_closes (workers s) _ 0 tj ltac:(lia) Hj) as [_ Hinj].
  pose proof (join_workers_no_free (workers s) _ 0 tj Hj) as Hnf.
  rewrite Hj.
  cbn [bind emit printf lift format chars with_newline list_ascii_of_string
       exec ret].
  eexists _, (([EvStdout (LF :: chars "Received signal " ++ itoa signum ++
                          chars ", shutting down..." ++ [LF])]
               ++ [EvClose (server_fd s)]) ++ t2 ++ tj).
  split; [reflexivity|].
  cbn [exit_code running acceptor threads log set_exit_code set_threads
       set_acceptor add_log set_running].
  do 4 (split; [first [reflexivity|assumption]|]).
  split; [rewrite <- !app_assoc; reflexivity|].
  split; [|split].
  - rewrite !in_app_iff. cbn [In]. auto 10.
  - intros k w Hk.
    assert (Hidx : index (workers s) (Z.of_nat k) = Some w)
      by (rewrite index_lookup; assumption).
    apply lookup_lt_Some in Hk as Hlt. unfold len in Hlen.
    destruct (Hinj (Z.of_nat k) w ltac:(lia) Hidx) as [H1 H2].
    split; rewrite !in_app_iff; auto 10.
  - rewrite !in_app_iff. cbn [In].
    intros [[[H|[]]|[H|[]]]|[H|H]];
      [discriminate H|discriminate H|exact (Hq2 H)|exact (Hnf H)].
Qed.

Lemma graceful_shutdown_witness :
  let o := mk_accept_outcome (-1) 9 "" 0 0 0 0 in
  let os := [WaitReady []; WaitErr EINTR; WaitReady []; WaitReady []] in
  inv demo_server /\ exit_code demo_server = None /\
  length os = length (threads demo_server) /\
  exists s',
    run stale demo_server
      (Signal 15 :: AcceptStep o :: worker_turns 0 os ++ [Shutdown]) = Some s'
    /\ exit_code s' = Some (Exited 0) /\ running s' = false.
Proof.
  intros o os. split; [apply main_start_inv|].
  do 2 (split; [reflexivity|]).
  destruct (graceful_shutdown stale demo_server 15 o os
              (main_start_inv (demo_env 4)) eq_refl eq_refl)
    as (s' & t & Hrun & Hex & Hflag & _).
  exists s'. auto.
Defined.

Lemma run_exit junk acts : forall s s',
  inv s -> exit_code s = None -> run junk s acts = Some s' ->
  exit_code s' = None
  \/ (exit_code s' = Some (Exited 0) /\ acceptor s' = Returned
      /\ forallb is_returned (threads s') = true)
  \/ (exit_code s' = Some (Signaled SIGPIPE)
      /\ exists i o, In (WorkerStep i o) acts /\ kills o = true).
Proof.
  induction acts as [|a acts IH]; intros s s' Hinv Hex; cbn [run].
  - intros [= <-]. auto.
  - destruct (step junk s a) as [s1|] eqn:Hs1; [|discriminate].
    intros Hrun.
    pose proof (step_inv junk s a s1 Hinv Hs1) as Hinv1.
    destruct (step_status junk s a s1 Hinv Hs1) as (Hacc & _ & _ & Hexit).
    destruct Hexit
      as [Hsame|[(_ & _ & Hex1 & Ha & Hall & Hth)
                |(i & o & -> & Hsp & Hex1 & _)]].
    + destruct (IH s1 s' Hinv1 ltac:(congruence) Hrun)
        as [H|[H|(H & i & o & Hin & Hk)]]; [auto|auto|].
      right. right. split; [assumption|]. exists i, o.
      split; [right; assumption|assumption].
    + rewrite (run_exited junk acts s1 (Exited 0) Hex1) in Hrun.
      injection Hrun as <-. right. left. rewrite Hth. auto.
    + rewrite (run_exited junk acts s1 (Signaled SIGPIPE) Hex1) in Hrun.
      injection Hrun as <-. right. right. split; [assumption|].
      exists i, o. split; [left; reflexivity|].
      destruct Hsp as (_ & _ & _ & _ & Hk). exact Hk.
Qed.

(** X12. The process that [main] starts ends in three ways only: it exits
    with [EXIT_FAILURE] at start-up, before the accept loop is entered; it
    is terminated by SIGPIPE in the turn of a worker whose wait returned an
    event whose response was written to a broken connection; or it exits
    with status 0, and then only once the main thread has left its accept
    loop and every worker thread has returned. *)
Theorem exit_only_after_join junk env acts :
  exists s',
    run junk (main_start env) acts = Some s'
    /\ (exit_code s' = None
        \/ (exit_code s' = Some (Exited EXIT_FAILURE) /\ s' = main_start env)
        \/ (exit_code s' = Some (Signaled SIGPIPE)
            /\ exit_code (main_start env) = None
            /\ exists i o, In (WorkerStep i o) acts /\ kills o = true)
        \/ (exit_code s' = Some (Exited 0)
            /\ exit_code (main_start env) = None
            /\ acceptor s' = Returned
            /\ forallb is_returned (threads s') = true)).
Proof.
  destruct (run_defined junk acts (main_start env) (main_start_inv env))
    as (s' & Hrun & _).
  exists s'. split; [assumption|].
  destruct (exit_code (main_start env)) as [code|] eqn:Hex.
  - rewrite (run_exited junk acts _ code Hex) in Hrun. injection Hrun as <-.
    right. left. split; [|reflexivity]. rewrite Hex.
    destruct (main_start_exit_code env) as [H|H]; congruence.
  - destruct (run_exit junk acts _ s' (main_start_inv env) Hex Hrun)
      as [H|[(H0 & Ha & Hall)|(Hk & Hin)]]; [auto|auto 10|auto 10].
Qed.

(** X13. The signal handler is not idempotent: every signal delivered to
    the live process closes the listening descriptor again, so after [n]
    signals the descriptor number has been closed [n] times.  The flag is
    false from the first signal on, and the signals alone change nothing
    else: the threads stay where they are and the process has not
    exited. *)
Theorem every_signal_closes_listener junk (sigs : list Z) : forall s,
  exit_code s = None ->
  exists s' t,
    run junk s (Signal <$> sigs) = Some s'
    /\ log s' = log s ++ t
    /\ closed t = repeat (server_fd s) (length sigs)
    /\ running s' = match sigs with [] => running s | _ :: _ => false end
    /\ exit_code s' = None
    /\ acceptor s' = acceptor s
    /\ threads s' = threads s
    /\ current_worker s' = current_worker s.
Proof.
  induction sigs as [|signum sigs IH]; intros s Hex.
  - exists s, []. rewrite app_nil_r. repeat split. assumption.
  - cbn [fmap list_fmap run]. unfold step. rewrite Hex, signal_handler_eq.
    set (s1 := add_log _ (set_running false _)).
    destruct (IH s1 Hex) as (s' & t & Hrun & Hlog & Hcl & Hflag & Hex' & Ha & Hth & Hc).
    exists s', ([EvStdout (LF :: chars "Received signal " ++ itoa signum ++
                          chars ", shutting down..." ++ [LF]);
                 EvClose (server_fd s)] ++ t).
    split; [exact Hrun|]. split.
    { rewrite Hlog. unfold s1. cbn [log add_log set_running].
      rewrite <- !app_assoc. reflexivity. }
    split; [cbn [app closed length repeat]; rewrite Hcl; reflexivity|].
    split; [rewrite Hflag; destruct sigs; reflexivity|].
    repeat split; assumption.
Qed.

Lemma every_signal_closes_listener_witness :
  exit_code demo_server = None /\
  exists s' t,
    run stale demo_server (Signal <$> [2; 15]) = Some s'
    /\ log s' = log demo_server ++ t
    /\ closed t = [3; 3]
    /\ running s' = false.
Proof.
  split; [reflexivity|].
  destruct (every_signal_closes_listener stale [2; 15] demo_server eq_refl)
    as (s' & t & Hrun & Hlog & Hcl & Hflag & _).
  exists s', t. auto.
Defined.

(** ** Use of the multiplexers *)

Lemma lookup_In {A} (l : list A) (i : nat) x : l !! i = Some x -> In x l.
Proof. intros H. apply list_elem_of_In. eapply list_elem_of_lookup_2, H. Qed.

Lemma index_In {A} (a : list A) i x : index a i = Some x -> In x a.
Proof.
  unfold index. destruct (0 <=? i); [apply lookup_In|discriminate].
Qed.

Lemma worker_calls_use ws w t :
  In w ws -> Forall (worker_call w) t -> Forall (multiplexer_use ws) t.
Proof.
  intros Hw. induction 1 as [|e t He _ IH]; constructor; [|assumption].
  destruct e; cbn [multiplexer_use]; try exact I.
  destruct He as [-> ->]. split; [eauto|auto].
Qed.

Lemma accept_iteration_uses s o w :
  1 <= num_workers s <= MAX_WORKERS ->
  0 <= current_worker s < num_workers s ->
  index (workers s) (current_worker s) = Some w ->
  exists r t,
    accept_iteration s o = Some (Done r, t)
    /\ Forall (multiplexer_use (workers s)) t.
Proof.
  intros Hn Hc Hw. pose proof (index_In _ _ _ Hw) as Hin.
  assert (Hadd : forall fd r,
             multiplexer_use (workers s)
               (EvEpollCtl (epoll_fd w) EPOLL_CTL_ADD fd
                  (Z.lor EPOLLIN EPOLLET) r)).
  { intros fd r. cbn [multiplexer_use]. split; [eauto|auto]. }
  destruct (registers o) eqn:Hreg.
  - rewrite (accept_iteration_registers s o w Hreg Hw) by lia.
    eexists _, _. split; [reflexivity|].
    repeat (constructor; [first [exact I|apply Hadd]|]). constructor.
  - destruct (Z.eq_dec (accept_ret o) (-1)) as [Hr|Hr].
    + destruct (accept_fatal o) eqn:Hf.
      * rewrite accept_iteration_fatal by assumption.
        eexists _, _. split; [reflexivity|]. repeat constructor.
      * rewrite accept_iteration_retry by assumption.
        eexists _, _. split; [reflexivity|]. repeat constructor.
    + destruct (Z.eq_dec (fcntl_getfl o) (-1)) as [Hg|Hg].
      { rewrite accept_iteration_getfl_fails by assumption.
        eexists _, _. split; [reflexivity|]. repeat constructor. }
      destruct (Z.eq_dec (fcntl_setfl o) (-1)) as [Hs|Hs].
      { rewrite accept_iteration_setfl_fails by assumption.
        eexists _, _. split; [reflexivity|]. repeat constructor. }
      destruct (Z.eq_dec (epoll_ctl_ret o) (-1)) as [Hctl|Hctl].
      { rewrite (accept_iteration_ctl_fails s o w) by assumption.
        eexists _, _. split; [reflexivity|].
        repeat (constructor; [first [exact I|apply Hadd]|]). constructor. }
      exfalso. unfold registers, accepted in Hreg.
      apply Z.eqb_neq in Hr, Hg, Hs, Hctl.
      rewrite Hr, Hg, Hs, Hctl in Hreg. discriminate.
Qed.

Lemma join_workers_uses ws' ws n : forall i t,
  join_workers ws n i = Some (Done tt, t) -> Forall (multiplexer_use ws') t.
Proof.
  induction n as [|n IH]; intros i t; cbn [join_workers].
  - intros [= <-]. constructor.
  - destruct (index ws i) as [wi|]; [|discriminate].
    cbn [lift ret bind emit close].
    destruct (join_workers ws n (i + 1)) as [[[[]|signum] t']|] eqn:Hrec;
      [|discriminate|discriminate].
    intros [= <-]. cbn [app]. do 2 (constructor; [exact I|]).
    eapply IH, Hrec.
Qed.

Lemma step_uses junk s a :
  inv s ->
  exists s' t,
    step junk s a = Some s'
    /\ log s' = log s ++ t
    /\ Forall (multiplexer_use (workers s)) t.
Proof.
  intros Hinv.
  assert (Hstay : exists s' t,
             Some s = Some s' /\ log s' = log s ++ t
             /\ Forall (multiplexer_use (workers s)) t).
  { exists s, []. rewrite app_nil_r. repeat split. constructor. }
  destruct (exit_code s) as [c|] eqn:Hex.
  { unfold step. rewrite Hex. exact Hstay. }
  destruct a as [signum|o|i o|].
  - unfold step. rewrite Hex, signal_handler_eq. eexists _, _.
    split; [reflexivity|]. cbn [log add_log set_running].
    rewrite <- app_assoc. split; [reflexivity|]. repeat constructor.
  - unfold step, accept_step. rewrite Hex.
    destruct (acceptor s); [|exact Hstay].
    destruct (running s).
    + destruct (inv_index s Hinv Hex) as [w Hw].
      destruct Hinv as (Hn & Hc & _).
      destruct (accept_iteration_uses s o w Hn Hc Hw) as ([c c'] & t & -> & Hok).
      cbn [exec fst snd]. destruct c.
      * eexists _, _. split; [reflexivity|].
        cbn [log add_log set_current_worker]. split; [reflexivity|assumption].
      * rewrite leave_accept_loop_eq. eexists _, _. split; [reflexivity|].
        cbn [log add_log set_current_worker set_acceptor].
        rewrite <- app_assoc. split; [reflexivity|].
        apply Forall_app. split; [assumption|repeat constructor].
    + rewrite leave_accept_loop_eq. eexists _, _. split; [reflexivity|].
      cbn [log add_log set_acceptor]. split; [reflexivity|repeat constructor].
  - destruct (worker_step_calls junk s i o)
      as (ts & t & ec & -> & Hok & Hnone & _).
    eexists _, t. split; [reflexivity|]. split; [reflexivity|].
    destruct (workers s !! i) as [w|] eqn:Hw.
    + apply (worker_calls_use _ w); [eapply lookup_In, Hw|apply Hok; reflexivity].
    + rewrite (Hnone eq_refl). constructor.
  - unfold step, shutdown. rewrite Hex.
    destruct (acceptor s); [exact Hstay|].
    destruct (forallb is_returned (threads s)); [|exact Hstay].
    destruct Hinv as (Hn & Hc & Hlive). destruct (Hlive Hex) as [Hlen _].
    destruct (join_workers_defined (workers s) (Z.to_nat (num_workers s)) 0
                ltac:(lia) ltac:(lia)) as (t & Ht & _).
    rewrite Ht. cbn [bind emit printf lift format chars with_newline
                     list_ascii_of_string exec ret].
    eexists _, _. split; [reflexivity|]. cbn [log add_log set_exit_code].
    split; [reflexivity|]. apply Forall_app.
    split; [eapply join_workers_uses, Ht|repeat constructor].
Qed.

(** X14. Over any run of the process that [main] starts, the multiplexers
    are used in two ways only, and only those of the pool's workers: a
    socket is added for readable events, edge-triggered (the mask is
    [EPOLLIN | EPOLLET], bits 0 and 31 and no other), or a socket is
    removed. *)
Theorem multiplexers_used_for_reading junk env acts :
  exists s' t,
    run junk (main_start env) acts = Some s'
    /\ log s' = log (main_start env) ++ t
    /\ Forall (multiplexer_use (workers (main_start env))) t
    /\ forall n, 0 <= n ->
         Z.testbit (Z.lor EPOLLIN EPOLLET) n = (n =? 0) || (n =? 31).
Proof.
  assert (Hrun : forall acts s, inv s ->
            exists s' t,
              run junk s acts = Some s' /\ log s' = log s ++ t
              /\ Forall (multiplexer_use (workers s)) t).
  { clear acts. induction acts as [|a acts IH]; intros s Hinv.
    - exists s, []. rewrite app_nil_r. repeat split. constructor.
    - destruct (step_uses junk s a Hinv) as (s1 & t1 & Hs1 & Hlog1 & Hok1).
      pose proof (step_inv junk s a s1 Hinv Hs1) as Hinv1.
      destruct (IH s1 Hinv1) as (s' & t2 & Hrun2 & Hlog2 & Hok2).
      destruct (step_effect junk s a Hinv)
        as (s1' & _ & Hs1' & _ & (Hws & _) & _).
      assert (s1' = s1) as -> by congruence.
      exists s', (t1 ++ t2). cbn [run]. rewrite Hs1.
      split; [assumption|]. rewrite Hlog2, Hlog1, <- app_assoc.
      split; [reflexivity|]. apply Forall_app. rewrite Hws in Hok2.
      split; assumption. }
  destruct (Hrun acts (main_start env) (main_start_inv env))
    as (s' & t & Hr & Hlog & Hok).
  exists s', t. do 3 (split; [assumption|]).
  intros n Hn. rewrite Z.lor_spec.
  assert (H0 : Z.testbit EPOLLIN n = (0 =? n))
    by exact (Z.pow2_bits_eqb 0 n ltac:(lia)).
  assert (H31 : Z.testbit EPOLLET n = (31 =? n))
    by exact (Z.pow2_bits_eqb 31 n ltac:(lia)).
  rewrite H0, H31, (Z.eqb_sym n 0), (Z.eqb_sym n 31). reflexivity.
Qed.

(** ** What keeps the process alive *)

Lemma step_threads junk s a s' :
  inv s -> step junk s a = Some s' ->
  threads s' = threads s
  \/ exists i o, a = WorkerStep i o
                 /\ (running s = false \/ turn_control o = Break).
Proof.
  intros Hinv.
  destruct (exit_code s) as [c|] eqn:Hex.
  { unfold step. rewrite Hex. intros [= <-]. auto. }
  destruct a as [signum|o|i o|].
  - unfold step. rewrite Hex, signal_handler_eq. intros [= <-]. auto.
  - destruct (acceptor s) eqn:Hacc;
      [|unfold step, accept_step; rewrite Hex, Hacc; intros [= <-]; auto].
    destruct (running s) eqn:Hrun.
    + destruct (inv_index s Hinv Hex) as [w Hw].
      destruct (accept_step_live junk s o w Hinv Hex Hacc Hrun Hw)
        as (t & _ & ->).
      destruct (accept_fatal o); intros [= <-]; auto.
    + unfold step, accept_step. rewrite Hex, Hacc, Hrun, leave_accept_loop_eq.
      intros [= <-]. auto.
  - unfold step, worker_step. rewrite Hex.
    destruct (threads s !! i) as [[|]|]; try (intros [= <-]; auto; fail).
    destruct (workers s !! i) as [w|]; [|intros [= <-]; auto].
    destruct (running s); [|intros _; right; eauto].
    destruct (worker_iteration_calls junk w o) as (t & -> & _).
    destruct (kills o); cbn [exec]; [intros [= <-]; auto|].
    destruct (turn_control o) eqn:Hctl;
      [intros [= <-]; auto|intros _; right; exists i, o; auto].
  - unfold step, shutdown. rewrite Hex.
    destruct (acceptor s); [intros [= <-]; auto|].
    destruct (forallb is_returned (threads s)); [|intros [= <-]; auto].
    destruct Hinv as (Hn & Hc & Hlive). destruct (Hlive Hex) as [Hlen _].
    destruct (join_workers_defined (workers s) (Z.to_nat (num_workers s)) 0
                ltac:(lia) ltac:(lia)) as (t & Ht & _).
    rewrite Ht. cbn [bind emit printf lift format chars with_newline
                     list_ascii_of_string exec ret].
    intros [= <-]. auto.
Qed.

(** X15. Nothing but a signal, the failure of the workers' waits or a
    SIGPIPE ends the process.  While the flag is set and some worker is in
    its loop, as long as no signal is delivered, no wait fails with an
    error other than EINTR and no response is written to a connection that
    raises SIGPIPE, the process does not end, the flag stays set and every
    worker stays where it is, whatever the main thread does: also after a
    fatal [accept] error, when nobody accepts any more. *)
Theorem no_exit_while_workers_wait junk acts : forall s,
  inv s -> exit_code s = None -> running s = true ->
  forallb is_returned (threads s) = false ->
  Forall keeps_waiting acts ->
  exists s',
    run junk s acts = Some s'
    /\ exit_code s' = None
    /\ running s' = true
    /\ threads s' = threads s.
Proof.
  induction acts as [|a acts IH]; intros s Hinv Hex Hrun Hth Hacts.
  - exists s. auto.
  - inversion Hacts as [|? ? Ha Hrest]; subst.
    destruct (step_effect junk s a Hinv) as (s1 & _ & Hs1 & _).
    pose proof (step_inv junk s a s1 Hinv Hs1) as Hinv1.
    assert (Hth1 : threads s1 = threads s).
    { destruct (step_threads junk s a s1 Hinv Hs1)
        as [H|(i & o & -> & [H|H])]; [exact H|congruence|].
      cbn [keeps_waiting] in Ha. destruct Ha. congruence. }
    assert (Hex1 : exit_code s1 = None).
    { destruct (step_status junk s a s1 Hinv Hs1)
        as (_ & _ & _ & [H|[H|(i & o & -> & Hsp & _)]]);
        [congruence| |].
      - destruct H as (_ & _ & _ & _ & H & _). congruence.
      - destruct Hsp as (_ & _ & _ & _ & Hk). destruct Ha. congruence. }
    assert (Hrun1 : running s1 = true).
    { destruct (step_running junk s a s1 Hinv Hs1) as [H|(g & -> & _)];
        [congruence|destruct Ha]. }
    destruct (IH s1 Hinv1 Hex1 Hrun1 ltac:(rewrite Hth1; exact Hth) Hrest)
      as (s' & Hr & He & Hf & Ht).
    exists s'. cbn [run]. rewrite Hs1. repeat split; congruence.
Qed.

Lemma no_exit_while_workers_wait_witness :
  let badf := mk_accept_outcome (-1) 9 "" 0 0 0 0 in
  let get := mk_served (ReadData (chars "GET /")) WriteReturns 0 in
  let acts := [AcceptStep badf;
               WorkerStep 0 (WaitReady [(mk_epoll_event EPOLLIN 9, get)]);
               WorkerStep 1 (WaitErr EINTR); Shutdown] in
  inv demo_server /\ exit_code demo_server = None /\
  running demo_server = true /\
  forallb is_returned (threads demo_server) = false /\
  Forall keeps_waiting acts /\
  exists s',
    run stale demo_server acts = Some s'
    /\ exit_code s' = None
    /\ running s' = true
    /\ threads s' = threads demo_server.
Proof.
  intros badf get acts.
  assert (Hacts : Forall keeps_waiting acts) by (repeat constructor).
  split; [apply main_start_inv|]. do 3 (split; [reflexivity|]).
  split; [exact Hacts|].
  exact (no_exit_while_workers_wait stale acts demo_server
           (main_start_inv (demo_env 4)) eq_refl eq_refl eq_refl Hacts).
Defined.

(** ** What gets registered *)

Ltac trace_prefix H t1 :=
  repeat (destruct t1 as [|? t1]; cbn [app] in H;
          [try discriminate H|injection H as <- H]);
  try (destruct t1; discriminate H).

(** X16. The main thread registers only a socket that [accept] has just
    returned and that both [fcntl] calls have switched to non-blocking
    mode, and only with the multiplexer of the worker at the cursor: the
    calls of the turn before an [EPOLL_CTL_ADD] are exactly the [accept]
    and the two successful [fcntl] calls on that socket. *)
Theorem registered_socket_is_non_blocking junk s o :
  inv s -> exit_code s = None ->
  exists s' t,
    step junk s (AcceptStep o) = Some s'
    /\ log s' = log s ++ t
    /\ forall t1 t2 epfd fd mask r,
         t = t1 ++ EvEpollCtl epfd EPOLL_CTL_ADD fd mask r :: t2 ->
         fd = accept_ret o /\ fd <> -1
         /\ fcntl_getfl o <> -1 /\ fcntl_setfl o <> -1
         /\ t1 = [EvAccept (server_fd s) fd;
                  EvFcntl fd F_GETFL 0 (fcntl_getfl o);
                  EvFcntl fd F_SETFL (Z.lor (fcntl_getfl o) O_NONBLOCK)
                    (fcntl_setfl o)]
         /\ exists w, index (workers s) (current_worker s) = Some w
                      /\ epfd = epoll_fd w.
Proof.
  intros Hinv Hex. unfold step, accept_step. rewrite Hex.
  destruct (acceptor s) eqn:Hacc.
  2:{ exists s, []. rewrite app_nil_r. do 2 (split; [reflexivity|]).
      intros t1 t2 epfd fd mask r H. trace_prefix H t1. }
  destruct (running s) eqn:Hrun.
  2:{ rewrite leave_accept_loop_eq. eexists _, _. split; [reflexivity|].
      split; [reflexivity|].
      intros t1 t2 epfd fd mask r H. trace_prefix H t1. }
  destruct (inv_index s Hinv Hex) as [w Hw].
  destruct Hinv as (Hn & Hc & _).
  destruct (Z.eq_dec (accept_ret o) (-1)) as [Hr|Hr].
  { destruct (accept_fatal o) eqn:Hf.
    - rewrite accept_iteration_fatal by assumption. cbn [exec fst snd].
      rewrite leave_accept_loop_eq. eexists _, _. split; [reflexivity|].
      cbn [log add_log set_current_worker set_acceptor].
      rewrite <- app_assoc. split; [reflexivity|].
      intros t1 t2 epfd fd mask r H. cbn [app] in H. trace_prefix H t1.
    - rewrite accept_iteration_retry by assumption. cbn [exec fst snd].
      eexists _, _. split; [reflexivity|]. split; [reflexivity|].
      intros t1 t2 epfd fd mask r H. trace_prefix H t1. }
  destruct (Z.eq_dec (fcntl_getfl o) (-1)) as [Hg|Hg].
  { rewrite accept_iteration_getfl_fails by assumption. cbn [exec fst snd].
    eexists _, _. split; [reflexivity|]. split; [reflexivity|].
    intros t1 t2 epfd fd mask r H. trace_prefix H t1. }
  destruct (Z.eq_dec (fcntl_setfl o) (-1)) as [Hs|Hs].
  { rewrite accept_iteration_setfl_fails by assumption. cbn [exec fst snd].
    eexists _, _. split; [reflexivity|]. split; [reflexivity|].
    intros t1 t2 epfd fd mask r H. trace_prefix H t1. }
  destruct (Z.eq_dec (epoll_ctl_ret o) (-1)) as [Hctl|Hctl].
  { rewrite (accept_iteration_ctl_fails s o w) by assumption.
    cbn [exec fst snd].
    eexists _, _. split; [reflexivity|]. split; [reflexivity|].
    intros t1 t2 epfd fd mask r H. trace_prefix H t1.
    injection H as <- <- <- <- <-. repeat split; eauto. }
  assert (Hreg : registers o = true).
  { unfold registers, accepted. apply Z.eqb_neq in Hr, Hg, Hs, Hctl.
    rewrite Hr, Hg, Hs, Hctl. reflexivity. }
  rewrite (accept_iteration_registers s o w Hreg Hw) by lia.
  cbn [exec fst snd].
  eexists _, _. split; [reflexivity|]. split; [reflexivity|].
  intros t1 t2 epfd fd mask r H. trace_prefix H t1.
  injection H as <- <- <- <- <-. repeat split; eauto.
Qed.

Lemma registered_socket_is_non_blocking_witness :
  let o := mk_accept_outcome 9 0 "127.0.0.1" 50000 2 0 0 in
  inv demo_server /\ exit_code demo_server = None /\
  exists s' t,
    step stale demo_server (AcceptStep o) = Some s'
    /\ log s' = log demo_server ++ t
    /\ forall t1 t2 epfd fd mask r,
         t = t1 ++ EvEpollCtl epfd EPOLL_CTL_ADD fd mask r :: t2 ->
         fd = 9 /\ epfd = 4.
Proof.
  intros o. split; [apply main_start_inv|]. split; [reflexivity|].
  destruct (registered_socket_is_non_blocking stale demo_server o
              (main_start_inv (demo_env 4)) eq_refl)
    as (s' & t & Hs' & Hlog & Hadd).
  exists s', t. do 2 (split; [assumption|]).
  intros t1 t2 epfd fd mask r H.
  destruct (Hadd t1 t2 epfd fd mask r H)
    as (Hfd & _ & _ & _ & _ & w & Hw & Hep).
  split; [exact Hfd|]. rewrite Hep.
  cbv in Hw. injection Hw as <-. reflexivity.
Defined.
